(** * Employee Tracking App: the aggregation core of [employee_tracking_app.py]

    The script loads two uploaded tables into pandas frames, normalises the
    employee frame, and renders one of six reports.  This development embeds
    the data path of the script (everything except the widgets and the
    charts) and proves properties of the summary tables it builds.

    Layout:
    - [Py]: the Python values, exceptions, [int()], [str.split] and the
      binary64 arithmetic the duration parser runs on;
    - [Pd]: the pandas operations the script calls ([groupby] with its
      default [sort=True, dropna=True], [sum] on int64 and float64
      columns, [count], [nunique], [unique]);
    - [App]: the script itself, top to bottom. *)

From Stdlib Require Import ZArith Ascii String List Bool Lia.
From Stdlib Require Import Floats.SpecFloat.
From stdpp Require Import base decidable option list strings sorting gmap.

(** ** Python runtime *)
Module Py.
Local Open Scope Z_scope.

(** The exceptions the modelled builtins can raise. *)
Inductive exn := ValueError | OverflowError | ZeroDivisionError | IndexError.

(** A computation that returns a value or raises. *)
Inductive result (A : Type) :=
  | Ok (a : A)
  | Raise (e : exn).
Arguments Ok {A} a.
Arguments Raise {A} e.

Definition bind {A B} (m : result A) (k : A → result B) : result B :=
  match m with
  | Ok a => k a
  | Raise e => Raise e
  end.

(** [try: body / except: handler] with a bare [except], which catches
    every exception. *)
Definition try_except {A} (body : result A) (handler : result A) : result A :=
  match body with
  | Ok a => Ok a
  | Raise _ => handler
  end.

#[global] Instance result_ret : MRet result := @Ok.
#[global] Instance result_bind : MBind result := λ A B k m, bind m k.

(** *** Floats: IEEE 754 binary64, round to nearest even *)
Definition prec : Z := 53.
Definition emax : Z := 1024.
Abbreviation float := spec_float.

Definition fadd : float → float → float := SFadd prec emax.
Definition fsub : float → float → float := SFsub prec emax.
Definition fdiv : float → float → float := SFdiv prec emax.
Definition fleb : float → float → bool := SFleb.

(** The float nearest to [m * 2^e]. *)
Definition dyadic (m e : Z) : float := binary_normalize prec emax m e false.

Definition is_inf (f : float) : bool :=
  match f with S754_infinity _ => true | _ => false end.

(** [f] is a zero, a finite number or an infinity of sign [s]. *)
Definition has_sign (s : bool) (f : float) : Prop :=
  match f with
  | S754_zero s' | S754_infinity s' | S754_finite s' _ _ => s' = s
  | S754_nan => False
  end.

(** [f] is a zero or a finite number. *)
Definition finite (f : float) : Prop :=
  match f with
  | S754_zero _ | S754_finite _ _ _ => True
  | _ => False
  end.

(** [float(n)] for an [int]: correctly rounded, [OverflowError] when the
    integer is too large for a float. *)
Definition float_of_int (n : Z) : result float :=
  let f := dyadic n 0 in
  if is_inf f then Raise OverflowError else Ok f.

(** An integer as an unrounded operand of the division algorithm. *)
Definition exact_int (n : Z) : float :=
  match n with
  | Z0 => S754_zero false
  | Zpos p => S754_finite false p 0
  | Zneg p => S754_finite true p 0
  end.

(** [a / b] on two [int]s (true division): the correctly rounded
    quotient of the exact integers. *)
Definition int_truediv (a b : Z) : result float :=
  if decide (b = 0) then Raise ZeroDivisionError
  else
    let q := fdiv (exact_int a) (exact_int b) in
    if is_inf q then Raise OverflowError else Ok q.

(** [n + f] for an [int] and a [float]: the integer is converted first. *)
Definition int_add_float (n : Z) (f : float) : result float :=
  x ← float_of_int n; Ok (fadd x f).

(** *** Values *)
Inductive value :=
  | PyNone
  | PyInt (n : Z)
  | PyFloat (f : float)
  | PyStr (s : string).

Definition is_number (v : value) : bool :=
  match v with
  | PyInt _ | PyFloat _ => true
  | _ => false
  end.

(** [v >= 0] on a number. *)
Definition ge0 (v : value) : bool :=
  match v with
  | PyInt n => bool_decide (0 ≤ n)
  | PyFloat f => fleb (S754_zero false) f
  | _ => false
  end.

(** [v < 0] on a number. *)
Definition lt0 (v : value) : bool :=
  match v with
  | PyInt n => bool_decide (n < 0)
  | PyFloat f => SFltb f (S754_zero false)
  | _ => false
  end.

(** *** Strings

    A [str] whose code points are all below 256 is the Rocq string of
    those code points. *)

(** [s.split(sep)] for a one-character separator: never empty. *)
Fixpoint split (sep : ascii) (s : string) : list string :=
  match s with
  | EmptyString => [EmptyString]
  | String c s' =>
      if decide (c = sep) then EmptyString :: split sep s'
      else
        match split sep s' with
        | p :: ps => String c p :: ps
        | [] => [String c EmptyString]
        end
  end.

(** Whitespace for [int()]: the C locale's blanks, and the two
    whitespace code points of the upper half, NEL and NBSP, which the
    interpreter rewrites to a space before parsing. *)
Definition is_space (c : ascii) : bool :=
  let n := N_of_ascii c in
  ((9 <=? n) && (n <=? 13) || (n =? 32) || (n =? 133) || (n =? 160))%N.

Definition digit_value (c : ascii) : option Z :=
  let n := N_of_ascii c in
  if ((48 <=? n) && (n <=? 57))%N then Some (Z.of_N n - 48) else None.

Fixpoint skip_spaces (s : string) : string :=
  match s with
  | String c s' => if is_space c then skip_spaces s' else s
  | EmptyString => s
  end.

(** The digit loop of the integer parser: digits with single underscores
    between them.  Returns the value read, the number of digits and the
    rest of the string; [None] on a doubled or trailing underscore. *)
Fixpoint scan_digits (s : string) (prev_underscore : bool) (acc : Z) (n : nat)
    : option (Z * nat * string)%type :=
  match s with
  | String c s' =>
      if decide (c = "_"%char) then
        if prev_underscore then None else scan_digits s' true acc n
      else
        match digit_value c with
        | Some d => scan_digits s' false (10 * acc + d) (S n)
        | None => if prev_underscore then None else Some (acc, n, s)
        end
  | EmptyString => if prev_underscore then None else Some (acc, n, s)
  end.

(** The interpreter's limit on the number of digits [int()] converts
    ([sys.set_int_max_str_digits]; 0 switches it off, and the check only
    runs above 640 digits). *)
Definition too_many_digits (max_str_digits n : nat) : bool :=
  bool_decide (640 < n)%nat && bool_decide (0 < max_str_digits)%nat
    && bool_decide (max_str_digits < n)%nat.

(** An optional sign in front of the digits. *)
Definition strip_sign (s : string) : bool * string :=
  match s with
  | String c r =>
      if decide (c = "+"%char) then (false, r)
      else if decide (c = "-"%char) then (true, r)
      else (false, s)
  | EmptyString => (false, s)
  end.

Definition starts_with_underscore (s : string) : bool :=
  match s with
  | String c _ => bool_decide (c = "_"%char)
  | EmptyString => false
  end.

(** [int(s)] in base 10: blanks, sign, digits, blanks. *)
Definition int (max_str_digits : nat) (s : string) : result Z :=
  let '(neg, s2) := strip_sign (skip_spaces s) in
  if starts_with_underscore s2 then Raise ValueError
  else
    match scan_digits s2 false 0 0 with
    | None => Raise ValueError
    | Some (v, n, rest) =>
        if decide (n = 0%nat) then Raise ValueError
        else
          match skip_spaces rest with
          | EmptyString =>
              if too_many_digits max_str_digits n then Raise ValueError
              else Ok (if neg : bool then - v else v)
          | _ => Raise ValueError
          end
    end.

(** The characters of a string. *)
Definition chars (s : string) : list ascii := list_ascii_of_string s.

(** The characters an integer literal is made of. *)
Definition numeral_char (c : ascii) : bool :=
  is_space c || bool_decide (is_Some (digit_value c))
    || bool_decide (c = "_"%char) || bool_decide (c = "+"%char)
    || bool_decide (c = "-"%char).

(** *** The [str] methods the column names go through *)

(** [c.isspace()] for a code point below 256. *)
Definition isspace (c : ascii) : bool :=
  let n := N_of_ascii c in
  ((9 <=? n) && (n <=? 13) || (28 <=? n) && (n <=? 32)
   || (n =? 133) || (n =? 160))%N.

Fixpoint lstrip (s : string) : string :=
  match s with
  | String c s' => if isspace c then lstrip s' else s
  | EmptyString => s
  end.

Fixpoint rstrip (s : string) : string :=
  match s with
  | String c s' =>
      match rstrip s' with
      | EmptyString => if isspace c then EmptyString else String c EmptyString
      | r => String c r
      end
  | EmptyString => EmptyString
  end.

(** A string that does not start with whitespace. *)
Definition head_ok (s : string) : Prop :=
  match s with
  | String c _ => isspace c = false
  | EmptyString => True
  end.

(** [s.strip()]: whitespace goes from both ends. *)
Definition strip (s : string) : string := rstrip (lstrip s).

Fixpoint map_chars (f : ascii → ascii) (s : string) : string :=
  match s with
  | String c s' => String (f c) (map_chars f s')
  | EmptyString => EmptyString
  end.

(** The lower-case form of a code point below 256: the letters A-Z and
    the capital letters of the upper half move up by 32. *)
Definition lower_char (c : ascii) : ascii :=
  let n := N_of_ascii c in
  if ((65 <=? n) && (n <=? 90)
      || (192 <=? n) && (n <=? 222) && negb (n =? 215))%N
  then ascii_of_N (n + 32) else c.

(** [s.lower()]. *)
Definition lower (s : string) : string := map_chars lower_char s.

(** [s.replace(old, new)] for one-character [old] and [new]. *)
Definition replace_char (old new : ascii) (s : string) : string :=
  map_chars (λ c, if decide (c = old) then new else c) s.

End Py.

(** ** pandas

    A cell of a text or date column is an [option]: [None] is the missing
    value (NaN, NaT).  A cell of a numeric column is a [number]: an int64,
    written as the integer it stands for with the wrap-around of the
    arithmetic spelled out, or a float64, whose NaN is the missing
    value. *)
Module Pd.
Local Open Scope Z_scope.

(** [Series.unique()]: the distinct values in order of first appearance. *)
Fixpoint unique `{EqDecision A} (l : list A) : list A :=
  match l with
  | [] => []
  | x :: l' => x :: filter (λ y, y ≠ x) (unique l')
  end.

(** The present cells of a column. *)
Definition present {A} (col : list (option A)) : list A := omap id col.

(** [count]: the number of present cells. *)
Definition count {A} (col : list (option A)) : Z :=
  Z.of_nat (length (present col)).

(** [nunique]: the number of distinct present cells. *)
Definition nunique `{EqDecision A} (col : list (option A)) : Z :=
  Z.of_nat (length (unique (present col))).

(** The total of a weight over rows. *)
Definition total {R} (w : R → Z) (rows : list R) : Z :=
  foldr (λ r acc, w r + acc) 0 rows.

(** [Series.apply(f)]: [f] on every cell in row order; an exception of
    [f] ends the call. *)
Fixpoint apply {A B} (f : A → Py.result B) (col : list A) : Py.result (list B) :=
  match col with
  | [] => Py.Ok []
  | x :: col' => y ← f x; ys ← apply f col'; Py.Ok (y :: ys)
  end.

(** *** Numeric columns

    A column is int64 when every cell of it is a whole number, and
    float64 as soon as one cell is fractional or missing: all cells of a
    column are of one kind. *)
Inductive number :=
  | Int64 (z : Z)
  | Float64 (f : Py.float).

Definition is_int64 (x : number) : Prop :=
  match x with Int64 _ => True | Float64 _ => False end.

#[global] Instance is_int64_dec x : Decision (is_int64 x).
Proof. destruct x; apply _. Defined.

(** The integer in an int64 cell. *)
Definition int_of (x : number) : Z :=
  match x with Int64 z => z | Float64 _ => 0 end.

(** int64 arithmetic: the result is taken modulo 2^64 into the range
    from -2^63 to 2^63 - 1. *)
Definition wrap (z : Z) : Z := (z + 2 ^ 63) mod 2 ^ 64 - 2 ^ 63.

(** The integers an int64 holds. *)
Definition in_int64 (z : Z) : Prop := - 2 ^ 63 ≤ z < 2 ^ 63.

(** [astype('float64')]: an int64 becomes the nearest float. *)
Definition astype_float64 (x : number) : Py.float :=
  match x with Int64 z => Py.dyadic z 0 | Float64 f => f end.

Definition is_nan (f : Py.float) : bool :=
  match f with S754_nan => true | _ => false end.

(** The loop behind [groupby(...).sum()], for one group and one column
    of either kind: missing cells are skipped, the others are added in
    row order with a running compensation for the rounding of each step
    (Kahan summation); a compensation that has become NaN is reset. *)
Section group_sum.
Context {T : Type} (zero : T) (add sub : T → T → T) (isna : T → bool).

Definition kahan_step (acc : T * T) (val : T) : T * T :=
  let '(sumx, compensation) := acc in
  let y := sub val compensation in
  let t := add sumx y in
  let compensation := sub (sub t sumx) y in
  (t, if isna compensation then zero else compensation).

Definition group_sum (values : list T) : T :=
  (foldl kahan_step (zero, zero) (filter (λ val, isna val = false) values)).1.
End group_sum.

(** On int64 no cell is missing and every step wraps. *)
Definition isum : list Z → Z :=
  group_sum 0 (λ a b, wrap (a + b)) (λ a b, wrap (a - b)) (λ _, false).

(** On float64 NaN is the missing value. *)
Definition fsum : list Py.float → Py.float :=
  group_sum (S754_zero false) Py.fadd Py.fsub is_nan.

(** [sum] over the cells of one group, in the kind of the column (which
    is the kind of every cell of the group). *)
Definition sum (col : list number) : number :=
  if decide (Forall is_int64 col) then Int64 (isum (int_of <$> col))
  else Float64 (fsum (astype_float64 <$> col)).

(** [x - y] on two columns, cell by cell: int64 when both are, float64
    otherwise. *)
Definition sub (x y : number) : number :=
  match x, y with
  | Int64 a, Int64 b => Int64 (wrap (a - b))
  | _, _ => Float64 (Py.fsub (astype_float64 x) (astype_float64 y))
  end.

(** [x < 0]. *)
Definition lt0 (x : number) : bool :=
  match x with
  | Int64 z => bool_decide (z < 0)
  | Float64 f => SFltb f (S754_zero false)
  end.

(** Order on the key tuples of a multi-column [groupby]: by the first
    column, then by the second. *)
Definition lex_le {A B} `{EqDecision A}
    (leA : relation A) (leB : relation B) : relation (A * B) :=
  λ x y, if decide (x.1 = y.1) then leB x.2 y.2 else leA x.1 y.1.

#[global] Instance lex_le_dec {A B} `{EqDecision A}
    (leA : relation A) (leB : relation B)
    `{!RelDecision leA, !RelDecision leB} : RelDecision (lex_le leA leB).
Proof. intros x y. unfold lex_le. destruct (decide (x.1 = y.1)); apply _. Defined.

(** The strict part of an order. *)
Definition strict_of {A} (le : relation A) : relation A :=
  λ x y, le x y ∧ x ≠ y.

Section groupby.
Context {R K : Type} `{EqDecision K} (le : relation K) `{!RelDecision le}.
Variable key : R → option K.

(** The group keys: rows with a missing key cell are left out
    ([dropna=True]) and the keys come out sorted ([sort=True]). *)
Definition group_keys (rows : list R) : list K :=
  merge_sort le (unique (omap key rows)).

(** The rows of one group, in row order. *)
Definition group (k : K) (rows : list R) : list R :=
  filter (λ r, key r = Some k) rows.

(** [df.groupby(keys)]: one entry per key, sorted by key. *)
Definition groupby (rows : list R) : list (K * list R) :=
  (λ k, (k, group k rows)) <$> group_keys rows.
End groupby.

End Pd.

(** ** The script *)
Module App.
Local Open Scope Z_scope.
Import Py.

(** A pandas [Timestamp]: nanoseconds since the epoch. *)
Definition Timestamp := Z.

(** *** The frames *)

(** [employee_df] as loaded, after the column names are standardised:
    a table with numeric day columns whose column names are pairwise
    distinct (a table in which standardising has made two names coincide
    has no such description: a column name then stands for several
    columns).  The two date columns hold whatever the file had. *)
Module Raw.
Record row := {
  name : option string;
  topic : option string;
  start_date : value;
  end_date : value;
  work_days : Pd.number;
  leave_days : Pd.number;
  other : gmap string Pd.number   (* the cells of the further columns *)
}.
Record frame := { columns : list string; rows : list row }.

(** Two rows that differ at most in the [end_date] cell. *)
Definition same_but_end_date (r1 r2 : row) : Prop :=
  name r1 = name r2 ∧ topic r1 = topic r2
  ∧ start_date r1 = start_date r2
  ∧ work_days r1 = work_days r2 ∧ leave_days r1 = leave_days r2
  ∧ other r1 = other r2.
End Raw.

(** [employee_df] after preprocessing. *)
Module Emp.
Record row := {
  name : option string;
  topic : option string;
  start_date : option Timestamp;
  end_date : option Timestamp;
  work_days : Pd.number;
  leave_days : Pd.number;
  week_number : option Z;
  month : option string;
  month_number : option Z;
  other : gmap string Pd.number
}.
Record frame := { columns : list string; rows : list row }.

(** The cell of a further column; a row without one has a missing
    value there. *)
Definition cell (col : string) (r : row) : Pd.number :=
  default (Pd.Float64 S754_nan) (other r !! col).

(** Two rows that differ at most in the [end_date] cell. *)
Definition same_but_end_date (r1 r2 : row) : Prop :=
  name r1 = name r2 ∧ topic r1 = topic r2
  ∧ start_date r1 = start_date r2
  ∧ work_days r1 = work_days r2 ∧ leave_days r1 = leave_days r2
  ∧ week_number r1 = week_number r2 ∧ month r1 = month r2
  ∧ month_number r1 = month_number r2 ∧ other r1 = other r2.

(** Two rows that differ at most in the cells of the further
    columns. *)
Definition same_but_other (r1 r2 : row) : Prop :=
  name r1 = name r2 ∧ topic r1 = topic r2
  ∧ start_date r1 = start_date r2 ∧ end_date r1 = end_date r2
  ∧ work_days r1 = work_days r2 ∧ leave_days r1 = leave_days r2
  ∧ week_number r1 = week_number r2 ∧ month r1 = month r2
  ∧ month_number r1 = month_number r2.
End Emp.

Module Weekly.
Record row := {
  name : string;
  week_number : Z;
  total_work_days : Pd.number;
  total_leave_days : Pd.number;
  ppt_count : Z;
  weekly_target : Z;
  target_met : bool
}.
Definition key (r : row) : string * Z := (name r, week_number r).
End Weekly.

Module Monthly.
Record row := {
  name : string;
  month : string;
  month_number : Z;
  total_work_days : Pd.number;
  total_leave_days : Pd.number;
  ppt_count : Z;
  unique_weeks : Z;
  monthly_target : Z;
  target_met : bool
}.
Definition key (r : row) : string * string * Z :=
  (name r, month r, month_number r).
End Monthly.

Module Overall.
Record row := {
  name : string;
  total_work_days : Pd.number;
  total_leave_days : Pd.number;
  total_ppt_count : Z
}.
End Overall.

Module Attendance.
Record row := {
  name : string;
  month : string;
  total_days : Z;
  work_days : Pd.number;
  leave_days : Pd.number;
  present_days : Pd.number;
  absent_days : Pd.number
}.
Definition key (r : row) : string * string := (name r, month r).
End Attendance.

Module Buffer.
(** One row per name; [sums] lists the buffer columns with their
    totals, in the order of [buffer_cols]. *)
Record row := { name : string; sums : list (string * Pd.number) }.
End Buffer.

(** [video_df] as loaded, after the column names are standardised; its
    column names are pairwise distinct. *)
Module Video.
Record row := { name : option string; video_duration : value }.
Record frame := { columns : list string; rows : list row }.
Record summary := {
  s_name : string;
  total_minutes : float;
  target_minutes : float;
  target_met : bool
}.
End Video.

(** *** Load and preprocess *)

Definition required : list string :=
  ["start_date"; "end_date"; "work_days"; "leave_days"; "topic"; "name"].

(** Lines 26 and 180: [columns.str.strip().str.lower().str.replace(' ', '_')]
    on one column name, and on all of them. *)
Definition standardize_column (c : string) : string :=
  replace_char " " "_" (lower (strip c)).

Definition standardize_columns (columns : list string) : list string :=
  standardize_column <$> columns.

(** [df[c] = ...]: a new column goes last, an old one keeps its place. *)
Definition set_column (c : string) (cols : list string) : list string :=
  if decide (c ∈ cols) then cols else cols ++ [c].

(** What [st.selectbox(label, options)] gives back: one of the options,
    or [None] when there is none to choose from. *)
Definition selectbox_ok (selectbox : list string → option string) : Prop :=
  ∀ options,
    match selectbox options with
    | Some option => option ∈ options
    | None => options = []
    end.

Section script.
(** The date library.  [to_datetime col i] is the cell of row [i] in
    [pd.to_datetime(col, errors='coerce')], [None] being NaT: the
    conversion works on the column as a whole (it settles on one date
    format for it), so what becomes of a cell depends on the column it
    stands in.  The other three are the accessors of a timestamp. *)
Variable to_datetime : list value → nat → option Timestamp.
Variable isocalendar_week : Timestamp → Z.
Variable month_name : Timestamp → string.
Variable month_of : Timestamp → Z.

(** The interpreter's digit limit for [int()] (4300 unless changed). *)
Variable max_str_digits : nat.

(** The choice the user makes in a select box. *)
Variable selectbox : list string → option string.

(** Lines 35-36: both date columns are converted, each as a whole. *)
Definition convert_dates (rows : list Raw.row) : list Emp.row :=
  let start_date := to_datetime (Raw.start_date <$> rows) in
  let end_date := to_datetime (Raw.end_date <$> rows) in
  imap (λ i r,
          {| Emp.name := Raw.name r;
             Emp.topic := Raw.topic r;
             Emp.start_date := start_date i;
             Emp.end_date := end_date i;
             Emp.work_days := Raw.work_days r;
             Emp.leave_days := Raw.leave_days r;
             Emp.week_number := None;
             Emp.month := None;
             Emp.month_number := None;
             Emp.other := Raw.other r |}) rows.

(** Line 37: [dropna(subset=['start_date'])]. *)
Definition dropna_start_date (rows : list Emp.row) : list Emp.row :=
  filter (λ r, is_Some (Emp.start_date r)) rows.

(** Lines 40-42: the temporal features, from [start_date] alone. *)
Definition add_temporal (r : Emp.row) : Emp.row :=
  {| Emp.name := Emp.name r;
     Emp.topic := Emp.topic r;
     Emp.start_date := Emp.start_date r;
     Emp.end_date := Emp.end_date r;
     Emp.work_days := Emp.work_days r;
     Emp.leave_days := Emp.leave_days r;
     Emp.week_number := isocalendar_week <$> Emp.start_date r;
     Emp.month := month_name <$> Emp.start_date r;
     Emp.month_number := month_of <$> Emp.start_date r;
     Emp.other := Emp.other r |}.

(** Lines 29-42.  [inl missing]: the required-columns check failed and
    the script stopped after reporting the missing names. *)
Definition preprocess (raw : Raw.frame) : list string + Emp.frame :=
  if decide (Forall (λ c, c ∈ Raw.columns raw) required) then
    inr {| Emp.columns :=
             set_column "month_number"
               (set_column "month"
                  (set_column "week_number" (Raw.columns raw)));
           Emp.rows :=
             add_temporal <$>
               dropna_start_date (convert_dates (Raw.rows raw)) |}
  else
    inl (filter (λ c, c ∉ Raw.columns raw) required).

(** *** Weekly Performance (lines 53-60) *)

Definition name_week_le : relation (string * Z) := Pd.lex_le String.le Z.le.

Definition name_week (r : Emp.row) : option (string * Z) :=
  n ← Emp.name r; w ← Emp.week_number r; Some (n, w).

Definition weekly_summary (df : Emp.frame) : list Weekly.row :=
  (λ '(k, g),
     let ppt_count := Pd.count (Emp.topic <$> g) in
     let weekly_target := 6 in
     {| Weekly.name := k.1;
        Weekly.week_number := k.2;
        Weekly.total_work_days := Pd.sum (Emp.work_days <$> g);
        Weekly.total_leave_days := Pd.sum (Emp.leave_days <$> g);
        Weekly.ppt_count := ppt_count;
        Weekly.weekly_target := weekly_target;
        Weekly.target_met := bool_decide (weekly_target ≤ ppt_count) |})
  <$> Pd.groupby name_week_le name_week (Emp.rows df).

(** *** Monthly Performance (lines 77-85) *)

Definition name_month_number_le : relation (string * string * Z) :=
  Pd.lex_le (Pd.lex_le String.le String.le) Z.le.

Definition name_month_number (r : Emp.row) : option (string * string * Z) :=
  n ← Emp.name r; m ← Emp.month r; k ← Emp.month_number r; Some (n, m, k).

Definition monthly_summary (df : Emp.frame) : list Monthly.row :=
  (λ '(k, g),
     let ppt_count := Pd.nunique (Emp.topic <$> g) in
     let unique_weeks := Pd.nunique (Emp.week_number <$> g) in
     let monthly_target := unique_weeks * 6 in
     {| Monthly.name := k.1.1;
        Monthly.month := k.1.2;
        Monthly.month_number := k.2;
        Monthly.total_work_days := Pd.sum (Emp.work_days <$> g);
        Monthly.total_leave_days := Pd.sum (Emp.leave_days <$> g);
        Monthly.ppt_count := ppt_count;
        Monthly.unique_weeks := unique_weeks;
        Monthly.monthly_target := monthly_target;
        Monthly.target_met := bool_decide (monthly_target ≤ ppt_count) |})
  <$> Pd.groupby name_month_number_le name_month_number (Emp.rows df).

(** *** Overall Statistics (lines 103-107) *)

Definition summary (df : Emp.frame) : list Overall.row :=
  (λ '(k, g),
     {| Overall.name := k;
        Overall.total_work_days := Pd.sum (Emp.work_days <$> g);
        Overall.total_leave_days := Pd.sum (Emp.leave_days <$> g);
        Overall.total_ppt_count := Pd.nunique (Emp.topic <$> g) |})
  <$> Pd.groupby String.le Emp.name (Emp.rows df).

(** *** Attendance (lines 123-139) *)

Definition name_month_le : relation (string * string) :=
  Pd.lex_le String.le String.le.

Definition name_month (r : Emp.row) : option (string * string) :=
  n ← Emp.name r; m ← Emp.month r; Some (n, m).

Definition attendance (df : Emp.frame) : list Attendance.row :=
  (λ '(k, g),
     let total_days := Pd.count (Emp.start_date <$> g) in
     let work_days := Pd.sum (Emp.work_days <$> g) in
     let present_days := work_days in
     {| Attendance.name := k.1;
        Attendance.month := k.2;
        Attendance.total_days := total_days;
        Attendance.work_days := work_days;
        Attendance.leave_days := Pd.sum (Emp.leave_days <$> g);
        Attendance.present_days := present_days;
        Attendance.absent_days :=
          Pd.sub (Pd.Int64 total_days) present_days |})
  <$> Pd.groupby name_month_le name_month (Emp.rows df).

(** The options of the employee select box: [attendance['name'].unique()]. *)
Definition emp_options (attendance : list Attendance.row) : list string :=
  Pd.unique (Attendance.name <$> attendance).

(** [attendance[attendance['name'] == emp].iloc[0]]; [emp] is the value of
    the select box, [None] when it has nothing to offer. *)
Definition emp_att (attendance : list Attendance.row) (emp : option string)
    : result Attendance.row :=
  match filter (λ a, emp = Some (Attendance.name a)) attendance with
  | a :: _ => Ok a
  | [] => Raise IndexError
  end.

Definition pie_data (attendance : list Attendance.row) (emp : option string)
    : result (list (string * Pd.number)) :=
  emp_att ← emp_att attendance emp;
  Ok [("Present"%string, Attendance.present_days emp_att);
      ("Absent"%string, Attendance.absent_days emp_att);
      ("Leave"%string, Attendance.leave_days emp_att)].

(** *** PPT, Illustration & AE Buffer (lines 152-172) *)

Definition buffer_cols : list string :=
  ["ppt's_buffer"; "lab_ppt's_buffer"; "illu_buffer"; "ae_buffer"].

(** [None]: the columns are not all there and the page shows the
    warning instead of a table. *)
Definition buffer_summary (df : Emp.frame) : option (list Buffer.row) :=
  if decide (Forall (λ col, col ∈ Emp.columns df) buffer_cols) then
    Some ((λ '(k, g),
             {| Buffer.name := k;
                Buffer.sums :=
                  (λ col, (col, Pd.sum (Emp.cell col <$> g)))
                  <$> buffer_cols |})
          <$> Pd.groupby String.le Emp.name (Emp.rows df))
  else None.

(** *** Video Duration (lines 178-221) *)

Definition time_to_minutes (t : value) : result value :=
  match t with
  | PyStr t =>
      let parts := split ":" t in
      returned ←
        try_except
          (match parts with
           | [p0; p1] =>
               a ← int max_str_digits p0;
               b ← int max_str_digits p1;
               q ← int_truediv b 60;
               r ← int_add_float a q;
               Ok (Some (PyFloat r))
           | [p0; p1; p2] =>
               a ← int max_str_digits p0;
               b ← int max_str_digits p1;
               c ← int max_str_digits p2;
               q ← int_truediv c 60;
               r ← int_add_float (a * 60 + b) q;
               Ok (Some (PyFloat r))
           | _ => Ok None
           end)
          (Ok (Some (PyInt 0)));
      match returned with
      | Some v => Ok v
      | None => Ok (PyInt 0)
      end
  | _ => Ok (PyInt 0)
  end.

(** The durations the parser is written for: a string of two or three
    colon-separated integer literals. *)
Definition well_formed_duration (t : value) : Prop :=
  ∃ s, t = PyStr s
       ∧ (length (split ":" s) = 2%nat ∨ length (split ":" s) = 3%nat)
       ∧ ∀ p, p ∈ split ":" s → ∃ n, int max_str_digits p = Ok n.

(** A returned number as a cell of the float64 column [total_minutes].
    (When every duration gives the integer 0 the column is int64; it
    then holds the same numbers, all 0.) *)
Definition as_float64 (v : value) : float :=
  match v with
  | PyInt n => dyadic n 0
  | PyFloat f => f
  | _ => S754_nan
  end.

Definition video_summary (video_df : Video.frame)
    : result (list Video.summary) :=
  total_minutes ←
    Pd.apply time_to_minutes (Video.video_duration <$> Video.rows video_df);
  let df := zip (Video.name <$> Video.rows video_df)
                (as_float64 <$> total_minutes) in
  Ok ((λ '(k, g),
         let total := Pd.fsum (g.*2) in
         let target_minutes := dyadic 90 0 in
         {| Video.s_name := k;
            Video.total_minutes := total;
            Video.target_minutes := target_minutes;
            Video.target_met := fleb target_minutes total |})
      <$> Pd.groupby String.le fst df).

(** The options of the SME select box: [video_summary['name'].unique()]. *)
Definition sme_options (video_summary : list Video.summary) : list string :=
  Pd.unique (Video.s_name <$> video_summary).

(** Line 212: [video_summary[video_summary['name'] == emp].iloc[0]]. *)
Definition emp_dur (video_summary : list Video.summary) (emp : option string)
    : result Video.summary :=
  match filter (λ v, emp = Some (Video.s_name v)) video_summary with
  | v :: _ => Ok v
  | [] => Raise IndexError
  end.

(** *** The menu (lines 46-221) *)

Inductive menu :=
  | WeeklyPerformance
  | MonthlyPerformance
  | OverallStatistics
  | AttendanceSummary
  | BufferSummary
  | VideoDuration.

(** What a page shows: its summary table, with the drill-down of the
    selected name on the two pages that have one, or the notice put in
    its place. *)
Inductive page :=
  | WeeklyTable (t : list Weekly.row)
  | MonthlyTable (t : list Monthly.row)
  | OverallTable (t : list Overall.row)
  | AttendancePage (t : list Attendance.row)
      (pie_data : list (string * Pd.number))
  | BufferTable (t : list Buffer.row)
  | VideoPage (t : list Video.summary) (emp_dur : Video.summary)
  | MissingColumns (missing : list string)       (* st.error, st.stop *)
  | BufferColumnsNotFound                        (* st.warning *)
  | VideoColumnsMissing                          (* st.error *)
  | UploadVideoFile                              (* st.info *)
  | NothingUploaded.

(** Lines 50-221: the page of the chosen report.  The attendance and the
    video page end with the drill-down of the name in the select box,
    whose row lookup raises when there is no such row. *)
Definition render (choice : menu) (employee_df : Emp.frame)
    (uploaded_video_file : option Video.frame) : result page :=
  match choice with
  | WeeklyPerformance => Ok (WeeklyTable (weekly_summary employee_df))
  | MonthlyPerformance => Ok (MonthlyTable (monthly_summary employee_df))
  | OverallStatistics => Ok (OverallTable (summary employee_df))
  | AttendanceSummary =>
      let attendance := attendance employee_df in
      let emp := selectbox (emp_options attendance) in
      pie_data ← pie_data attendance emp;
      Ok (AttendancePage attendance pie_data)
  | BufferSummary =>
      match buffer_summary employee_df with
      | Some t => Ok (BufferTable t)
      | None => Ok BufferColumnsNotFound
      end
  | VideoDuration =>
      match uploaded_video_file with
      | Some video_df =>
          if decide ("name"%string ∈ Video.columns video_df
                     ∧ "video_duration"%string ∈ Video.columns video_df)
          then
            video_summary ← video_summary video_df;
            let emp := selectbox (sme_options video_summary) in
            emp_dur ← emp_dur video_summary emp;
            Ok (VideoPage video_summary emp_dur)
          else Ok VideoColumnsMissing
      | None => Ok UploadVideoFile
      end
  end.

(** Lines 22-221: one run of the script. *)
Definition main (uploaded_employee_file : option Raw.frame)
    (uploaded_video_file : option Video.frame) (choice : menu) : result page :=
  match uploaded_employee_file with
  | Some raw =>
      match preprocess raw with
      | inl missing => Ok (MissingColumns missing)
      | inr employee_df => render choice employee_df uploaded_video_file
      end
  | None => Ok NothingUploaded
  end.

End script.

(** *** Sample uploads *)
Module Sample.
(** One entry of the employee table, in March. *)
Definition entry (name topic : string) (week work : Z) : Emp.row :=
  {| Emp.name := Some name;
     Emp.topic := Some topic;
     Emp.start_date := Some 0;
     Emp.end_date := None;
     Emp.work_days := Pd.Int64 work;
     Emp.leave_days := Pd.Int64 0;
     Emp.week_number := Some week;
     Emp.month := Some "March"%string;
     Emp.month_number := Some 3;
     Emp.other := ∅ |}.

Definition employee_columns : list string :=
  ["name"; "topic"; "start_date"; "end_date"; "work_days"; "leave_days";
   "week_number"; "month"; "month_number"]%string.

(** A stand-in for the date library, right for the first days of
    1970: an integer cell is a timestamp in nanoseconds and nothing
    else is a date; those days are in ISO week 1, in January. *)
Definition to_datetime (col : list value) (i : nat) : option Timestamp :=
  match col !! i with Some (PyInt n) => Some n | _ => None end.
Definition isocalendar_week (t : Timestamp) : Z := 1.
Definition month_name (t : Timestamp) : string := "January".
Definition month_of (t : Timestamp) : Z := 1.

(** A stand-in that settles, as the library does, on the format of the
    first cell: in a column that starts with an integer the integers are
    timestamps, in a column that starts with text only the text
    [1970-01-01] is a date. *)
Definition to_datetime_first_format (col : list value) (i : nat)
    : option Timestamp :=
  match head col, col !! i with
  | Some (PyInt _), Some (PyInt n) => Some n
  | Some (PyStr _), Some (PyStr s) =>
      if decide (s = "1970-01-01"%string) then Some 0 else None
  | _, _ => None
  end.

(** A select box left as it comes up: on its first option. *)
Definition selectbox (options : list string) : option string := head options.

Definition raw_columns : list string :=
  ["name"; "topic"; "start_date"; "end_date"; "work_days"; "leave_days"]
  %string.

Definition raw_entry (name topic : string) (start_date end_date : value)
    (work : Z) : Raw.row :=
  {| Raw.name := Some name;
     Raw.topic := Some topic;
     Raw.start_date := start_date;
     Raw.end_date := end_date;
     Raw.work_days := Pd.Int64 work;
     Raw.leave_days := Pd.Int64 0;
     Raw.other := ∅ |}.

(** One entry that books three work days. *)
Definition overbooked : Raw.frame :=
  {| Raw.columns := raw_columns;
     Raw.rows := [raw_entry "Dana" "Audit" (PyInt 0) (PyInt 1) 3] |}.


(** Two entries of one month whose work days do not fit an int64
    together. *)
Definition large_days : Raw.frame :=
  {| Raw.columns := raw_columns;
     Raw.rows := [raw_entry "Dana" "Audit" (PyInt 0) (PyInt 1) (2 ^ 63 - 1);
                  raw_entry "Dana" "Intro" (PyInt 5) (PyInt 9) (2 ^ 63 - 1)] |}.

(** A column of start dates that begins with text: the integer in its
    second cell is no date there. *)
Definition text_then_integer : Raw.frame :=
  {| Raw.columns := raw_columns;
     Raw.rows := [raw_entry "Dana" "Audit" (PyStr "1970-01-01") (PyInt 1) 1;
                  raw_entry "Eli" "Intro" (PyInt 5) PyNone 2] |}.

(** The same two entries, once with end dates and once with text in
    their place. *)
Definition with_end_dates : Raw.frame :=
  {| Raw.columns := raw_columns;
     Raw.rows := [raw_entry "Dana" "Audit" (PyInt 0) (PyInt 1) 1;
                  raw_entry "Eli" "Intro" (PyInt 5) (PyInt 9) 1] |}.
Definition with_bad_end_dates : Raw.frame :=
  {| Raw.columns := raw_columns;
     Raw.rows := [raw_entry "Dana" "Audit" (PyInt 0) (PyStr "soon") 1;
                  raw_entry "Eli" "Intro" (PyInt 5) PyNone 1] |}.

(** Bob's entry comes before Alice's. *)
Definition bob_then_alice : Emp.frame :=
  {| Emp.columns := employee_columns;
     Emp.rows := [entry "Bob" "Onboarding" 1 1;
                  entry "Alice" "Onboarding" 1 1] |}.

(** Bob's four topics in one week of March, next to two weeks of
    Alice. *)
Definition march : Emp.frame :=
  {| Emp.columns := employee_columns;
     Emp.rows :=
       ((λ topic, entry "Bob" topic 10 1)
        <$> ["Onboarding"; "Safety"; "Tooling"; "Review"]%string)
       ++ [entry "Alice" "Onboarding" 10 1; entry "Alice" "Safety" 11 1] |}.

(** Two entries of Alice, in two weeks, whose work days do not fit an
    int64 together. *)
Definition large_work_days : Emp.frame :=
  {| Emp.columns := employee_columns;
     Emp.rows := [entry "Alice" "Onboarding" 1 (2 ^ 63 - 1);
                  entry "Alice" "Safety" 2 (2 ^ 63 - 1)] |}.

(** An upload whose buffer columns are called [ppt_buffer],
    [lab_ppt_buffer], [illu_buffer] and [ae_buffer]. *)
Definition plain_buffer_names : Emp.frame :=
  {| Emp.columns :=
       employee_columns
       ++ ["ppt_buffer"; "lab_ppt_buffer"; "illu_buffer"; "ae_buffer"]
          %string;
     Emp.rows :=
       [ {| Emp.name := Some "Alice"%string;
            Emp.topic := Some "Onboarding"%string;
            Emp.start_date := Some 0;
            Emp.end_date := None;
            Emp.work_days := Pd.Int64 1;
            Emp.leave_days := Pd.Int64 0;
            Emp.week_number := Some 1;
            Emp.month := Some "January"%string;
            Emp.month_number := Some 1;
            Emp.other :=
              {[ "ppt_buffer"%string := Pd.Int64 2;
                 "lab_ppt_buffer"%string := Pd.Int64 1;
                 "illu_buffer"%string := Pd.Int64 4;
                 "ae_buffer"%string := Pd.Int64 0 ]} |} ]
  |}.

(** Entries with the four buffer columns; one of Alice's counts does not
    fit an int64 together with the other. *)
Definition buffer_entry (name : string) (ppt lab illu ae : Z) : Emp.row :=
  {| Emp.name := Some name;
     Emp.topic := Some "Onboarding"%string;
     Emp.start_date := Some 0;
     Emp.end_date := None;
     Emp.work_days := Pd.Int64 1;
     Emp.leave_days := Pd.Int64 0;
     Emp.week_number := Some 1;
     Emp.month := Some "January"%string;
     Emp.month_number := Some 1;
     Emp.other :=
       {[ "ppt's_buffer"%string := Pd.Int64 ppt;
          "lab_ppt's_buffer"%string := Pd.Int64 lab;
          "illu_buffer"%string := Pd.Int64 illu;
          "ae_buffer"%string := Pd.Int64 ae ]} |}.

Definition with_buffers : Emp.frame :=
  {| Emp.columns := employee_columns ++ buffer_cols;
     Emp.rows := [buffer_entry "Bob" 1 0 2 0;
                  buffer_entry "Alice" 2 1 0 0;
                  buffer_entry "Alice" (2 ^ 63 - 1) 0 0 1] |}.

(** Seven entries of one week, each on a topic of its own. *)
Definition seven_topics : Emp.frame :=
  {| Emp.columns := employee_columns;
     Emp.rows :=
       (λ topic, entry "Alice" topic 3 1)
       <$> ["Onboarding"; "Safety"; "Tooling"; "Review"; "Release";
            "Support"; "Audit"]%string |}.

(** Six entries of one week, all on the same topic. *)
Definition one_topic_six_times : Emp.frame :=
  {| Emp.columns := employee_columns;
     Emp.rows := replicate 6 (entry "Alice" "Onboarding" 3 1) |}.

(** Two segments of one SME. *)
Definition two_segments (sme : string) : Video.frame :=
  {| Video.columns := ["name"; "video_duration"]%string;
     Video.rows :=
       [ {| Video.name := Some sme; Video.video_duration := PyStr "1:00" |};
         {| Video.name := Some sme; Video.video_duration := PyStr "0:45" |} ]
  |}.

(** Three segments of one SME that come to an hour and a half. *)
Definition ninety_minutes : Video.frame :=
  {| Video.columns := ["name"; "video_duration"]%string;
     Video.rows :=
       (λ t, {| Video.name := Some "Carol"%string;
                Video.video_duration := PyStr t |})
       <$> ["89:48"; "0:06"; "0:06"]%string |}.
End Sample.
End App.

Import Py App.
Local Open Scope Z_scope.

(** * Properties *)

(** ** binary64: operations on non-negative operands *)
Section float_sign.
Variables prec emax : Z.

Lemma shr_1_nonneg mrs : 0 ≤ shr_m mrs → 0 ≤ shr_m (shr_1 mrs).
Proof.
  destruct mrs as [m r s]; simpl.
  destruct m as [|[p|p|]|[p|p|]]; simpl; lia.
Qed.

Lemma iter_shr_1_nonneg p mrs :
  0 ≤ shr_m mrs → 0 ≤ shr_m (SpecFloat.iter_pos shr_1 p mrs).
Proof.
  revert mrs. induction p as [p IH|p IH|]; intros mrs Hm; simpl.
  - apply IH, IH, shr_1_nonneg, Hm.
  - apply IH, IH, Hm.
  - apply shr_1_nonneg, Hm.
Qed.

Lemma shr_fexp_nonneg m e l :
  0 ≤ m → 0 ≤ shr_m (shr_fexp prec emax m e l).1.
Proof.
  intros Hm. unfold shr_fexp, shr.
  assert (0 ≤ shr_m (shr_record_of_loc m l)) as Hrec
    by (destruct l as [|[]]; exact Hm).
  destruct (fexp prec emax (Zdigits2 m + e) - e); simpl; try exact Hrec.
  by apply iter_shr_1_nonneg.
Qed.

Lemma round_nearest_even_nonneg m l : 0 ≤ m → 0 ≤ round_nearest_even m l.
Proof.
  intros Hm. destruct l as [|[]]; simpl; try lia.
  destruct (Z.even m); lia.
Qed.

Lemma binary_round_aux_sign sx mx ex lx :
  0 ≤ mx → has_sign sx (binary_round_aux prec emax sx mx ex lx).
Proof.
  intros Hm. unfold binary_round_aux.
  pose proof (shr_fexp_nonneg mx ex lx Hm) as H1.
  destruct (shr_fexp prec emax mx ex lx) as [mrs' e']; simpl in H1.
  pose proof (shr_fexp_nonneg _ e' loc_Exact
    (round_nearest_even_nonneg _ (loc_of_shr_record mrs') H1)) as H2.
  destruct (shr_fexp prec emax _ e' loc_Exact) as [mrs'' e'']; simpl in H2.
  destruct (shr_m mrs'') as [|m|m]; simpl; [done| |lia].
  by destruct (e'' <=? emax - prec).
Qed.

Lemma binary_normalize_sign m e :
  0 ≤ m → has_sign false (binary_normalize prec emax m e false).
Proof.
  intros Hm. destruct m as [|m|m]; simpl; [done| |lia].
  unfold binary_round. destruct (shl_align _ _ _) as [mz ez].
  by apply binary_round_aux_sign.
Qed.

Lemma SFdiv_sign a b :
  0 ≤ a → 0 < b →
  has_sign false (SFdiv prec emax (exact_int a) (exact_int b)).
Proof.
  intros Ha Hb. destruct a as [|a|a], b as [|b|b]; try lia; simpl; [done|].
  unfold SFdiv_core_binary.
  set (m' := match _ with Z0 => Z.pos a | Z.pos _ => _ | Z.neg _ => 0 end).
  assert (0 ≤ m') as Hm'.
  { subst m'. destruct (_ - _ - _) eqn:E; [lia| |lia].
    apply Z.shiftl_nonneg. lia. }
  pose proof (Z.div_pos m' (Z.pos b) Hm' ltac:(lia)) as Hq.
  unfold Z.div in Hq. destruct (Z.div_eucl m' (Z.pos b)) as [q r].
  by apply binary_round_aux_sign.
Qed.

Lemma SFadd_sign x y :
  has_sign false x → has_sign false y →
  has_sign false (SFadd prec emax x y).
Proof.
  destruct x as [sx|sx| |sx mx ex], y as [sy|sy| |sy my ey];
    simpl; try done; intros -> ->; try done.
  apply binary_normalize_sign. simpl. lia.
Qed.
End float_sign.

Lemma has_sign_ge0 f : has_sign false f → ge0 (PyFloat f) = true.
Proof. destruct f as [s|s| |s m e]; simpl; try done; by intros ->. Qed.

(** ** pandas: sums of numeric columns *)
Section int64_facts.
Implicit Types (a b z : Z) (zs : list Z) (col : list Pd.number).

Lemma wrap_range a : Pd.in_int64 (Pd.wrap a).
Proof.
  unfold Pd.in_int64, Pd.wrap.
  pose proof (Z.mod_pos_bound (a + 2 ^ 63) (2 ^ 64) ltac:(lia)). lia.
Qed.

(** Within the range nothing wraps. *)
Lemma wrap_in_range a : Pd.in_int64 a → Pd.wrap a = a.
Proof.
  unfold Pd.in_int64, Pd.wrap. intros Ha. rewrite Z.mod_small by lia. lia.
Qed.

Lemma wrap_add_l a b : Pd.wrap (Pd.wrap a + b) = Pd.wrap (a + b).
Proof. unfold Pd.wrap. Z.div_mod_to_equations. lia. Qed.

Lemma wrap_add_r a b : Pd.wrap (a + Pd.wrap b) = Pd.wrap (a + b).
Proof. unfold Pd.wrap. Z.div_mod_to_equations. lia. Qed.

(** On int64 the compensation of a step is 0. *)
Lemma wrap_compensation a b :
  Pd.wrap (Pd.wrap (Pd.wrap (a + Pd.wrap (b - 0)) - a) - Pd.wrap (b - 0)) = 0.
Proof. unfold Pd.wrap. Z.div_mod_to_equations. lia. Qed.

(** The int64 sum is the sum of the integers, wrapped once. *)
Lemma isum_wrap zs : Pd.isum zs = Pd.wrap (foldr Z.add 0 zs).
Proof.
  unfold Pd.isum, Pd.group_sum.
  assert (filter (λ val : Z, false = false) zs = zs) as ->.
  { induction zs as [|z zs IH]; [done|].
    by rewrite filter_cons, decide_True, IH. }
  assert (∀ s, foldl (Pd.kahan_step 0 (λ a b, Pd.wrap (a + b))
                        (λ a b, Pd.wrap (a - b)) (λ _, false))
                 (Pd.wrap s, 0) zs
               = (Pd.wrap (s + foldr Z.add 0 zs), 0)) as Hfold.
  { induction zs as [|z zs IH]; intros s; simpl.
    - by rewrite Z.add_0_r.
    - rewrite wrap_compensation.
      replace (Pd.wrap (Pd.wrap s + Pd.wrap (z - 0))) with (Pd.wrap (s + z)).
      + rewrite IH. do 2 f_equal. lia.
      + rewrite wrap_add_l, wrap_add_r. f_equal. lia. }
  change (0, 0) with (Pd.wrap 0, 0). by rewrite Hfold.
Qed.

(** The sum of an int64 column. *)
Lemma sum_int64 col :
  Forall Pd.is_int64 col →
  Pd.sum col = Pd.Int64 (Pd.wrap (foldr Z.add 0 (Pd.int_of <$> col))).
Proof.
  intros Hcol. unfold Pd.sum. by rewrite decide_True, isum_wrap.
Qed.

(** The sum of a float64 column. *)
Lemma sum_float64 col :
  ¬ Forall Pd.is_int64 col →
  Pd.sum col = Pd.Float64 (Pd.fsum (Pd.astype_float64 <$> col)).
Proof. intros Hcol. unfold Pd.sum. by rewrite decide_False. Qed.

Lemma is_int64_Int64 zs : Forall Pd.is_int64 (Pd.Int64 <$> zs).
Proof. by apply Forall_fmap, Forall_true. Qed.

Lemma is_int64_int_of x : Pd.is_int64 x → Pd.Int64 (Pd.int_of x) = x.
Proof. by destruct x. Qed.

(** Wrapping the terms of a sum does not change the wrapped sum. *)
Lemma wrap_sum_wrap zs :
  Pd.wrap (foldr Z.add 0 (Pd.wrap <$> zs)) = Pd.wrap (foldr Z.add 0 zs).
Proof.
  induction zs as [|z zs IH]; [done|]. rewrite fmap_cons. cbn [foldr].
  rewrite wrap_add_l, <-wrap_add_r, IH. apply wrap_add_r.
Qed.
End int64_facts.

(** ** [int()]: what a literal is made of *)

Section int_facts.
Implicit Types (s : string) (c : ascii).

Lemma skip_spaces_chars s c :
  c ∈ chars s → is_space c = true ∨ c ∈ chars (skip_spaces s).
Proof.
  induction s as [|c' s IH]; simpl; [by right|].
  destruct (is_space c') eqn:Hsp; [|by right].
  intros [->|Hin]%elem_of_cons; [by left|by apply IH].
Qed.

Lemma skip_spaces_empty s c :
  skip_spaces s = EmptyString → c ∈ chars s → is_space c = true.
Proof.
  induction s as [|c' s IH]; simpl; [by intros _ ?%elem_of_nil|].
  destruct (is_space c') eqn:Hsp; [|done].
  intros Hs [->|Hin]%elem_of_cons; [done|by apply IH].
Qed.

Lemma scan_digits_chars s prev acc n v k rest c :
  scan_digits s prev acc n = Some (v, k, rest) → c ∈ chars s →
  c = "_"%char ∨ is_Some (digit_value c) ∨ c ∈ chars rest.
Proof.
  revert prev acc n. induction s as [|c' s IH]; intros prev acc n; simpl.
  { by intros _ ?%elem_of_nil. }
  destruct (decide (c' = "_"%char)) as [->|Hc'].
  - destruct prev; [done|]. intros Hscan [->|Hin]%elem_of_cons; [by left|].
    by eapply IH.
  - destruct (digit_value c') as [d|] eqn:Hd.
    + intros Hscan [->|Hin]%elem_of_cons; [right; left; by rewrite Hd|].
      by eapply IH.
    + destruct prev; [done|]. intros [= _ _ <-] Hin. by right; right.
Qed.

Lemma strip_sign_chars s c :
  c ∈ chars s →
  c = "+"%char ∨ c = "-"%char ∨ c ∈ chars (strip_sign s).2.
Proof.
  destruct s as [|c' s]; simpl; [by intros ?%elem_of_nil|].
  repeat case_decide; simpl; subst;
    intros Hin; try (by right; right);
    apply elem_of_cons in Hin as [->|Hin]; auto.
Qed.

(** A string that [int()] accepts has nothing but blanks, digits,
    underscores and signs in it. *)
Lemma int_Ok_chars max s n c :
  int max s = Ok n → c ∈ chars s → numeral_char c = true.
Proof.
  unfold int, numeral_char. intros Hint Hin.
  apply skip_spaces_chars in Hin as [->|Hin]; [done|].
  apply strip_sign_chars in Hin as [->|[->|Hin]];
    [by rewrite !orb_true_r|by rewrite !orb_true_r|].
  destruct (strip_sign (skip_spaces s)) as [neg s2]; simpl in Hin.
  destruct (starts_with_underscore s2); [done|].
  destruct (scan_digits s2 false 0 0) as [[[v k] rest]|] eqn:Hscan; [|done].
  case_decide; [done|].
  destruct (skip_spaces rest) eqn:Hrest; [|done].
  destruct (too_many_digits max k); [done|].
  eapply scan_digits_chars in Hscan as [->|[Hd|Hr]]; [| |..|exact Hin].
  - by rewrite !orb_true_r.
  - rewrite (bool_decide_eq_true_2 _ Hd). by rewrite orb_true_r.
  - by rewrite (skip_spaces_empty _ _ Hrest Hr).
Qed.

(** The empty string is no literal. *)
Lemma int_empty max : int max EmptyString = Raise ValueError.
Proof. reflexivity. Qed.
End int_facts.

(** ** The duration parser *)
Section time_to_minutes_facts.
Variable max_str_digits : nat.
Implicit Types (t v : value) (s p : string).

Local Ltac run_parser :=
  unfold time_to_minutes, try_except, mbind, result_bind, bind,
    int_add_float, mbind, result_bind, bind;
  repeat (case_match; simplify_eq/=); eauto.

(** The parser returns, and what it returns is the integer 0 or a float. *)
Lemma time_to_minutes_returns t :
  ∃ v, time_to_minutes max_str_digits t = Ok v
       ∧ (v = PyInt 0 ∨ ∃ f, v = PyFloat f).
Proof. run_parser. Qed.

Lemma time_to_minutes_not_str t :
  (∀ s, t ≠ PyStr s) → time_to_minutes max_str_digits t = Ok (PyInt 0).
Proof. intros Hs. destruct t; try done. by destruct (Hs s). Qed.

Lemma time_to_minutes_shape s :
  length (split ":" s) ≠ 2%nat → length (split ":" s) ≠ 3%nat →
  time_to_minutes max_str_digits (PyStr s) = Ok (PyInt 0).
Proof.
  unfold time_to_minutes.
  destruct (split ":" s) as [|p0 [|p1 [|p2 [|p3 ps]]]]; simpl; done.
Qed.

Lemma time_to_minutes_bad_part s p :
  p ∈ split ":" s → (∀ n, int max_str_digits p ≠ Ok n) →
  time_to_minutes max_str_digits (PyStr s) = Ok (PyInt 0).
Proof.
  intros Hin Hbad. unfold time_to_minutes.
  destruct (split ":" s) as [|p0 [|p1 [|p2 [|p3 ps]]]]; simpl; try done.
  - apply elem_of_cons in Hin as [->|Hin];
      [|apply list_elem_of_singleton in Hin as ->].
    all: unfold try_except, mbind, result_bind, bind.
    all: repeat (case_match; simplify_eq/=); try done.
    all: by edestruct Hbad.
  - apply elem_of_cons in Hin as [->|Hin];
      [|apply elem_of_cons in Hin as [->|Hin];
        [|apply list_elem_of_singleton in Hin as ->]].
    all: unfold try_except, mbind, result_bind, bind.
    all: repeat (case_match; simplify_eq/=); try done.
    all: by edestruct Hbad.
Qed.

Lemma float_of_int_sign n x :
  0 ≤ n → float_of_int n = Ok x → has_sign false x.
Proof.
  unfold float_of_int. intros Hn. case_match; [done|]. intros [= <-].
  by apply binary_normalize_sign.
Qed.

Lemma int_truediv_sign a b q :
  0 ≤ a → 0 < b → int_truediv a b = Ok q → has_sign false q.
Proof.
  unfold int_truediv. intros Ha Hb. case_decide; [done|].
  case_match; [done|]. intros [= <-]. by apply SFdiv_sign.
Qed.

(** A float comes back only from two or three parts that all parse; it
    is the sum of the converted leading integer and the last part
    divided by 60. *)
Lemma time_to_minutes_float s f :
  time_to_minutes max_str_digits (PyStr s) = Ok (PyFloat f) →
  ∃ whole last x q,
    float_of_int whole = Ok x ∧ int_truediv last 60 = Ok q
    ∧ f = fadd x q
    ∧ ((∃ p0 p1, split ":" s = [p0; p1]
          ∧ int max_str_digits p0 = Ok whole
          ∧ int max_str_digits p1 = Ok last)
       ∨ (∃ p0 p1 p2 a b, split ":" s = [p0; p1; p2]
            ∧ int max_str_digits p0 = Ok a
            ∧ int max_str_digits p1 = Ok b
            ∧ int max_str_digits p2 = Ok last
            ∧ whole = a * 60 + b)).
Proof.
  unfold time_to_minutes.
  destruct (split ":" s) as [|p0 [|p1 [|p2 [|p3 ps]]]]; simpl; try done.
  - unfold try_except, mbind, result_bind, bind, int_add_float,
      mbind, result_bind, bind.
    repeat (case_match; simplify_eq/=); intros; simplify_eq.
    do 4 eexists. split_and!; [done..|]. left. by do 2 eexists.
  - unfold try_except, mbind, result_bind, bind, int_add_float,
      mbind, result_bind, bind.
    repeat (case_match; simplify_eq/=); intros; simplify_eq.
    do 4 eexists. split_and!; [done..|]. right. by do 5 eexists.
Qed.

(** With no negative part the result is not negative. *)
Lemma time_to_minutes_ge0 t v :
  (∀ s p n, t = PyStr s → p ∈ split ":" s →
            int max_str_digits p = Ok n → 0 ≤ n) →
  time_to_minutes max_str_digits t = Ok v → ge0 v = true.
Proof.
  intros Hparts Hv.
  destruct (time_to_minutes_returns t) as (v' & Hv' & [->|[f ->]]);
    rewrite Hv in Hv'; simplify_eq; [done|].
  destruct t as [| | |s]; try done.
  apply time_to_minutes_float in Hv
    as (whole & last & x & q & Hx & Hq & -> & Hshape).
  apply has_sign_ge0, SFadd_sign.
  - apply (float_of_int_sign whole x); [|done].
    destruct Hshape as [(p0 & p1 & Hs & H0 & H1)
                       |(p0 & p1 & p2 & a & b & Hs & H0 & H1 & H2 & ->)].
    + eapply (Hparts s p0); [done| |done]. rewrite Hs. set_solver.
    + assert (0 ≤ a) by (eapply (Hparts s p0); [done| |done];
                         rewrite Hs; set_solver).
      assert (0 ≤ b) by (eapply (Hparts s p1); [done| |done];
                         rewrite Hs; set_solver).
      lia.
  - apply (int_truediv_sign last 60 q); [|lia|done].
    destruct Hshape as [(p0 & p1 & Hs & H0 & H1)
                       |(p0 & p1 & p2 & a & b & Hs & H0 & H1 & H2 & ->)].
    + eapply (Hparts s p1); [done| |done]. rewrite Hs. set_solver.
    + eapply (Hparts s p2); [done| |done]. rewrite Hs. set_solver.
Qed.

Lemma well_formed_duration_dec t :
  well_formed_duration max_str_digits t
  ∨ (∀ s, t ≠ PyStr s)
  ∨ (∃ s, t = PyStr s ∧ length (split ":" s) ≠ 2%nat
                      ∧ length (split ":" s) ≠ 3%nat)
  ∨ (∃ s p, t = PyStr s ∧ p ∈ split ":" s
            ∧ ∀ n, int max_str_digits p ≠ Ok n).
Proof.
  destruct t as [| | |s]; try by (right; left).
  destruct (decide (length (split ":" s) = 2%nat ∨ length (split ":" s) = 3%nat))
    as [Hlen|Hlen]; [|right; right; left; exists s; split_and!; [done|lia..]].
  assert (Forall (λ p, ∃ n, int max_str_digits p = Ok n) (split ":" s)
          ∨ Exists (λ p, ∀ n, int max_str_digits p ≠ Ok n) (split ":" s))
    as [Hall|Hex].
  { clear Hlen. induction (split ":" s) as [|p ps IH]; [by left|].
    destruct (int max_str_digits p) as [n|e] eqn:Hp.
    - destruct IH as [IH|IH]; [left|right]; [|by apply Exists_cons_tl].
      constructor; eauto.
    - right. apply Exists_cons_hd. intros n. by rewrite Hp. }
  - left. exists s. split_and!; [done..|]. by apply Forall_forall.
  - right; right; right. apply Exists_exists in Hex as (p & Hin & Hp).
    by exists s, p.
Qed.

Lemma time_to_minutes_ill_formed t :
  ¬ well_formed_duration max_str_digits t →
  time_to_minutes max_str_digits t = Ok (PyInt 0).
Proof.
  intros Hnwf.
  destruct (well_formed_duration_dec t)
    as [?|[Hns|[(s & -> & ? & ?)|(s & p & -> & ? & ?)]]]; [done|..].
  - by apply time_to_minutes_not_str.
  - by apply time_to_minutes_shape.
  - by eapply time_to_minutes_bad_part.
Qed.
End time_to_minutes_facts.

(** The parser on the durations of the specification's examples: 1.5,
    90.0, and 0 for text and for a missing cell. *)
Example time_to_minutes_1_30 max :
  time_to_minutes max (PyStr "1:30") = Ok (PyFloat (dyadic 3 (-1))).
Proof. by vm_compute. Qed.

Example time_to_minutes_1_30_00 max :
  time_to_minutes max (PyStr "1:30:00") = Ok (PyFloat (dyadic 90 0)).
Proof. by vm_compute. Qed.

Example time_to_minutes_bad max :
  time_to_minutes max (PyStr "bad") = Ok (PyInt 0).
Proof. by vm_compute. Qed.

Example time_to_minutes_None max : time_to_minutes max PyNone = Ok (PyInt 0).
Proof. reflexivity. Qed.

(** A number too large for a float is caught as well. *)
Example time_to_minutes_overflow max :
  time_to_minutes max (PyStr ("1" +:+ String.string_of_list_ascii
                                        (replicate 400 "0"%char) +:+ ":00"))
  = Ok (PyInt 0).
Proof. by vm_compute. Qed.

(** C7.  The duration parser is total: on every input it returns a number
    and raises nothing.  An input that is not a string, a string that does
    not split at the colons into exactly two or three parts, and a string
    with a part that [int()] does not accept (among them every part with a
    character that is no digit, sign, underscore or blank) all give the
    integer 0. *)
Theorem time_to_minutes_total (max_str_digits : nat) (t : value) :
  ∃ v, time_to_minutes max_str_digits t = Ok v
    ∧ is_number v = true
    ∧ ((∀ s, t ≠ PyStr s) → v = PyInt 0)
    ∧ (∀ s, t = PyStr s →
         length (split ":" s) ≠ 2%nat → length (split ":" s) ≠ 3%nat →
         v = PyInt 0)
    ∧ (∀ s p, t = PyStr s → p ∈ split ":" s →
         (∀ n, int max_str_digits p ≠ Ok n) → v = PyInt 0)
    ∧ (∀ s p c, t = PyStr s → p ∈ split ":" s →
         c ∈ chars p → numeral_char c = false → v = PyInt 0).
Proof.
  destruct (time_to_minutes_returns max_str_digits t) as (v & Hv & Hnum).
  exists v. split_and!; [done|by destruct Hnum as [->|[f ->]]|..].
  - intros Hns. rewrite time_to_minutes_not_str in Hv by done. congruence.
  - intros s -> H2 H3. rewrite time_to_minutes_shape in Hv by done. congruence.
  - intros s p -> Hin Hbad.
    rewrite (time_to_minutes_bad_part _ s p) in Hv by done. congruence.
  - intros s p c -> Hin Hc Hnc.
    rewrite (time_to_minutes_bad_part _ s p) in Hv; [congruence|done|].
    intros n Hn. apply (int_Ok_chars _ _ _ c) in Hn; [congruence|done].
Qed.

(** C5, as the code has it.  The parser returns a number on every raw
    value, and the integer 0 on everything that is not a well-formed
    duration; the number is at least 0 whenever no part of the string
    parses to a negative integer.  (A part with a minus sign can give a
    negative duration.) *)
Theorem total_minutes_sign (max_str_digits : nat) (t : value) :
  ∃ v, time_to_minutes max_str_digits t = Ok v
    ∧ is_number v = true
    ∧ (¬ well_formed_duration max_str_digits t → v = PyInt 0)
    ∧ ((∀ s p n, t = PyStr s → p ∈ split ":" s →
                 int max_str_digits p = Ok n → 0 ≤ n) →
       ge0 v = true ∧ ge0 (PyFloat (as_float64 v)) = true).
Proof.
  destruct (time_to_minutes_returns max_str_digits t) as (v & Hv & Hnum).
  exists v. split_and!; [done|by destruct Hnum as [->|[f ->]]|..].
  - intros Hnwf. rewrite time_to_minutes_ill_formed in Hv by done. congruence.
  - intros Hparts.
    pose proof (time_to_minutes_ge0 _ _ _ Hparts Hv) as Hge.
    split; [done|]. by destruct Hnum as [->|[f ->]].
Qed.

(** C5, as stated, fails: the duration "-5:00" is -5.0 minutes. *)
Lemma total_minutes_negative :
  ∃ v, time_to_minutes 4300 (PyStr "-5:00") = Ok v
       ∧ lt0 v = true ∧ ge0 v = false
       ∧ ge0 (PyFloat (as_float64 v)) = false.
Proof. eexists. split; [vm_compute; reflexivity|]. by vm_compute. Qed.

(** ** pandas: [unique], the key order and [groupby] *)
Section unique_facts.
Context `{EqDecision A}.
Implicit Types (x : A) (l : list A).

Lemma elem_of_unique l x : x ∈ Pd.unique l ↔ x ∈ l.
Proof.
  induction l as [|y l IH]; simpl; [done|].
  rewrite !elem_of_cons, list_elem_of_filter, IH.
  destruct (decide (x = y)); tauto.
Qed.

Lemma NoDup_unique l : NoDup (Pd.unique l).
Proof.
  induction l as [|y l IH]; simpl; constructor.
  - rewrite list_elem_of_filter. by intros [? _].
  - by apply NoDup_filter.
Qed.

(** A column with one value all over has one distinct value. *)
Lemma unique_constant l x :
  l ≠ [] → Forall (λ y, y = x) l → Pd.unique l = [x].
Proof.
  induction l as [|y l IH]; [done|]. intros _ Hall.
  apply Forall_cons in Hall as [-> Hall]. simpl. f_equal.
  destruct l as [|z l]; [done|].
  rewrite IH by done. rewrite filter_cons, decide_False by naive_solver.
  by rewrite filter_nil.
Qed.
End unique_facts.

Section lex_le_facts.
Context {A B : Type} `{EqDecision A} (leA : relation A) (leB : relation B).

#[global] Instance lex_le_total `{!Total leA, !Total leB} :
  Total (Pd.lex_le leA leB).
Proof.
  intros [a1 b1] [a2 b2]. unfold Pd.lex_le; simpl.
  destruct (decide (a1 = a2)) as [->|Hne].
  - rewrite decide_True by done. apply (total leB).
  - rewrite decide_False by done. apply (total leA).
Qed.

#[global] Instance lex_le_trans `{!PartialOrder leA, !Transitive leB} :
  Transitive (Pd.lex_le leA leB).
Proof.
  intros [a1 b1] [a2 b2] [a3 b3]. unfold Pd.lex_le; simpl.
  destruct (decide (a1 = a2)) as [->|H12], (decide (a2 = a3)) as [->|H23];
    try (rewrite decide_True by done); try (rewrite decide_False by done);
    try done; intros Hle12 Hle23.
  - by etrans.
  - destruct (decide (a1 = a3)) as [->|H13]; [|by etrans].
    destruct H12. by apply (anti_symm leA).
Qed.

#[global] Instance lex_le_antisym
    `{!AntiSymm (=) leA, !AntiSymm (=) leB} :
  AntiSymm (=) (Pd.lex_le leA leB).
Proof.
  intros [a1 b1] [a2 b2]. unfold Pd.lex_le; simpl.
  destruct (decide (a1 = a2)) as [->|Hne].
  - rewrite decide_True by done. intros H12 H21.
    f_equal. by apply (anti_symm leB).
  - rewrite decide_False by done. intros H12 H21.
    destruct Hne. by apply (anti_symm leA).
Qed.
End lex_le_facts.

Section strict_facts.
Context {A : Type} (le : relation A).

(** Sorted and free of duplicates is strictly sorted. *)
Lemma StronglySorted_strict (l : list A) :
  StronglySorted le l → NoDup l → StronglySorted (Pd.strict_of le) l.
Proof.
  induction 1 as [|x l Hs IH Hall]; intros Hnd; constructor.
  - apply IH. by apply NoDup_cons in Hnd as [_ ?].
  - apply NoDup_cons in Hnd as [Hx _].
    apply Forall_forall. intros y Hy. split.
    + by eapply Forall_forall in Hall.
    + by intros ->.
Qed.
End strict_facts.

Section groupby_facts.
Context {R K : Type} `{EqDecision K} (le : relation K) `{!RelDecision le}.
Variable key : R → option K.
Implicit Types (rows g : list R) (k : K).

Lemma group_keys_Permutation rows :
  Pd.group_keys le key rows ≡ₚ Pd.unique (omap key rows).
Proof. apply merge_sort_Permutation. Qed.

Lemma elem_of_group_keys rows k :
  k ∈ Pd.group_keys le key rows ↔ ∃ r, r ∈ rows ∧ key r = Some k.
Proof.
  rewrite group_keys_Permutation, elem_of_unique. apply list_elem_of_omap.
Qed.

Lemma NoDup_group_keys rows : NoDup (Pd.group_keys le key rows).
Proof. rewrite group_keys_Permutation. apply NoDup_unique. Qed.

(** The keys come out in strictly ascending order. *)
Lemma group_keys_sorted `{!Transitive le, !Total le} rows :
  StronglySorted (Pd.strict_of le) (Pd.group_keys le key rows).
Proof.
  apply StronglySorted_strict; [|apply NoDup_group_keys].
  by apply StronglySorted_merge_sort.
Qed.

Lemma groupby_keys rows :
  (Pd.groupby le key rows).*1 = Pd.group_keys le key rows.
Proof.
  unfold Pd.groupby. rewrite <-list_fmap_compose.
  by rewrite <-(list_fmap_id (Pd.group_keys le key rows)) at 2.
Qed.

Lemma elem_of_groupby rows k g :
  (k, g) ∈ Pd.groupby le key rows ↔
  (∃ r, r ∈ rows ∧ key r = Some k) ∧ g = Pd.group key k rows.
Proof.
  unfold Pd.groupby. rewrite list_elem_of_fmap, <-elem_of_group_keys.
  split.
  - by intros (k' & [= -> ->] & Hk).
  - intros [Hk ->]. by exists k.
Qed.

(** Two tables whose rows agree on the key columns have the same groups,
    row for row. *)
Lemma groupby_Forall2 (E : relation R) rows rows' :
  (∀ r r', E r r' → key r = key r') →
  Forall2 E rows rows' →
  Forall2 (λ kg kg', kg.1 = kg'.1 ∧ Forall2 E kg.2 kg'.2)
    (Pd.groupby le key rows) (Pd.groupby le key rows').
Proof.
  intros Hkey Hrows. unfold Pd.groupby, Pd.group_keys.
  assert (omap key rows = omap key rows') as <-.
  { induction Hrows as [|r r' rows rows' Hr _ IH]; [done|].
    simpl. rewrite (Hkey r r' Hr). destruct (key r'); simpl;
      [f_equal|]; exact IH. }
  apply Forall2_fmap, Forall_Forall2_diag, Forall_forall.
  intros k _. simpl. split; [done|]. unfold Pd.group.
  induction Hrows as [|r r' rows rows' Hr _ IH]; [constructor|].
  rewrite !filter_cons, <-(Hkey r r' Hr).
  destruct (decide (key r = Some k)); [by constructor|done].
Qed.

(** A group is never empty. *)
Lemma group_nonempty rows k :
  (∃ r, r ∈ rows ∧ key r = Some k) → Pd.group key k rows ≠ [].
Proof.
  intros (r & Hr & Hk) Hnil.
  assert (r ∈ Pd.group key k rows) as Hin
    by (by apply list_elem_of_filter).
  rewrite Hnil in Hin. by apply elem_of_nil in Hin.
Qed.

(** A table whose rows all carry the key [k] is one group. *)
Lemma groupby_single rows k :
  rows ≠ [] → Forall (λ r, key r = Some k) rows →
  Pd.groupby le key rows = [(k, rows)].
Proof.
  intros Hne Hall. unfold Pd.groupby, Pd.group_keys, Pd.group.
  assert (Forall (λ y, y = k) (omap key rows)) as Hk.
  { apply Forall_forall. intros y (r & Hr & Hy)%list_elem_of_omap.
    rewrite Forall_forall in Hall. specialize (Hall r Hr). congruence. }
  assert (omap key rows ≠ []) as Hne'.
  { destruct rows as [|r rows]; [done|].
    apply Forall_cons in Hall as [Hr _]. simpl. by rewrite Hr. }
  rewrite (unique_constant _ k Hne' Hk). simpl.
  apply (f_equal (λ g, [(k, g)])). clear Hk Hne' Hne.
  induction Hall as [|r rows Hr Hall IH]; [done|].
  rewrite filter_cons, decide_True by done.
  destruct rows as [|r' rows]; [done|]. f_equal. by apply IH.
Qed.
End groupby_facts.

(** ** The key orders of the reports *)
Section key_orders.
#[global] Instance name_week_le_trans : Transitive name_week_le.
Proof. unfold name_week_le. apply _. Qed.
#[global] Instance name_week_le_total : Total name_week_le.
Proof. unfold name_week_le. apply _. Qed.

#[global] Instance name_month_le_trans : Transitive name_month_le.
Proof. unfold name_month_le. apply _. Qed.
#[global] Instance name_month_le_total : Total name_month_le.
Proof. unfold name_month_le. apply _. Qed.
#[global] Instance name_month_le_antisym : AntiSymm (=) name_month_le.
Proof. unfold name_month_le. apply _. Qed.

#[global] Instance name_month_number_le_trans :
  Transitive name_month_number_le.
Proof.
  unfold name_month_number_le.
  apply lex_le_trans; [|apply _].
  split; [split|]; [|apply _..].
  intros [a b]. unfold Pd.lex_le. by rewrite decide_True.
Qed.
#[global] Instance name_month_number_le_total : Total name_month_number_le.
Proof. unfold name_month_number_le. apply _. Qed.
End key_orders.

(** ** The key column of each summary table *)
Section summary_keys.
Variable df : Emp.frame.

Lemma weekly_summary_keys :
  Weekly.key <$> weekly_summary df
  = Pd.group_keys name_week_le name_week (Emp.rows df).
Proof.
  unfold weekly_summary. rewrite <-list_fmap_compose, <-groupby_keys.
  apply list_fmap_ext. by intros i [[n w] g] _.
Qed.

Lemma monthly_summary_keys :
  Monthly.key <$> monthly_summary df
  = Pd.group_keys name_month_number_le name_month_number (Emp.rows df).
Proof.
  unfold monthly_summary. rewrite <-list_fmap_compose, <-groupby_keys.
  apply list_fmap_ext. by intros i [[[n m] k] g] _.
Qed.

Lemma summary_keys :
  Overall.name <$> summary df = Pd.group_keys String.le Emp.name (Emp.rows df).
Proof.
  unfold summary. rewrite <-list_fmap_compose, <-groupby_keys.
  apply list_fmap_ext. by intros i [n g] _.
Qed.

Lemma attendance_keys :
  Attendance.key <$> attendance df
  = Pd.group_keys name_month_le name_month (Emp.rows df).
Proof.
  unfold attendance. rewrite <-list_fmap_compose, <-groupby_keys.
  apply list_fmap_ext. by intros i [[n m] g] _.
Qed.

Lemma buffer_summary_keys t :
  buffer_summary df = Some t →
  Buffer.name <$> t = Pd.group_keys String.le Emp.name (Emp.rows df).
Proof.
  unfold buffer_summary. case_decide; [|done]. intros [= <-].
  rewrite <-list_fmap_compose, <-groupby_keys.
  apply list_fmap_ext. by intros i [n g] _.
Qed.
End summary_keys.

(** ** The video summary *)
Section video_facts.
Variable max_str_digits : nat.

Lemma apply_length {A B} (f : A → result B) col ys :
  Pd.apply f col = Ok ys → length ys = length col.
Proof.
  revert ys. induction col as [|x col IH]; intros ys; simpl.
  { by intros [= <-]. }
  unfold mbind, result_bind, bind.
  destruct (f x) as [y|]; [|done].
  destruct (Pd.apply f col) as [ys'|]; [|done].
  intros [= <-]. simpl. f_equal. by apply IH.
Qed.

(** [apply] goes through when the function returns on every cell. *)
Lemma apply_returns {A B} (f : A → result B) col :
  (∀ x, ∃ y, f x = Ok y) → ∃ ys, Pd.apply f col = Ok ys.
Proof.
  intros Hf. induction col as [|x col [ys IH]]; simpl; [by eexists|].
  destruct (Hf x) as [y Hy]. unfold mbind, result_bind, bind.
  rewrite Hy, IH. by eexists.
Qed.

Lemma omap_fst_zip {A B} (l : list (option A)) (k : list B) :
  length l = length k → omap fst (zip l k) = omap id l.
Proof.
  revert k. induction l as [|x l IH]; intros [|y k]; simpl; try done.
  intros [= Hlen]. specialize (IH k Hlen).
  destruct x; simpl; [f_equal|]; exact IH.
Qed.

Lemma omap_id_fmap {A B} (f : A → option B) (l : list A) :
  omap id (f <$> l) = omap f l.
Proof.
  induction l as [|x l IH]; simpl; [done|].
  destruct (f x); simpl; [f_equal|]; exact IH.
Qed.

(** The video summary is always built; its names are the group keys. *)
Lemma video_summary_keys video_df :
  ∃ t, video_summary max_str_digits video_df = Ok t
       ∧ Video.s_name <$> t
         = Pd.group_keys String.le Video.name (Video.rows video_df).
Proof.
  unfold video_summary.
  destruct (apply_returns (time_to_minutes max_str_digits)
              (Video.video_duration <$> Video.rows video_df)) as [ms Hms].
  { intros t. destruct (time_to_minutes_returns max_str_digits t)
      as (v & Hv & _). by exists v. }
  rewrite Hms. unfold mbind, result_bind, bind. eexists. split; [done|].
  rewrite <-list_fmap_compose.
  transitivity ((Pd.groupby String.le fst
    (zip (Video.name <$> Video.rows video_df) (as_float64 <$> ms))).*1).
  { apply list_fmap_ext. by intros i [n g] _. }
  rewrite groupby_keys. unfold Pd.group_keys. do 2 f_equal.
  rewrite omap_fst_zip, omap_id_fmap; [done|].
  apply apply_length in Hms. by rewrite !length_fmap in *.
Qed.
End video_facts.

(** C4, as the code has it.  In every report the summary rows come out in
    strictly ascending order of the group key (names compared as strings,
    tuples column by column), one row for each key that occurs in the
    table: the aggregation sorts, it does not keep the order of first
    occurrence. *)
Theorem summaries_sorted_by_key
    (max_str_digits : nat) (df : Emp.frame) (video_df : Video.frame) :
  (StronglySorted (Pd.strict_of name_week_le) (Weekly.key <$> weekly_summary df)
   ∧ Weekly.key <$> weekly_summary df
     ≡ₚ Pd.unique (omap name_week (Emp.rows df)))
  ∧ (StronglySorted (Pd.strict_of name_month_number_le)
       (Monthly.key <$> monthly_summary df)
     ∧ Monthly.key <$> monthly_summary df
       ≡ₚ Pd.unique (omap name_month_number (Emp.rows df)))
  ∧ (StronglySorted (Pd.strict_of String.le) (Overall.name <$> summary df)
     ∧ Overall.name <$> summary df ≡ₚ Pd.unique (omap Emp.name (Emp.rows df)))
  ∧ (StronglySorted (Pd.strict_of name_month_le)
       (Attendance.key <$> attendance df)
     ∧ Attendance.key <$> attendance df
       ≡ₚ Pd.unique (omap name_month (Emp.rows df)))
  ∧ (∀ t, buffer_summary df = Some t →
       StronglySorted (Pd.strict_of String.le) (Buffer.name <$> t)
       ∧ Buffer.name <$> t ≡ₚ Pd.unique (omap Emp.name (Emp.rows df)))
  ∧ (∃ t, video_summary max_str_digits video_df = Ok t
       ∧ StronglySorted (Pd.strict_of String.le) (Video.s_name <$> t)
       ∧ Video.s_name <$> t
         ≡ₚ Pd.unique (omap Video.name (Video.rows video_df))).
Proof.
  split_and!.
  - rewrite weekly_summary_keys. apply group_keys_sorted; apply _.
  - rewrite weekly_summary_keys. apply group_keys_Permutation.
  - rewrite monthly_summary_keys. apply group_keys_sorted; apply _.
  - rewrite monthly_summary_keys. apply group_keys_Permutation.
  - rewrite summary_keys. apply group_keys_sorted; apply _.
  - rewrite summary_keys. apply group_keys_Permutation.
  - rewrite attendance_keys. apply group_keys_sorted; apply _.
  - rewrite attendance_keys. apply group_keys_Permutation.
  - intros t Ht. rewrite (buffer_summary_keys _ _ Ht). split.
    + apply group_keys_sorted; apply _.
    + apply group_keys_Permutation.
  - destruct (video_summary_keys max_str_digits video_df) as (t & Ht & Hk).
    exists t. rewrite Hk. split_and!; [done| |].
    + apply group_keys_sorted; apply _.
    + apply group_keys_Permutation.
Qed.

(** C4, as stated, fails: with Bob's entry before Alice's, the weekly
    summary lists Alice first. *)
Lemma weekly_summary_not_in_input_order :
  Pd.unique (omap name_week (Emp.rows Sample.bob_then_alice))
    = [("Bob"%string, 1); ("Alice"%string, 1)]
  ∧ Weekly.key <$> weekly_summary Sample.bob_then_alice
    = [("Alice"%string, 1); ("Bob"%string, 1)]
  ∧ Weekly.key <$> weekly_summary Sample.bob_then_alice
    ≠ Pd.unique (omap name_week (Emp.rows Sample.bob_then_alice)).
Proof. split_and!; [by vm_compute..|]. by vm_compute. Qed.

(** C3, as the code has it.  A video table with the two durations "1:00"
    and "0:45" for one SME gives that SME a single summary row with
    [total_minutes] 1.75 (a two-part duration is its first part plus a
    sixtieth of its second) and [target_met] false against the target of
    90. *)
Theorem video_summary_two_segments (max_str_digits : nat) (sme : string) :
  video_summary max_str_digits (Sample.two_segments sme)
  = Ok [ {| Video.s_name := sme;
            Video.total_minutes := dyadic 7 (-2);
            Video.target_minutes := dyadic 90 0;
            Video.target_met := false |} ].
Proof.
  unfold video_summary, Sample.two_segments. simpl Video.rows.
  assert (Pd.apply (time_to_minutes max_str_digits)
            (Video.video_duration <$>
               [ {| Video.name := Some sme; Video.video_duration := PyStr "1:00" |};
                 {| Video.name := Some sme; Video.video_duration := PyStr "0:45" |} ])
          = Ok [PyFloat (dyadic 1 0); PyFloat (dyadic 3 (-2))]) as ->
    by (by vm_compute).
  unfold mbind, result_bind, bind. f_equal.
  rewrite (groupby_single _ _ _ sme); [by vm_compute|done|].
  by repeat constructor.
Qed.

(** C3, as stated, fails: Carol's total is 1.75 minutes, not 60.75. *)
Lemma carol_total_is_not_60_75 :
  ∃ row, video_summary 4300 (Sample.two_segments "Carol") = Ok [row]
    ∧ Video.total_minutes row = dyadic 7 (-2)
    ∧ SFeqb (Video.total_minutes row) (dyadic 243 (-2)) = false
    ∧ Video.target_met row = false.
Proof. eexists. split; [by vm_compute|]. by vm_compute. Qed.

(** ** The rows of the summary tables *)
Section summary_rows.
Variable df : Emp.frame.

(** The entries of the employee table with a given name (and week, or
    month): the groups, written out on the columns. *)
Lemma group_name_week n w :
  Pd.group name_week (n, w) (Emp.rows df)
  = filter (λ r, Emp.name r = Some n ∧ Emp.week_number r = Some w)
      (Emp.rows df).
Proof.
  apply list_filter_iff. intros r. unfold name_week.
  destruct (Emp.name r), (Emp.week_number r); simpl;
    split; try done; try (by intros [? ?]).
  - by intros [= -> ->].
  - by intros [[= ->] [= ->]].
Qed.

Lemma group_name_month n m :
  Pd.group name_month (n, m) (Emp.rows df)
  = filter (λ r, Emp.name r = Some n ∧ Emp.month r = Some m) (Emp.rows df).
Proof.
  apply list_filter_iff. intros r. unfold name_month.
  destruct (Emp.name r), (Emp.month r); simpl;
    split; try done; try (by intros [? ?]).
  - by intros [= -> ->].
  - by intros [[= ->] [= ->]].
Qed.

Lemma group_name_month_number n m k :
  Pd.group name_month_number (n, m, k) (Emp.rows df)
  = filter (λ r, Emp.name r = Some n ∧ Emp.month r = Some m
                 ∧ Emp.month_number r = Some k) (Emp.rows df).
Proof.
  apply list_filter_iff. intros r. unfold name_month_number.
  destruct (Emp.name r), (Emp.month r), (Emp.month_number r); simpl;
    split; try done; try (by intros (? & ? & ?)).
  - by intros [= -> -> ->].
  - by intros ([= ->] & [= ->] & [= ->]).
Qed.

(** Every weekly row is the aggregate of the entries of its name and
    week; [ppt_count] is the number of those entries that have a
    topic. *)
Lemma weekly_summary_row w :
  w ∈ weekly_summary df →
  let g := filter (λ r, Emp.name r = Some (Weekly.name w)
                        ∧ Emp.week_number r = Some (Weekly.week_number w))
             (Emp.rows df) in
  g ≠ []
  ∧ Weekly.total_work_days w = Pd.sum (Emp.work_days <$> g)
  ∧ Weekly.total_leave_days w = Pd.sum (Emp.leave_days <$> g)
  ∧ Weekly.ppt_count w = Pd.count (Emp.topic <$> g)
  ∧ Weekly.weekly_target w = 6
  ∧ Weekly.target_met w = bool_decide (6 ≤ Weekly.ppt_count w).
Proof.
  unfold weekly_summary.
  intros ([[n wk] g'] & -> & [Hk ->]%elem_of_groupby)%list_elem_of_fmap.
  simpl. rewrite <-group_name_week. split_and!; try done.
  by apply group_nonempty.
Qed.

Lemma monthly_summary_row m :
  m ∈ monthly_summary df →
  let g := filter (λ r, Emp.name r = Some (Monthly.name m)
                        ∧ Emp.month r = Some (Monthly.month m)
                        ∧ Emp.month_number r = Some (Monthly.month_number m))
             (Emp.rows df) in
  g ≠ []
  ∧ Monthly.total_work_days m = Pd.sum (Emp.work_days <$> g)
  ∧ Monthly.total_leave_days m = Pd.sum (Emp.leave_days <$> g)
  ∧ Monthly.ppt_count m = Pd.nunique (Emp.topic <$> g)
  ∧ Monthly.unique_weeks m = Pd.nunique (Emp.week_number <$> g)
  ∧ Monthly.monthly_target m = Monthly.unique_weeks m * 6
  ∧ Monthly.target_met m
    = bool_decide (Monthly.monthly_target m ≤ Monthly.ppt_count m).
Proof.
  unfold monthly_summary.
  intros ([[[n mo] k] g'] & -> & [Hk ->]%elem_of_groupby)%list_elem_of_fmap.
  simpl. rewrite <-group_name_month_number. split_and!; try done.
  by apply group_nonempty.
Qed.

Lemma attendance_row a :
  a ∈ attendance df →
  let g := filter (λ r, Emp.name r = Some (Attendance.name a)
                        ∧ Emp.month r = Some (Attendance.month a))
             (Emp.rows df) in
  g ≠ []
  ∧ Attendance.total_days a = Pd.count (Emp.start_date <$> g)
  ∧ Attendance.work_days a = Pd.sum (Emp.work_days <$> g)
  ∧ Attendance.leave_days a = Pd.sum (Emp.leave_days <$> g)
  ∧ Attendance.present_days a = Attendance.work_days a
  ∧ Attendance.absent_days a
    = Pd.sub (Pd.Int64 (Attendance.total_days a)) (Attendance.present_days a).
Proof.
  unfold attendance.
  intros ([[n mo] g'] & -> & [Hk ->]%elem_of_groupby)%list_elem_of_fmap.
  simpl. rewrite <-group_name_month. split_and!; try done.
  by apply group_nonempty.
Qed.
End summary_rows.

(** In a table with one row per key, a key picks its row. *)
Lemma NoDup_fmap_eq {A B} (f : A → B) (l : list A) x y :
  NoDup (f <$> l) → x ∈ l → y ∈ l → f x = f y → x = y.
Proof.
  induction l as [|z l IH]; [by intros _ ?%elem_of_nil|].
  rewrite fmap_cons, NoDup_cons. intros [Hz Hnd].
  intros [->|Hx]%elem_of_cons [->|Hy]%elem_of_cons Hxy; [done|..].
  - destruct Hz. rewrite Hxy. by apply list_elem_of_fmap_2.
  - destruct Hz. rewrite <-Hxy. by apply list_elem_of_fmap_2.
  - by apply IH.
Qed.

Lemma row_of_key {A K} (key : A → K) (t : list A) (k : K) :
  NoDup (key <$> t) → k ∈ key <$> t →
  ∃ x, x ∈ t ∧ key x = k ∧ ∀ x', x' ∈ t → key x' = k → x' = x.
Proof.
  intros Hnd (x & -> & Hx)%list_elem_of_fmap.
  exists x. split_and!; [done..|].
  intros x' Hx' Hk. by apply (NoDup_fmap_eq key t).
Qed.

(** A column that is all present and free of repeats has as many distinct
    values as cells: on such a group [count] and [nunique] agree. *)
Lemma count_nunique_NoDup `{EqDecision A} (col : list (option A)) :
  NoDup (Pd.present col) → Pd.count col = Pd.nunique col.
Proof.
  unfold Pd.count, Pd.nunique. intros Hnd.
  assert (Pd.unique (Pd.present col) = Pd.present col) as ->; [|done].
  induction Hnd as [|x l Hx Hnd IH]; simpl; [done|]. rewrite IH.
  apply (f_equal (cons x)). clear IH Hnd.
  induction l as [|y l IH]; [done|].
  apply not_elem_of_cons in Hx as [Hxy Hx].
  by rewrite filter_cons, decide_True, IH by done.
Qed.

(** Seven entries on seven topics do give [ppt_count] 7 and meet the
    target. *)
Example weekly_seven_topics :
  weekly_summary Sample.seven_topics
  = [ {| Weekly.name := "Alice";
         Weekly.week_number := 3;
         Weekly.total_work_days := Pd.Int64 7;
         Weekly.total_leave_days := Pd.Int64 0;
         Weekly.ppt_count := 7;
         Weekly.weekly_target := 6;
         Weekly.target_met := true |} ].
Proof. by vm_compute. Qed.

(** C1, where the code departs from it.  Six entries of Alice in week 3,
    all on one topic: the weekly row has [ppt_count] 6 and [target_met]
    true, although the group has a single distinct topic. *)
Theorem weekly_ppt_count_counts_repeats :
  weekly_summary Sample.one_topic_six_times
  = [ {| Weekly.name := "Alice";
         Weekly.week_number := 3;
         Weekly.total_work_days := Pd.Int64 6;
         Weekly.total_leave_days := Pd.Int64 0;
         Weekly.ppt_count := 6;
         Weekly.weekly_target := 6;
         Weekly.target_met := true |} ]
  ∧ Pd.nunique (Emp.topic <$> Emp.rows Sample.one_topic_six_times) = 1.
Proof. split; by vm_compute. Qed.

(** C6.  The monthly table has a row for every group of entries with one
    name, month and month number, one row only, and no row without such
    entries.  Every row belongs to the entries of its name, month and
    month number; its [unique_weeks] is the number of distinct week
    numbers among them, its [ppt_count] the number of distinct topics, its
    target is [unique_weeks * 6], and [target_met] holds exactly when
    [ppt_count] reaches the target.  When all those entries lie in one
    week the target is 6. *)
Theorem monthly_target_rule (df : Emp.frame) :
  (∀ m, m ∈ monthly_summary df →
     let g := filter (λ r, Emp.name r = Some (Monthly.name m)
                           ∧ Emp.month r = Some (Monthly.month m)
                           ∧ Emp.month_number r
                             = Some (Monthly.month_number m))
                (Emp.rows df) in
     g ≠ []
     ∧ Monthly.unique_weeks m = Pd.nunique (Emp.week_number <$> g)
     ∧ Monthly.ppt_count m = Pd.nunique (Emp.topic <$> g)
     ∧ Monthly.monthly_target m = Monthly.unique_weeks m * 6
     ∧ (Monthly.target_met m = true
        ↔ Monthly.monthly_target m ≤ Monthly.ppt_count m)
     ∧ (∀ w, Forall (λ r, Emp.week_number r = Some w) g →
             Monthly.unique_weeks m = 1 ∧ Monthly.monthly_target m = 6))
  ∧ (∀ n mo k,
       (∃ r, r ∈ Emp.rows df ∧ Emp.name r = Some n
             ∧ Emp.month r = Some mo ∧ Emp.month_number r = Some k) →
       ∃ m, m ∈ monthly_summary df ∧ Monthly.key m = (n, mo, k)
            ∧ ∀ m', m' ∈ monthly_summary df →
                    Monthly.key m' = (n, mo, k) → m' = m).
Proof.
  split.
  - intros m Hm g.
    destruct (monthly_summary_row df m Hm)
      as (Hne & _ & _ & Hppt & Hweeks & Htarget & Hmet).
    fold g in Hne, Hppt, Hweeks. split_and!; try done.
    + rewrite Hmet. apply bool_decide_eq_true.
    + intros w Hw.
      assert (Monthly.unique_weeks m = 1) as H1; [|by rewrite Htarget, H1].
      rewrite Hweeks. unfold Pd.nunique.
      rewrite (unique_constant _ w); [done| |].
      * destruct g as [|r g']; [done|]. apply Forall_cons in Hw as [Hr _].
        simpl. unfold Pd.present. simpl. by rewrite Hr.
      * apply Forall_forall.
        intros y (o & (r & -> & Hr)%list_elem_of_fmap & Ho)%list_elem_of_omap.
        rewrite Forall_forall in Hw. rewrite (Hw r Hr) in Ho.
        by simplify_eq/=.
  - intros n mo k (r & Hr & Hn & Hmo & Hk).
    apply row_of_key.
    + rewrite monthly_summary_keys. apply NoDup_group_keys.
    + rewrite monthly_summary_keys. apply elem_of_group_keys.
      exists r. split; [done|]. unfold name_month_number.
      by rewrite Hn, Hmo, Hk.
Qed.

(** C6 at Bob's row of the sample: four topics in one week of March,
    target 6, not met. *)
Lemma monthly_target_rule_witness :
  ∃ m, m ∈ monthly_summary Sample.march
       ∧ Monthly.key m = ("Bob"%string, "March"%string, 3)
       ∧ Monthly.ppt_count m = 4
       ∧ Monthly.monthly_target m = 6
       ∧ Monthly.target_met m = false.
Proof.
  destruct (proj2 (monthly_target_rule Sample.march) "Bob" "March" 3)
    as (m & Hm & Hk & _).
  { eexists. split; [left|]. done. }
  exists m. split; [exact Hm|]. split; [exact Hk|].
  destruct (proj1 (monthly_target_rule Sample.march) m Hm)
    as (_ & _ & Hppt & _ & Hmet & Hone).
  destruct m as [n mo k wd ld ppt uw target met].
  unfold Monthly.key in Hk. simpl in Hk. injection Hk as -> -> ->.
  cbn [Monthly.name Monthly.month Monthly.month_number Monthly.ppt_count
       Monthly.unique_weeks Monthly.monthly_target Monthly.target_met] in *.
  destruct (Hone 10) as [_ ->].
  { apply (bool_decide_unpack _). by vm_compute. }
  assert (ppt = 4) as -> by (rewrite Hppt; by vm_compute).
  split_and!; [done..|].
  destruct met; [|done]. destruct Hmet as [Hmet _].
  specialize (Hmet eq_refl). lia.
Defined.

(** ** What each report reads *)
Section reads.
Variable E : relation Emp.row.
Variables df df' : Emp.frame.
Hypothesis Hrows : Forall2 E (Emp.rows df) (Emp.rows df').

Lemma column_Forall2 {B} (col : Emp.row → B) g g' :
  (∀ r r', E r r' → col r = col r') → Forall2 E g g' → col <$> g = col <$> g'.
Proof.
  intros Hcol Hg. induction Hg as [|r r' g g' Hr _ IH]; [done|].
  simpl. rewrite (Hcol r r' Hr). f_equal. exact IH.
Qed.

Lemma aggregate_Forall2 {K B} (agg : K * list Emp.row → B)
    (gs gs' : list (K * list Emp.row)) :
  (∀ k g g', Forall2 E g g' → agg (k, g) = agg (k, g')) →
  Forall2 (λ kg kg', kg.1 = kg'.1 ∧ Forall2 E kg.2 kg'.2) gs gs' →
  agg <$> gs = agg <$> gs'.
Proof.
  intros Hagg Hgs.
  induction Hgs as [|[k g] [k' g'] gs gs' [Hk Hg] _ IH]; [done|].
  simpl in *. subst k'. rewrite (Hagg k g g' Hg). f_equal. exact IH.
Qed.

(** The weekly report reads [name], [week_number], [work_days],
    [leave_days] and [topic]. *)
Lemma weekly_summary_reads :
  (∀ r r', E r r' →
     Emp.name r = Emp.name r' ∧ Emp.week_number r = Emp.week_number r'
     ∧ Emp.work_days r = Emp.work_days r'
     ∧ Emp.leave_days r = Emp.leave_days r' ∧ Emp.topic r = Emp.topic r') →
  weekly_summary df = weekly_summary df'.
Proof.
  intros HE. unfold weekly_summary.
  apply aggregate_Forall2; [|apply groupby_Forall2; [|done]].
  - intros k g g' Hg.
    rewrite (column_Forall2 Emp.topic g g'),
      (column_Forall2 Emp.work_days g g'),
      (column_Forall2 Emp.leave_days g g'); try done;
      intros r r' Hr; by destruct (HE r r' Hr) as (?&?&?&?&?).
  - intros r r' Hr. destruct (HE r r' Hr) as (Hn & Hw & _).
    unfold name_week. by rewrite Hn, Hw.
Qed.

(** The monthly report reads [name], [month], [month_number],
    [week_number], [work_days], [leave_days] and [topic]. *)
Lemma monthly_summary_reads :
  (∀ r r', E r r' →
     Emp.name r = Emp.name r' ∧ Emp.month r = Emp.month r'
     ∧ Emp.month_number r = Emp.month_number r'
     ∧ Emp.week_number r = Emp.week_number r'
     ∧ Emp.work_days r = Emp.work_days r'
     ∧ Emp.leave_days r = Emp.leave_days r' ∧ Emp.topic r = Emp.topic r') →
  monthly_summary df = monthly_summary df'.
Proof.
  intros HE. unfold monthly_summary.
  apply aggregate_Forall2; [|apply groupby_Forall2; [|done]].
  - intros k g g' Hg.
    rewrite (column_Forall2 Emp.topic g g'),
      (column_Forall2 Emp.week_number g g'),
      (column_Forall2 Emp.work_days g g'),
      (column_Forall2 Emp.leave_days g g'); try done;
      intros r r' Hr; by destruct (HE r r' Hr) as (?&?&?&?&?&?&?).
  - intros r r' Hr. destruct (HE r r' Hr) as (Hn & Hm & Hk & _).
    unfold name_month_number. by rewrite Hn, Hm, Hk.
Qed.

(** The overall report reads [name], [work_days], [leave_days] and
    [topic]. *)
Lemma summary_reads :
  (∀ r r', E r r' →
     Emp.name r = Emp.name r' ∧ Emp.work_days r = Emp.work_days r'
     ∧ Emp.leave_days r = Emp.leave_days r' ∧ Emp.topic r = Emp.topic r') →
  summary df = summary df'.
Proof.
  intros HE. unfold summary.
  apply aggregate_Forall2; [|apply groupby_Forall2; [|done]].
  - intros k g g' Hg.
    rewrite (column_Forall2 Emp.topic g g'),
      (column_Forall2 Emp.work_days g g'),
      (column_Forall2 Emp.leave_days g g'); try done;
      intros r r' Hr; by destruct (HE r r' Hr) as (?&?&?&?).
  - intros r r' Hr. by destruct (HE r r' Hr) as (Hn & _).
Qed.

(** The attendance report reads [name], [month], [start_date],
    [work_days] and [leave_days]. *)
Lemma attendance_reads :
  (∀ r r', E r r' →
     Emp.name r = Emp.name r' ∧ Emp.month r = Emp.month r'
     ∧ Emp.start_date r = Emp.start_date r'
     ∧ Emp.work_days r = Emp.work_days r'
     ∧ Emp.leave_days r = Emp.leave_days r') →
  attendance df = attendance df'.
Proof.
  intros HE. unfold attendance.
  apply aggregate_Forall2; [|apply groupby_Forall2; [|done]].
  - intros k g g' Hg.
    rewrite (column_Forall2 Emp.start_date g g'),
      (column_Forall2 Emp.work_days g g'),
      (column_Forall2 Emp.leave_days g g'); try done;
      intros r r' Hr; by destruct (HE r r' Hr) as (?&?&?&?&?).
  - intros r r' Hr. destruct (HE r r' Hr) as (Hn & Hm & _).
    unfold name_month. by rewrite Hn, Hm.
Qed.

(** The buffer report reads the column names, [name] and the cells of
    the further columns. *)
Lemma buffer_summary_reads :
  Emp.columns df = Emp.columns df' →
  (∀ r r', E r r' →
     Emp.name r = Emp.name r' ∧ Emp.other r = Emp.other r') →
  buffer_summary df = buffer_summary df'.
Proof.
  intros Hcols HE. unfold buffer_summary. rewrite <-Hcols.
  case_decide; [|done]. f_equal.
  apply aggregate_Forall2; [|apply groupby_Forall2; [|done]].
  - intros k g g' Hg. f_equal. apply list_fmap_ext. intros _ col _.
    f_equal. f_equal. apply (column_Forall2 (Emp.cell col)); [|done].
    intros r r' Hr. destruct (HE r r' Hr) as [_ Ho].
    unfold Emp.cell. by rewrite Ho.
  - intros r r' Hr. by destruct (HE r r' Hr) as (Hn & _).
Qed.
End reads.

(** ** Preprocessing *)

(** Rows that are built by index and then filtered. *)
Section imap_facts.
Context {A B : Type}.

Lemma filter_fmap {C} (f : A → C) (P : C → Prop)
    `{∀ y, Decision (P y)} (l : list A) :
  filter P (f <$> l) = f <$> filter (λ x, P (f x)) l.
Proof.
  induction l as [|x l IH]; [done|].
  rewrite fmap_cons, !filter_cons.
  destruct (decide (P (f x))); [rewrite fmap_cons|]; by rewrite IH.
Qed.

Lemma filter_ext_in (P Q : A → Prop)
    `{∀ r, Decision (P r), ∀ r, Decision (Q r)} (rows : list A) :
  (∀ r, r ∈ rows → P r ↔ Q r) → filter P rows = filter Q rows.
Proof.
  induction rows as [|r rows IH]; [done|]. intros HPQ.
  rewrite !filter_cons, IH by (intros r' Hr'; apply HPQ; by right).
  assert (P r ↔ Q r) as Hr by (apply HPQ; by left).
  destruct (decide (P r)) as [HP|HP], (decide (Q r)) as [HQ|HQ];
    try done; tauto.
Qed.
End imap_facts.

(** The rows that pass the filter are those at the indices that pass
    the corresponding test, in order. *)
Lemma imap_filter_indices {A B} (f : nat → A → B) (P : B → Prop)
    (Pdec : ∀ y, Decision (P y)) (Q : nat → Prop)
    (Qdec : ∀ i, Decision (Q i)) (l : list A) :
  (∀ i x, l !! i = Some x → P (f i x) ↔ Q i) →
  Forall2 (λ i y, ∃ x, l !! i = Some x ∧ y = f i x)
    (filter Q (seq 0 (length l))) (filter P (imap f l)).
Proof.
  revert f Q Qdec. induction l as [|x l IH]; intros f Q Qdec HPQ.
  { constructor. }
  cbn [length]. rewrite <-cons_seq, <-fmap_S_seq, imap_cons, !filter_cons.
  rewrite (filter_fmap S Q).
  assert (Forall2 (λ i y, ∃ x', (x :: l) !! i = Some x' ∧ y = f i x')
            (S <$> filter (λ i, Q (S i)) (seq 0 (length l)))
            (filter P (imap (f ∘ S) l))) as Htail.
  { apply Forall2_fmap_l.
    apply (IH (f ∘ S) (λ i, Q (S i)) (λ i, Qdec (S i))).
    intros i x' Hi. by apply (HPQ (S i) x'). }
  pose proof (HPQ 0%nat x eq_refl) as H0.
  destruct (decide (P (f 0%nat x))) as [HP|HP], (decide (Q 0%nat)) as [HQ|HQ];
    try tauto.
  constructor; [by exists x|exact Htail].
Qed.

(** Two tables built and filtered alike from rows that are related
    pairwise stay related pairwise. *)
Lemma imap_filter_Forall2 {A A' B B'}
    (f : nat → A → B) (f' : nat → A' → B')
    (P : B → Prop) (P' : B' → Prop)
    `{∀ y, Decision (P y), ∀ y, Decision (P' y)}
    (R : A → A' → Prop) (E : B → B' → Prop) (l : list A) (l' : list A') :
  Forall2 R l l' →
  (∀ i x x', R x x' →
     (P (f i x) ↔ P' (f' i x')) ∧ (P (f i x) → E (f i x) (f' i x'))) →
  Forall2 E (filter P (imap f l)) (filter P' (imap f' l')).
Proof.
  intros Hl. revert f f'.
  induction Hl as [|x x' l l' Hx _ IH]; intros f f' Hf; [constructor|].
  rewrite !imap_cons, !filter_cons.
  destruct (Hf 0%nat x x' Hx) as [HPP' HE].
  assert (Forall2 E (filter P (imap (f ∘ S) l))
            (filter P' (imap (f' ∘ S) l'))) as Htail.
  { apply IH. intros i y y' Hy. apply (Hf (S i) y y' Hy). }
  destruct (decide (P (f 0%nat x))) as [HP|HP],
           (decide (P' (f' 0%nat x'))) as [HP'|HP']; try tauto.
  constructor; [by apply HE|exact Htail].
Qed.

Section preprocess_facts.
Variable to_datetime : list value → nat → option Timestamp.
Variable isocalendar_week : Timestamp → Z.
Variable month_name : Timestamp → string.
Variable month_of : Timestamp → Z.

#[local] Abbreviation preprocess :=
  (preprocess to_datetime isocalendar_week month_name month_of).
#[local] Abbreviation add_temporal :=
  (add_temporal isocalendar_week month_name month_of).
#[local] Abbreviation convert_dates := (convert_dates to_datetime).

Lemma preprocess_rows raw df :
  preprocess raw = inr df →
  Emp.rows df
  = add_temporal <$> dropna_start_date (convert_dates (Raw.rows raw)).
Proof. unfold App.preprocess. case_decide; [|done]. by intros [= <-]. Qed.


(** The rows that stay are the rows of the upload whose start date
    parses in its column, in the order of the upload, with their cells;
    the date cells hold the parsed dates. *)
Lemma preprocess_kept raw df :
  preprocess raw = inr df →
  let start_date := to_datetime (Raw.start_date <$> Raw.rows raw) in
  let end_date := to_datetime (Raw.end_date <$> Raw.rows raw) in
  Forall2 (λ i r, ∃ x, Raw.rows raw !! i = Some x
                       ∧ Emp.name r = Raw.name x
                       ∧ Emp.topic r = Raw.topic x
                       ∧ Emp.work_days r = Raw.work_days x
                       ∧ Emp.leave_days r = Raw.leave_days x
                       ∧ Emp.other r = Raw.other x
                       ∧ Emp.start_date r = start_date i
                       ∧ Emp.end_date r = end_date i)
    (filter (λ i, is_Some (start_date i)) (seq 0 (length (Raw.rows raw))))
    (Emp.rows df).
Proof.
  intros ->%preprocess_rows start_date end_date.
  apply Forall2_fmap_r. unfold dropna_start_date, App.convert_dates.
  eapply Forall2_impl; [apply imap_filter_indices; by intros i x _|].
  intros i r (x & Hx & ->). by exists x.
Qed.

(** The rows that stay are counted by the start dates that parse. *)
Lemma preprocess_length raw df :
  preprocess raw = inr df →
  length (Emp.rows df)
  = length (filter (λ i, is_Some (to_datetime (Raw.start_date
                                                <$> Raw.rows raw) i))
              (seq 0 (length (Raw.rows raw)))).
Proof.
  intros Hdf. symmetry.
  apply (Forall2_length _ _ _ (preprocess_kept raw df Hdf)).
Qed.

Lemma start_date_column rows1 rows2 :
  Forall2 Raw.same_but_end_date rows1 rows2 →
  Raw.start_date <$> rows1 = Raw.start_date <$> rows2.
Proof.
  induction 1 as [|r1 r2 rows1 rows2 Hr _ IH]; [done|].
  destruct Hr as (_ & _ & Hs & _). rewrite !fmap_cons, Hs. f_equal. exact IH.
Qed.

(** Rows that differ in [end_date] alone are kept or dropped together
    and still differ in [end_date] alone afterwards. *)
Lemma preprocess_same_but_end_date raw1 raw2 df1 df2 :
  Forall2 Raw.same_but_end_date (Raw.rows raw1) (Raw.rows raw2) →
  preprocess raw1 = inr df1 → preprocess raw2 = inr df2 →
  Forall2 Emp.same_but_end_date (Emp.rows df1) (Emp.rows df2).
Proof.
  intros Hrows ->%preprocess_rows ->%preprocess_rows.
  apply Forall2_fmap. unfold dropna_start_date, App.convert_dates.
  rewrite <-(start_date_column _ _ Hrows).
  apply (imap_filter_Forall2 _ _ _ _ Raw.same_but_end_date); [done|].
  intros i r1 r2 (Hn & Ht & Hs & Hw & Hl & Ho). simpl. split; [done|].
  intros _. unfold Emp.same_but_end_date. simpl.
  by rewrite Hn, Ht, Hw, Hl, Ho.
Qed.

Lemma preprocess_columns raw1 raw2 :
  Raw.columns raw1 = Raw.columns raw2 →
  match preprocess raw1, preprocess raw2 with
  | inr df1, inr df2 => Emp.columns df1 = Emp.columns df2
  | inl missing1, inl missing2 => missing1 = missing2
  | _, _ => False
  end.
Proof.
  intros Hcols. unfold App.preprocess. rewrite <-Hcols.
  case_decide; simpl; done.
Qed.
End preprocess_facts.

Lemma count_all_present {A} (col : list (option A)) :
  Forall is_Some col → Pd.count col = Z.of_nat (length col).
Proof.
  unfold Pd.count, Pd.present. intros Hall. apply (f_equal Z.of_nat).
  induction Hall as [|o col [x ->] _ IH]; [done|].
  simpl. apply (f_equal S). exact IH.
Qed.



(** Two entries of one month with 2^63 - 1 work days each: their sum
    wraps to -2, and two days less minus two makes four days absent. *)
Example attendance_int64_wraps :
  ∃ df,
    preprocess Sample.to_datetime Sample.isocalendar_week Sample.month_name
      Sample.month_of Sample.large_days = inr df
    ∧ attendance df
      = [ {| Attendance.name := "Dana"; Attendance.month := "January";
             Attendance.total_days := 2;
             Attendance.work_days := Pd.Int64 (-2);
             Attendance.leave_days := Pd.Int64 0;
             Attendance.present_days := Pd.Int64 (-2);
             Attendance.absent_days := Pd.Int64 4 |} ].
Proof. eexists. split; [vm_compute; reflexivity|by vm_compute]. Qed.

(** C9.  Two uploads with the same columns whose rows differ at most in
    their [end_date] cells are treated alike: either both stop on the same
    missing columns, or both are preprocessed and the weekly, monthly,
    overall, attendance and buffer summaries of the one equal those of the
    other.  The rows that stay are counted by the start dates that parse;
    no row is dropped for its [end_date]. *)
Theorem end_date_not_read
    (to_datetime : list value → nat → option Timestamp)
    (isocalendar_week : Timestamp → Z) (month_name : Timestamp → string)
    (month_of : Timestamp → Z) (raw1 raw2 : Raw.frame) :
  Raw.columns raw1 = Raw.columns raw2 →
  Forall2 Raw.same_but_end_date (Raw.rows raw1) (Raw.rows raw2) →
  match preprocess to_datetime isocalendar_week month_name month_of raw1,
        preprocess to_datetime isocalendar_week month_name month_of raw2 with
  | inr df1, inr df2 =>
      weekly_summary df1 = weekly_summary df2
      ∧ monthly_summary df1 = monthly_summary df2
      ∧ summary df1 = summary df2
      ∧ attendance df1 = attendance df2
      ∧ buffer_summary df1 = buffer_summary df2
      ∧ length (Emp.rows df1)
        = length (filter (λ i, is_Some (to_datetime
                                          (Raw.start_date <$> Raw.rows raw1)
                                          i))
                    (seq 0 (length (Raw.rows raw1))))
      ∧ length (Emp.rows df2) = length (Emp.rows df1)
  | inl missing1, inl missing2 => missing1 = missing2
  | _, _ => False
  end.
Proof.
  intros Hcols Hrows.
  pose proof (preprocess_columns to_datetime isocalendar_week month_name
                month_of raw1 raw2 Hcols) as Hc.
  destruct (preprocess _ _ _ _ raw1) as [m1|df1] eqn:H1,
           (preprocess _ _ _ _ raw2) as [m2|df2] eqn:H2; try done.
  pose proof (preprocess_same_but_end_date _ _ _ _ _ _ _ _ Hrows H1 H2) as HE.
  split_and!.
  - apply (weekly_summary_reads _ _ _ HE).
    by intros r r' (?&?&?&?&?&?&?&?&?).
  - apply (monthly_summary_reads _ _ _ HE).
    by intros r r' (?&?&?&?&?&?&?&?&?).
  - apply (summary_reads _ _ _ HE).
    by intros r r' (?&?&?&?&?&?&?&?&?).
  - apply (attendance_reads _ _ _ HE).
    by intros r r' (?&?&?&?&?&?&?&?&?).
  - apply (buffer_summary_reads _ _ _ HE); [done|].
    by intros r r' (?&?&?&?&?&?&?&?&?).
  - by eapply preprocess_length.
  - symmetry. by eapply Forall2_length.
Qed.

(** C9 at two uploads, one with end dates and one with text and blanks
    in their place. *)
Lemma end_date_not_read_witness :
  ∃ df1 df2,
    preprocess Sample.to_datetime Sample.isocalendar_week Sample.month_name
      Sample.month_of Sample.with_end_dates = inr df1
    ∧ preprocess Sample.to_datetime Sample.isocalendar_week Sample.month_name
        Sample.month_of Sample.with_bad_end_dates = inr df2
    ∧ attendance df1 = attendance df2
    ∧ length (Emp.rows df2) = 2%nat.
Proof.
  assert (Raw.columns Sample.with_end_dates
          = Raw.columns Sample.with_bad_end_dates) as Hcols by reflexivity.
  assert (Forall2 Raw.same_but_end_date (Raw.rows Sample.with_end_dates)
            (Raw.rows Sample.with_bad_end_dates)) as Hrows
    by (repeat constructor).
  pose proof (end_date_not_read Sample.to_datetime Sample.isocalendar_week
                Sample.month_name Sample.month_of _ _ Hcols Hrows) as H.
  destruct (preprocess _ _ _ _ Sample.with_end_dates) as [m1|df1] eqn:H1;
    [by vm_compute in H1|].
  destruct (preprocess _ _ _ _ Sample.with_bad_end_dates) as [m2|df2] eqn:H2;
    [done|].
  destruct H as (_ & _ & _ & Hatt & _ & Hlen1 & Hlen2).
  exists df1, df2. split_and!; [done..|]. by rewrite Hlen2, Hlen1.
Defined.

(** ** The buffer report *)
Lemma buffer_summary_rows (df : Emp.frame) (t : list Buffer.row) (b : Buffer.row) :
  buffer_summary df = Some t → b ∈ t →
  Buffer.sums b
  = (λ col, (col, Pd.sum (Emp.cell col
                          <$> filter (λ r, Emp.name r = Some (Buffer.name b))
                                (Emp.rows df))))
    <$> buffer_cols.
Proof.
  unfold buffer_summary. case_decide; [|done]. intros [= <-].
  by intros ([n g] & -> & [_ ->]%elem_of_groupby)%list_elem_of_fmap.
Qed.

(** C2, as the code has it.  The buffer page shows a table exactly when
    the four columns [ppt's_buffer], [lab_ppt's_buffer], [illu_buffer] and
    [ae_buffer] are all among the columns of the table; the table then has
    one row per name, sorted, with the sum of each of the four columns
    over the entries of that name.  Otherwise the page shows the warning.
    The other pages neither look at the column names nor at the cells of
    further columns, and the video page does not look at the employee
    table at all. *)
Theorem buffer_report_availability
    (max_str_digits : nat) (selectbox : list string → option string)
    (df : Emp.frame) (video : option Video.frame) :
  (Forall (λ col, col ∈ Emp.columns df) buffer_cols →
   ∃ t, render max_str_digits selectbox BufferSummary df video
        = Ok (BufferTable t)
      ∧ Buffer.name <$> t = Pd.group_keys String.le Emp.name (Emp.rows df)
      ∧ ∀ b, b ∈ t →
          Buffer.sums b
          = (λ col, (col, Pd.sum (Emp.cell col
                       <$> filter (λ r, Emp.name r = Some (Buffer.name b))
                             (Emp.rows df))))
            <$> buffer_cols)
  ∧ (¬ Forall (λ col, col ∈ Emp.columns df) buffer_cols →
     render max_str_digits selectbox BufferSummary df video
     = Ok BufferColumnsNotFound)
  ∧ (∀ df' choice,
       choice ≠ BufferSummary →
       Forall2 Emp.same_but_other (Emp.rows df) (Emp.rows df') →
       render max_str_digits selectbox choice df video
       = render max_str_digits selectbox choice df' video)
  ∧ (∀ df', render max_str_digits selectbox VideoDuration df video
            = render max_str_digits selectbox VideoDuration df' video).
Proof.
  split_and!.
  - intros Hcols.
    destruct (buffer_summary df) as [t|] eqn:Ht.
    + exists t. simpl. rewrite Ht. split_and!; [done|..].
      * by apply buffer_summary_keys.
      * intros b Hb. by apply (buffer_summary_rows df t).
    + unfold buffer_summary in Ht. by rewrite decide_True in Ht.
  - intros Hcols. simpl. unfold buffer_summary. by rewrite decide_False.
  - intros df' choice Hchoice HE. destruct choice; simpl; try done.
    + rewrite (weekly_summary_reads _ _ _ HE); [done|].
      by intros r r' (?&?&?&?&?&?&?&?&?).
    + rewrite (monthly_summary_reads _ _ _ HE); [done|].
      by intros r r' (?&?&?&?&?&?&?&?&?).
    + rewrite (summary_reads _ _ _ HE); [done|].
      by intros r r' (?&?&?&?&?&?&?&?&?).
    + rewrite (attendance_reads _ _ _ HE); [done|].
      by intros r r' (?&?&?&?&?&?&?&?&?).
  - done.
Qed.

(** C2 on an upload that has the four columns, with Bob's row of sums,
    and on one that lacks them. *)
Lemma buffer_report_availability_witness :
  (∃ t, render 4300 Sample.selectbox BufferSummary Sample.with_buffers None
        = Ok (BufferTable t)
        ∧ Buffer.name <$> t = ["Alice"; "Bob"]%string
        ∧ ∀ b, b ∈ t → Buffer.name b = "Bob"%string →
               Buffer.sums b
               = [("ppt's_buffer"%string, Pd.Int64 1);
                  ("lab_ppt's_buffer"%string, Pd.Int64 0);
                  ("illu_buffer"%string, Pd.Int64 2);
                  ("ae_buffer"%string, Pd.Int64 0)])
  ∧ render 4300 Sample.selectbox BufferSummary Sample.bob_then_alice None
    = Ok BufferColumnsNotFound.
Proof.
  split.
  - destruct (proj1 (buffer_report_availability 4300 Sample.selectbox
                       Sample.with_buffers None))
      as (t & Ht & Hnames & Hsums).
    { apply (bool_decide_unpack _). by vm_compute. }
    exists t. split; [done|]. split; [rewrite Hnames; by vm_compute|].
    intros b Hb Hn. rewrite (Hsums b Hb), Hn. by vm_compute.
  - apply (proj1 (proj2 (buffer_report_availability 4300 Sample.selectbox
                           Sample.bob_then_alice None))).
    apply (bool_decide_unpack _). by vm_compute.
Defined.

(** C2, as stated, fails: a table with the columns [ppt_buffer],
    [lab_ppt_buffer], [illu_buffer] and [ae_buffer] gets the warning. *)
Lemma plain_buffer_names_not_found :
  Forall (λ col, col ∈ Emp.columns Sample.plain_buffer_names)
    ["ppt_buffer"; "lab_ppt_buffer"; "illu_buffer"; "ae_buffer"]%string
  ∧ render 4300 Sample.selectbox BufferSummary Sample.plain_buffer_names None
    = Ok BufferColumnsNotFound.
Proof.
  split; [|by vm_compute].
  apply (bool_decide_unpack _). by vm_compute.
Qed.

(** ** The attendance drill-down *)
Lemma emp_att_first (attendance : list Attendance.row) emp pre a post :
  attendance = pre ++ a :: post →
  Attendance.name a = emp →
  Forall (λ b, Attendance.name b ≠ emp) pre →
  emp_att attendance (Some emp) = Ok a.
Proof.
  intros -> Ha Hpre. unfold emp_att. rewrite filter_app.
  assert (filter (λ b, Some emp = Some (Attendance.name b)) pre = []) as ->.
  { induction Hpre as [|b pre Hb _ IH]; [done|].
    rewrite filter_cons, decide_False; [done|]. intros [= ?]. by destruct Hb. }
  simpl. rewrite filter_cons, decide_True by (by rewrite Ha). done.
Qed.

(** Every employee the select box offers has a first row. *)
Lemma emp_options_first (attendance : list Attendance.row) emp :
  emp ∈ emp_options attendance →
  ∃ pre a post, attendance = pre ++ a :: post ∧ Attendance.name a = emp
                ∧ Forall (λ b, Attendance.name b ≠ emp) pre.
Proof.
  unfold emp_options. rewrite elem_of_unique.
  induction attendance as [|b l IH]; [by intros ?%elem_of_nil|].
  rewrite fmap_cons. intros Hin.
  destruct (decide (Attendance.name b = emp)) as [Hb|Hb].
  { by exists [], b, l. }
  apply elem_of_cons in Hin as [Hin|Hin]; [done|].
  destruct (IH Hin) as (pre & a & post & -> & Ha & Hpre).
  exists (b :: pre), a, post. split_and!; [done..|]. by constructor.
Qed.

(** C10.  For every employee the select box offers, the attendance table
    has a first row [a] of that name, and the Present/Absent/Leave split
    of the drill-down is the days of [a]: the rows after it, further
    months of the same employee among them, do not change it. *)
Theorem pie_data_first_row (attendance : list Attendance.row) (emp : string) :
  emp ∈ emp_options attendance →
  ∃ pre a post,
    attendance = pre ++ a :: post
    ∧ Attendance.name a = emp
    ∧ Forall (λ b, Attendance.name b ≠ emp) pre
    ∧ pie_data attendance (Some emp)
      = Ok [("Present"%string, Attendance.present_days a);
            ("Absent"%string, Attendance.absent_days a);
            ("Leave"%string, Attendance.leave_days a)]
    ∧ ∀ post', pie_data (pre ++ a :: post') (Some emp)
               = pie_data attendance (Some emp).
Proof.
  intros (pre & a & post & Hatt & Ha & Hpre)%emp_options_first.
  exists pre, a, post. split_and!; [done..| |].
  - unfold pie_data.
    by rewrite (emp_att_first attendance emp pre a post).
  - intros post'. unfold pie_data.
    rewrite (emp_att_first attendance emp pre a post) by done.
    by rewrite (emp_att_first _ emp pre a post').
Qed.

(** C10 at a table with two months of Alice: April sorts before March, and
    the split is April's. *)
Lemma pie_data_first_row_witness :
  let april := {| Attendance.name := "Alice"; Attendance.month := "April";
                  Attendance.total_days := 2;
                  Attendance.work_days := Pd.Int64 2;
                  Attendance.leave_days := Pd.Int64 1;
                  Attendance.present_days := Pd.Int64 2;
                  Attendance.absent_days := Pd.Int64 0 |} in
  let march := {| Attendance.name := "Alice"; Attendance.month := "March";
                  Attendance.total_days := 5;
                  Attendance.work_days := Pd.Int64 4;
                  Attendance.leave_days := Pd.Int64 0;
                  Attendance.present_days := Pd.Int64 4;
                  Attendance.absent_days := Pd.Int64 1 |} in
  "Alice"%string ∈ emp_options [april; march]
  ∧ ∃ a, pie_data [april; march] (Some "Alice"%string)
         = Ok [("Present"%string, Attendance.present_days a);
               ("Absent"%string, Attendance.absent_days a);
               ("Leave"%string, Attendance.leave_days a)]
         ∧ pie_data [april; march] (Some "Alice"%string)
           = Ok [("Present"%string, Pd.Int64 2);
                 ("Absent"%string, Pd.Int64 0);
                 ("Leave"%string, Pd.Int64 1)].
Proof.
  intros april march.
  assert ("Alice"%string ∈ emp_options [april; march]) as Hin
    by (vm_compute; constructor).
  split; [exact Hin|].
  destruct (pie_data_first_row [april; march] "Alice" Hin)
    as (pre & a & post & _ & _ & _ & Hpie & _).
  exists a. split; [exact Hpie|reflexivity].
Defined.

(** * Further properties of the script *)

(** ** Column names (lines 26 and 180) *)
Section standardize_facts.
Implicit Types (s : string) (c : ascii) (f : ascii → ascii).

Lemma head_ok_lstrip s : head_ok (lstrip s).
Proof.
  induction s as [|c s IH]; simpl; [done|].
  by destruct (isspace c) eqn:Hc.
Qed.

Lemma lstrip_head_ok s : head_ok s → lstrip s = s.
Proof. destruct s as [|c s]; simpl; [done|]. by intros ->. Qed.

Lemma head_ok_rstrip s : head_ok s → head_ok (rstrip s).
Proof.
  destruct s as [|c s]; simpl; [done|]. intros Hc.
  destruct (rstrip s); simpl; [by rewrite Hc|done].
Qed.

Lemma rstrip_rstrip s : rstrip (rstrip s) = rstrip s.
Proof.
  induction s as [|c s IH]; simpl; [done|].
  destruct (rstrip s) as [|d r] eqn:Hr.
  - destruct (isspace c) eqn:Hc; simpl; [done|]. by rewrite Hc.
  - change (rstrip (String c (String d r))) with
      (match rstrip (String d r) with
       | EmptyString => if isspace c then EmptyString else String c EmptyString
       | String a r' => String c (String a r')
       end).
    by rewrite IH.
Qed.

Lemma strip_fixed s : head_ok s → rstrip s = s → strip s = s.
Proof. intros Hh Hr. unfold strip. by rewrite lstrip_head_ok, Hr. Qed.

Lemma strip_strip s : strip (strip s) = strip s.
Proof.
  apply strip_fixed.
  - apply head_ok_rstrip, head_ok_lstrip.
  - apply rstrip_rstrip.
Qed.

Lemma map_chars_head_ok f s :
  (∀ c, isspace c = false → isspace (f c) = false) →
  head_ok s → head_ok (map_chars f s).
Proof. intros Hf. destruct s as [|c s]; simpl; [done|]. apply Hf. Qed.

Lemma map_chars_rstrip f s :
  (∀ c, isspace c = false → isspace (f c) = false) →
  rstrip s = s → rstrip (map_chars f s) = map_chars f s.
Proof.
  intros Hf. induction s as [|c s IH]; simpl; [done|].
  destruct (rstrip s) as [|d r] eqn:Hr.
  - destruct (isspace c) eqn:Hc; [done|]. intros [= <-]. simpl.
    by rewrite (Hf c Hc).
  - intros [= <-]. rewrite IH by done. done.
Qed.

Lemma map_chars_id f s :
  (∀ c, c ∈ chars s → f c = c) → map_chars f s = s.
Proof.
  induction s as [|c s IH]; simpl; [done|]. intros Hf.
  rewrite (Hf c) by (by left). f_equal. apply IH.
  intros d Hd. apply Hf. by right.
Qed.

Lemma map_chars_compose f g s :
  map_chars f (map_chars g s) = map_chars (f ∘ g) s.
Proof. induction s as [|c s IH]; simpl; [done|]. by rewrite IH. Qed.

Lemma chars_map_chars f s : chars (map_chars f s) = f <$> chars s.
Proof.
  unfold chars. induction s as [|c s IH]; simpl; [done|].
  f_equal. exact IH.
Qed.

Lemma isspace_lower_char c : isspace (lower_char c) = isspace c.
Proof. by destruct c as [[] [] [] [] [] [] [] []]. Qed.

Lemma lower_char_lower_char c : lower_char (lower_char c) = lower_char c.
Proof. by destruct c as [[] [] [] [] [] [] [] []]. Qed.

Lemma lower_lower s : lower (lower s) = lower s.
Proof.
  unfold lower. rewrite map_chars_compose.
  induction s as [|c s IH]; simpl; [done|].
  by rewrite lower_char_lower_char, IH.
Qed.

(** What a standardised name looks like: stripped, in lower case and
    without a blank. *)
Lemma standardize_column_form s :
  let r := standardize_column s in
  strip r = r ∧ lower r = r ∧ (" "%char ∉ chars r).
Proof.
  unfold standardize_column, replace_char. split_and!.
  - apply strip_fixed.
    + apply map_chars_head_ok; [intros c Hc; by case_decide|].
      apply map_chars_head_ok; [intros c; by rewrite isspace_lower_char|].
      apply head_ok_rstrip, head_ok_lstrip.
    + apply map_chars_rstrip; [intros c Hc; by case_decide|].
      apply map_chars_rstrip; [intros c; by rewrite isspace_lower_char|].
      apply rstrip_rstrip.
  - unfold lower at 1. rewrite map_chars_compose.
    unfold lower. rewrite !map_chars_compose.
    generalize (strip s). intros t.
    induction t as [|c t IH]; simpl; [done|]. rewrite IH. f_equal.
    case_decide as Hc; [done|]. apply lower_char_lower_char.
  - rewrite chars_map_chars. intros (c & Hc & _)%list_elem_of_fmap.
    by case_decide.
Qed.
End standardize_facts.

(** X1.  Standardising a column name twice is the same as standardising
    it once: a standardised upload can be standardised again without any
    column changing its name. *)
Theorem standardize_column_idempotent (c : string) :
  standardize_column (standardize_column c) = standardize_column c.
Proof.
  destruct (standardize_column_form c) as (Hstrip & Hlower & Hblank).
  unfold standardize_column at 1. rewrite Hstrip, Hlower.
  apply map_chars_id. intros d Hd. case_decide; [by subst|done].
Qed.

(** X2.  A standardised column name neither starts nor ends with
    whitespace, has no blank in it, and none of the letters that
    [lower()] changes. *)
Theorem standardize_column_shape (c : string) :
  let r := standardize_column c in
  head_ok r ∧ rstrip r = r
  ∧ (" "%char ∉ chars r)
  ∧ ∀ d, d ∈ chars r → lower_char d = d.
Proof.
  destruct (standardize_column_form c) as (Hstrip & Hlower & Hblank).
  cbv zeta. split_and!; [| |done|].
  - rewrite <-Hstrip. apply head_ok_rstrip, head_ok_lstrip.
  - rewrite <-Hstrip. apply rstrip_rstrip.
  - intros d Hd. revert Hlower Hd. generalize (standardize_column c).
    intros r. unfold lower. induction r as [|e r IH]; simpl.
    { by intros _ ?%elem_of_nil. }
    intros [= He Hr] [->|Hd]%elem_of_cons; [done|by apply IH].
Qed.

(** The names the script looks for are standardised names, and headers
    written with capitals and blanks reach them. *)
Example standardize_column_samples :
  Forall (λ c, standardize_column c = c) (required ++ buffer_cols)
  ∧ standardize_column "  Work Days " = "work_days"%string
  ∧ standardize_column "PPT's Buffer" = "ppt's_buffer"%string.
Proof. split_and!; [|done..]. by repeat constructor. Qed.

(** ** Load and preprocess (lines 29-42) *)
Section preprocess_more.
Lemma set_column_elem_of c cols d :
  d ∈ set_column c cols ↔ d ∈ cols ∨ d = c.
Proof.
  unfold set_column. case_decide as Hc.
  - split; [by left|]. by intros [?| ->].
  - rewrite elem_of_app, list_elem_of_singleton. done.
Qed.

Lemma set_column_prefix c cols : cols `prefix_of` set_column c cols.
Proof.
  unfold set_column. case_decide; [done|]. by apply prefix_app_r.
Qed.

Lemma set_column_NoDup c cols : NoDup cols → NoDup (set_column c cols).
Proof.
  unfold set_column. intros Hnd. case_decide as Hc; [done|].
  apply NoDup_app. split_and!; [done| |apply NoDup_singleton].
  intros d Hd ->%list_elem_of_singleton. done.
Qed.
End preprocess_more.

(** X3.  Preprocessing stops exactly when a required column is missing
    from the upload, and what it reports then is the required columns
    that are not there: at least one, none twice.  When it goes through,
    all six required columns are there. *)
Theorem preprocess_required_columns
    (to_datetime : list value → nat → option Timestamp)
    (isocalendar_week : Timestamp → Z) (month_name : Timestamp → string)
    (month_of : Timestamp → Z) (raw : Raw.frame) :
  match preprocess to_datetime isocalendar_week month_name month_of raw with
  | inl missing =>
      missing ≠ [] ∧ NoDup missing
      ∧ ∀ c, c ∈ missing ↔ c ∈ required ∧ c ∉ Raw.columns raw
  | inr df => ∀ c, c ∈ required → c ∈ Raw.columns raw
  end.
Proof.
  unfold preprocess. case_decide as Hreq.
  - intros c Hc. rewrite Forall_forall in Hreq. by apply Hreq.
  - split_and!.
    + apply not_Forall_Exists in Hreq; [|apply _].
      apply Exists_exists in Hreq as (c & Hc & Hmiss). intros Hnil.
      assert (c ∈ filter (λ c, c ∉ Raw.columns raw) required) as Hin
        by (by apply list_elem_of_filter).
      rewrite Hnil in Hin. by apply elem_of_nil in Hin.
    + apply NoDup_filter. unfold required.
      apply (bool_decide_unpack _). by vm_compute.
    + intros c. rewrite list_elem_of_filter. tauto.
Qed.

(** X4.  After preprocessing every row has a start date, and its week
    number, month name and month number are there and are those of that
    start date. *)
Theorem preprocess_temporal_features
    (to_datetime : list value → nat → option Timestamp)
    (isocalendar_week : Timestamp → Z) (month_name : Timestamp → string)
    (month_of : Timestamp → Z) (raw : Raw.frame) (df : Emp.frame)
    (r : Emp.row) :
  preprocess to_datetime isocalendar_week month_name month_of raw = inr df →
  r ∈ Emp.rows df →
  ∃ t, Emp.start_date r = Some t
       ∧ Emp.week_number r = Some (isocalendar_week t)
       ∧ Emp.month r = Some (month_name t)
       ∧ Emp.month_number r = Some (month_of t).
Proof.
  intros ->%preprocess_rows
    (r' & -> & [[t Ht] _]%list_elem_of_filter)%list_elem_of_fmap.
  exists t. simpl. by rewrite Ht.
Qed.

(** X4 on the sample upload. *)
Lemma preprocess_temporal_features_witness :
  ∃ df r,
    preprocess Sample.to_datetime Sample.isocalendar_week Sample.month_name
      Sample.month_of Sample.overbooked = inr df
    ∧ r ∈ Emp.rows df
    ∧ ∃ t, Emp.start_date r = Some t
           ∧ Emp.week_number r = Some (Sample.isocalendar_week t)
           ∧ Emp.month r = Some (Sample.month_name t)
           ∧ Emp.month_number r = Some (Sample.month_of t).
Proof.
  destruct (preprocess Sample.to_datetime Sample.isocalendar_week
              Sample.month_name Sample.month_of Sample.overbooked)
    as [missing|df] eqn:Hdf; [by vm_compute in Hdf|].
  assert (∃ r, r ∈ Emp.rows df) as [r Hr].
  { pose proof Hdf as Hdf'. vm_compute in Hdf'. injection Hdf' as <-.
    eexists. left. }
  exists df, r. split; [done|]. split; [done|].
  exact (preprocess_temporal_features _ _ _ _ _ _ _ Hdf Hr).
Defined.

(** X5.  Preprocessing keeps exactly the rows whose start date parses
    as a cell of its column, in the order of the upload, and leaves their
    name, topic, work days, leave days and further cells as they were;
    the two date cells are the parsed dates, each of its own column. *)
Theorem preprocess_keeps_cells
    (to_datetime : list value → nat → option Timestamp)
    (isocalendar_week : Timestamp → Z) (month_name : Timestamp → string)
    (month_of : Timestamp → Z) (raw : Raw.frame) (df : Emp.frame) :
  preprocess to_datetime isocalendar_week month_name month_of raw = inr df →
  let start_date := to_datetime (Raw.start_date <$> Raw.rows raw) in
  let end_date := to_datetime (Raw.end_date <$> Raw.rows raw) in
  Forall2 (λ i r, ∃ x, Raw.rows raw !! i = Some x
                       ∧ Emp.name r = Raw.name x
                       ∧ Emp.topic r = Raw.topic x
                       ∧ Emp.work_days r = Raw.work_days x
                       ∧ Emp.leave_days r = Raw.leave_days x
                       ∧ Emp.other r = Raw.other x
                       ∧ Emp.start_date r = start_date i
                       ∧ Emp.end_date r = end_date i)
    (filter (λ i, is_Some (start_date i)) (seq 0 (length (Raw.rows raw))))
    (Emp.rows df).
Proof. apply preprocess_kept. Qed.

(** X5 on a column of start dates that begins with text: the integer in
    the second row, a date in a column of integers, is none here, and the
    row is dropped. *)
Lemma preprocess_keeps_cells_witness :
  ∃ df,
    preprocess Sample.to_datetime_first_format Sample.isocalendar_week
      Sample.month_name Sample.month_of Sample.text_then_integer = inr df
    ∧ Emp.name <$> Emp.rows df = [Some "Dana"%string]
    ∧ Emp.work_days <$> Emp.rows df = [Pd.Int64 1]
    ∧ Sample.to_datetime_first_format [PyInt 5] 0 = Some 5.
Proof.
  destruct (preprocess Sample.to_datetime_first_format
              Sample.isocalendar_week Sample.month_name Sample.month_of
              Sample.text_then_integer)
    as [missing|df] eqn:Hdf; [by vm_compute in Hdf|].
  pose proof (preprocess_keeps_cells _ _ _ _ _ _ Hdf) as Hkept.
  cbv zeta in Hkept.
  assert (filter (λ i, is_Some (Sample.to_datetime_first_format
                                  (Raw.start_date
                                   <$> Raw.rows Sample.text_then_integer) i))
            (seq 0 (length (Raw.rows Sample.text_then_integer)))
          = [0%nat]) as Hidx by (by vm_compute).
  rewrite Hidx in Hkept.
  apply Forall2_cons_inv_l in Hkept
    as (r & rows & (x & Hx & Hn & _ & Hw & _) & Hnil & Hrows).
  apply Forall2_nil_inv_l in Hnil as ->.
  injection Hx as <-.
  exists df. split; [done|]. rewrite Hrows. simpl. rewrite Hn, Hw.
  by split_and!.
Defined.

(** X6.  The columns of the preprocessed table are those of the upload,
    in their order, followed by whichever of [week_number], [month] and
    [month_number] the upload did not have; no column name is doubled. *)
Theorem preprocess_columns_kept
    (to_datetime : list value → nat → option Timestamp)
    (isocalendar_week : Timestamp → Z) (month_name : Timestamp → string)
    (month_of : Timestamp → Z) (raw : Raw.frame) (df : Emp.frame) :
  preprocess to_datetime isocalendar_week month_name month_of raw = inr df →
  Raw.columns raw `prefix_of` Emp.columns df
  ∧ (∀ c, c ∈ Emp.columns df ↔
          c ∈ Raw.columns raw
          ∨ c ∈ ["week_number"; "month"; "month_number"]%string)
  ∧ (NoDup (Raw.columns raw) → NoDup (Emp.columns df)).
Proof.
  unfold preprocess. case_decide; [|done]. intros [= <-]. simpl.
  split_and!.
  - etrans; [apply set_column_prefix|].
    etrans; apply set_column_prefix.
  - intros c. rewrite !set_column_elem_of, !elem_of_cons, elem_of_nil. tauto.
  - intros Hnd. by do 3 apply set_column_NoDup.
Qed.

(** X6 on the sample upload. *)
Lemma preprocess_columns_kept_witness :
  ∃ df,
    preprocess Sample.to_datetime Sample.isocalendar_week Sample.month_name
      Sample.month_of Sample.overbooked = inr df
    ∧ Raw.columns Sample.overbooked `prefix_of` Emp.columns df.
Proof.
  destruct (preprocess Sample.to_datetime Sample.isocalendar_week
              Sample.month_name Sample.month_of Sample.overbooked)
    as [missing|df] eqn:Hdf; [by vm_compute in Hdf|].
  exists df. split; [done|].
  exact (proj1 (preprocess_columns_kept _ _ _ _ _ _ Hdf)).
Defined.

(** ** Groups partition the rows that have a key *)
Lemma total_filter_or {R} (w : R → Z) (P Q : R → Prop)
    `{∀ r, Decision (P r), ∀ r, Decision (Q r)} (rows : list R) :
  (∀ r, P r → Q r → False) →
  Pd.total w (filter (λ r, P r ∨ Q r) rows)
  = Pd.total w (filter P rows) + Pd.total w (filter Q rows).
Proof.
  intros Hdisj. induction rows as [|r rows IH]; [done|].
  rewrite !filter_cons.
  destruct (decide (P r)) as [HP|HP], (decide (Q r)) as [HQ|HQ].
  - by destruct (Hdisj r).
  - rewrite decide_True by (by left). simpl. lia.
  - rewrite decide_True by (by right). simpl. lia.
  - rewrite decide_False by tauto. done.
Qed.

(** The sum of an int64 column over rows. *)
Lemma sum_total {R} (col : R → Pd.number) (rows : list R) :
  Forall (λ r, Pd.is_int64 (col r)) rows →
  Pd.sum (col <$> rows)
  = Pd.Int64 (Pd.wrap (Pd.total (λ r, Pd.int_of (col r)) rows)).
Proof.
  intros Hcol. rewrite sum_int64 by (by apply Forall_fmap).
  do 2 f_equal. clear Hcol.
  induction rows as [|r rows IH]; [done|]. simpl.
  apply (f_equal (Z.add _)). exact IH.
Qed.

(** The sum of a column of int64 cells, as an integer. *)
Lemma sum_int_total (col : list Pd.number) :
  Forall Pd.is_int64 col →
  Pd.sum col = Pd.Int64 (Pd.wrap (Pd.total Pd.int_of col)).
Proof.
  intros Hcol. rewrite <-(list_fmap_id col) at 1.
  apply (sum_total id). by rewrite Forall_forall in *.
Qed.

Lemma sum_is_int64 {R} (col : R → Pd.number) (rows : list R) :
  Forall (λ r, Pd.is_int64 (col r)) rows → Pd.is_int64 (Pd.sum (col <$> rows)).
Proof. intros Hcol. by rewrite sum_total. Qed.

Lemma Forall_filter {R} (P Q : R → Prop) `{∀ r, Decision (Q r)}
    (rows : list R) :
  Forall P rows → Forall P (filter Q rows).
Proof.
  rewrite !Forall_forall. intros Hall r [_ Hr]%list_elem_of_filter.
  by apply Hall.
Qed.

(** Weights that are not negative: a part weighs no more than the
    whole. *)
Lemma total_filter_mono {R} (w : R → Z) (P Q : R → Prop)
    `{∀ r, Decision (P r), ∀ r, Decision (Q r)} (rows : list R) :
  Forall (λ r, 0 ≤ w r) rows → (∀ r, P r → Q r) →
  0 ≤ Pd.total w (filter P rows) ≤ Pd.total w (filter Q rows).
Proof.
  intros Hw HPQ. induction Hw as [|r rows Hr _ IH]; [done|].
  rewrite !filter_cons.
  destruct (decide (P r)) as [HP|HP].
  - rewrite decide_True by (by apply HPQ). simpl. lia.
  - destruct (decide (Q r)); simpl; lia.
Qed.

Section totals.
Context {R K : Type} `{EqDecision K}.
Variable key : R → option K.
Implicit Types (rows : list R) (ks : list K) (w : R → Z).

(** Summed over distinct keys, the totals of the groups are the total of
    the rows that carry one of those keys. *)
Lemma total_groups w ks rows :
  NoDup ks →
  foldr Z.add 0 ((λ k, Pd.total w (Pd.group key k rows)) <$> ks)
  = Pd.total w (filter (λ r, key r ∈ Some <$> ks) rows).
Proof.
  induction 1 as [|k ks Hk Hnd IH].
  { symmetry. induction rows as [|r rows IHr]; [done|].
    rewrite filter_cons, decide_False; [done|]. apply not_elem_of_nil. }
  rewrite fmap_cons. cbn [foldr]. rewrite IH. unfold Pd.group.
  rewrite <-total_filter_or.
  - apply (f_equal (Pd.total w)), filter_ext_in. intros r _. cbn beta.
    change (Some <$> k :: ks) with (Some k :: (Some <$> ks)).
    split.
    + intros [->|Hin]; [by left|by right].
    + intros [?|?]%elem_of_cons; auto.
  - intros r Hr (k' & Hr' & Hk')%list_elem_of_fmap.
    rewrite Hr in Hr'. injection Hr' as <-. done.
Qed.

(** The rows that carry one of the keys of the table are the rows that
    carry a key. *)
Lemma filter_group_keys (le : relation K) `{!RelDecision le} rows :
  filter (λ r, key r ∈ Some <$> Pd.group_keys le key rows) rows
  = filter (λ r, is_Some (key r)) rows.
Proof.
  apply filter_ext_in. intros r Hr. split.
  - by intros (k & -> & _)%list_elem_of_fmap.
  - intros [k Hk]. rewrite Hk. apply list_elem_of_fmap_2.
    apply elem_of_group_keys. by exists r.
Qed.

(** Over all the groups of a table: the total of the rows with a key. *)
Lemma total_groupby (le : relation K) `{!RelDecision le} w rows :
  foldr Z.add 0 ((λ kg, Pd.total w kg.2) <$> Pd.groupby le key rows)
  = Pd.total w (filter (λ r, is_Some (key r)) rows).
Proof.
  unfold Pd.groupby. rewrite <-list_fmap_compose.
  etrans; [apply (total_groups w (Pd.group_keys le key rows)),
             NoDup_group_keys|].
  by rewrite filter_group_keys.
Qed.

(** On an int64 column the sums of groups with distinct keys add up,
    with the wrap-around of [sum] itself, to the sum over the rows that
    carry one of those keys. *)
Lemma sum_groups (col : R → Pd.number) ks rows :
  NoDup ks → Forall (λ r, Pd.is_int64 (col r)) rows →
  Pd.sum ((λ k, Pd.sum (col <$> Pd.group key k rows)) <$> ks)
  = Pd.sum (col <$> filter (λ r, key r ∈ Some <$> ks) rows).
Proof.
  intros Hnd Hcol.
  assert (∀ P : R → Prop, ∀ Pdec : ∀ r, Decision (P r),
            Forall (λ r, Pd.is_int64 (col r)) (filter P rows)) as Hsub.
  { intros P Pdec. apply Forall_forall. intros r [_ Hr]%list_elem_of_filter.
    rewrite Forall_forall in Hcol. by apply Hcol. }
  rewrite (sum_total col (filter _ rows)) by apply Hsub.
  rewrite <-(total_groups _ ks rows Hnd).
  assert ((λ k, Pd.sum (col <$> Pd.group key k rows)) <$> ks
          = Pd.Int64
            <$> (Pd.wrap
                 <$> ((λ k, Pd.total (λ r, Pd.int_of (col r))
                              (Pd.group key k rows)) <$> ks))) as ->.
  { rewrite <-!list_fmap_compose. apply list_fmap_ext. intros i k _.
    cbn [compose]. apply sum_total, Hsub. }
  rewrite sum_int64 by apply is_int64_Int64.
  rewrite <-list_fmap_compose.
  rewrite (list_fmap_ext (Pd.int_of ∘ Pd.Int64) id) by done.
  by rewrite list_fmap_id, wrap_sum_wrap.
Qed.

(** Over all the groups of a table. *)
Lemma sum_groupby (le : relation K) `{!RelDecision le}
    (col : R → Pd.number) rows :
  Forall (λ r, Pd.is_int64 (col r)) rows →
  Pd.sum ((λ kg, Pd.sum (col <$> kg.2)) <$> Pd.groupby le key rows)
  = Pd.sum (col <$> filter (λ r, is_Some (key r)) rows).
Proof.
  intros Hcol. unfold Pd.groupby. rewrite <-list_fmap_compose.
  etrans; [apply (sum_groups col (Pd.group_keys le key rows)); [|done];
           apply NoDup_group_keys|].
  by rewrite filter_group_keys.
Qed.

(** The sums of the groups of an int64 column are int64 and add up, in
    int64 arithmetic (modulo 2^64), to the sum of the column over the
    rows with a key.  When no cell is negative and the sum of the column
    fits an int64, nothing wraps and they add up to exactly that sum. *)
Lemma groupby_totals (le : relation K) `{!RelDecision le}
    (col : R → Pd.number) rows :
  Forall (λ r, Pd.is_int64 (col r)) rows →
  let totals := (λ kg, Pd.sum (col <$> kg.2)) <$> Pd.groupby le key rows in
  let column := Pd.total (λ r, Pd.int_of (col r))
                  (filter (λ r, is_Some (key r)) rows) in
  Forall Pd.is_int64 totals
  ∧ Pd.wrap (Pd.total Pd.int_of totals) = Pd.wrap column
  ∧ (Forall (λ r, 0 ≤ Pd.int_of (col r)) rows →
     Pd.in_int64 column → Pd.total Pd.int_of totals = column).
Proof.
  intros Hint totals column.
  assert (Forall Pd.is_int64 totals) as Htotals.
  { apply Forall_fmap, Forall_forall.
    intros [k g] [_ ->]%elem_of_groupby. simpl.
    by apply sum_is_int64, Forall_filter. }
  split_and!; [done| |].
  - pose proof (sum_groupby le col rows Hint) as Hsum.
    fold totals in Hsum. rewrite sum_int_total in Hsum by done.
    rewrite sum_total in Hsum by (by apply Forall_filter).
    by injection Hsum.
  - intros Hpos Hfit. unfold column.
    rewrite <-(total_groupby le). unfold totals, Pd.groupby.
    rewrite <-!list_fmap_compose.
    induction (Pd.group_keys le key rows) as [|k l IH]; [done|].
    rewrite !fmap_cons. cbn [Pd.total foldr compose snd]. rewrite <-IH.
    apply (f_equal (λ z, z + _)).
    rewrite sum_total by (by apply Forall_filter). cbn [Pd.int_of].
    apply wrap_in_range.
    pose proof (total_filter_mono (λ r, Pd.int_of (col r))
                  (λ r, key r = Some k) (λ r, is_Some (key r))
                  rows Hpos) as Hle.
    fold column in Hle.
    assert (∀ r, key r = Some k → is_Some (key r)) as Hk
      by (intros r ->; by eexists).
    specialize (Hle Hk). unfold Pd.in_int64 in *. unfold Pd.group.
    unfold Pd.total in Hle at 1 2. lia.
Qed.
End totals.

Lemma count_total {R A} (col : R → option A) (rows : list R) :
  Pd.count (col <$> rows)
  = Pd.total (λ r, if col r is Some _ then 1 else 0) rows.
Proof.
  unfold Pd.count, Pd.present.
  induction rows as [|r rows IH]; [done|]. simpl.
  destruct (col r); simpl; [|exact IH].
  rewrite Nat2Z.inj_succ, <-Z.add_1_l.
  apply (f_equal (Z.add 1)). exact IH.
Qed.

Lemma length_unique `{EqDecision A} (l : list A) :
  (length (Pd.unique l) ≤ length l)%nat.
Proof.
  induction l as [|x l IH]; simpl; [done|].
  apply le_n_S. etrans; [apply length_filter|exact IH].
Qed.

Lemma length_present {A} (col : list (option A)) :
  (length (Pd.present col) ≤ length col)%nat.
Proof.
  unfold Pd.present. induction col as [|[x|] col IH]; simpl; [done|..].
  - apply le_n_S, IH.
  - apply Nat.le_le_succ_r, IH.
Qed.

(** Distinct values are no more than present cells, and those no more
    than rows. *)
Lemma nunique_count_length `{EqDecision A} (col : list (option A)) :
  0 ≤ Pd.nunique col ≤ Pd.count col
  ∧ Pd.count col ≤ Z.of_nat (length col).
Proof.
  unfold Pd.nunique, Pd.count.
  pose proof (length_unique (Pd.present col)).
  pose proof (length_present col). lia.
Qed.

Lemma nunique_pos `{EqDecision A} (col : list (option A)) x :
  Some x ∈ col → 1 ≤ Pd.nunique col.
Proof.
  intros Hx. unfold Pd.nunique.
  assert (x ∈ Pd.unique (Pd.present col)) as Hin.
  { apply elem_of_unique, list_elem_of_omap. by exists (Some x). }
  destruct (Pd.unique (Pd.present col)); [by apply elem_of_nil in Hin|].
  simpl. lia.
Qed.

Lemma count_filter {R A} (col : R → option A) (g : list R) :
  Pd.count (col <$> g)
  = Z.of_nat (length (filter (λ r, is_Some (col r)) g)).
Proof.
  unfold Pd.count, Pd.present. apply (f_equal Z.of_nat).
  induction g as [|r g IH]; [done|].
  rewrite fmap_cons, filter_cons.
  destruct (decide (is_Some (col r))) as [[t Ht]|Hn].
  - rewrite Ht. simpl. apply (f_equal S). exact IH.
  - destruct (col r) as [t|]; [by destruct Hn|]. exact IH.
Qed.

(** The rows with a present cell, counted among the rows that pass a
    test. *)
Lemma total_present {R A} (col : R → option A) (P : R → Prop)
    `{∀ r, Decision (P r)} (rows : list R) :
  Pd.total (λ r, if col r is Some _ then 1 else 0) (filter P rows)
  = Z.of_nat (length (filter (λ r, P r ∧ is_Some (col r)) rows)).
Proof.
  induction rows as [|r rows IH]; [done|]. rewrite !filter_cons.
  destruct (decide (P r)) as [HP|HP].
  - simpl. rewrite IH. destruct (col r) as [x|] eqn:Hx.
    + rewrite decide_True by (split; [done|by eexists]).
      simpl length. lia.
    + rewrite decide_False; [lia|]. intros [_ [? ?]]. done.
  - rewrite decide_False by tauto. exact IH.
Qed.

(** X7.  The weekly [ppt_count] counts entries, not topics.  In every
    weekly row it is the number of entries of the group that have a
    topic, hence at most the size of the group, and the target is met
    exactly from six such entries on; over the whole table the counts add
    up to the number of entries that have a name, a week number and a
    topic. *)
Theorem weekly_ppt_count_entries (df : Emp.frame) :
  (∀ w, w ∈ weekly_summary df →
     let g := filter (λ r, Emp.name r = Some (Weekly.name w)
                           ∧ Emp.week_number r
                             = Some (Weekly.week_number w))
                (Emp.rows df) in
     let with_topic := filter (λ r, is_Some (Emp.topic r)) g in
     Weekly.ppt_count w = Z.of_nat (length with_topic)
     ∧ 0 ≤ Weekly.ppt_count w ≤ Z.of_nat (length g)
     ∧ (Weekly.target_met w = true ↔ (6 ≤ length with_topic)%nat))
  ∧ foldr Z.add 0 (Weekly.ppt_count <$> weekly_summary df)
    = Z.of_nat (length (filter (λ r, (is_Some (Emp.name r)
                                      ∧ is_Some (Emp.week_number r))
                                     ∧ is_Some (Emp.topic r))
                          (Emp.rows df))).
Proof.
  split.
  - intros w Hw g with_topic.
    destruct (weekly_summary_row df w Hw) as (_ & _ & _ & Hppt & _ & Hmet).
    fold g in Hppt.
    assert (Weekly.ppt_count w = Z.of_nat (length with_topic)) as Hcount
      by (rewrite Hppt; apply count_filter).
    split_and!; [done| | |].
    + lia.
    + rewrite Hcount.
      pose proof (length_filter (λ r, is_Some (Emp.topic r)) g) as Hlen.
      fold with_topic in Hlen. lia.
    + rewrite Hmet, bool_decide_eq_true, Hcount. lia.
  - unfold weekly_summary. rewrite <-list_fmap_compose.
    etrans; [|etrans;
      [apply (total_groupby name_week name_week_le
                (λ r, if Emp.topic r is Some _ then 1 else 0)
                (Emp.rows df))|]].
    + f_equal. apply list_fmap_ext. intros i [k g] _. simpl.
      apply count_total.
    + rewrite total_present. do 2 f_equal. apply filter_ext_in.
      intros r _. unfold name_week.
      destruct (Emp.name r), (Emp.week_number r); simpl;
        split; intros [H1 H2]; split; try done;
        try (by destruct H1 as [[? ?] [? ?]]);
        try (by destruct H1 as [? ?]).
      all: by split.
Qed.

(** ** Overall Statistics (lines 103-107) *)
Lemma summary_row (df : Emp.frame) (o : Overall.row) :
  o ∈ summary df →
  let g := filter (λ r, Emp.name r = Some (Overall.name o)) (Emp.rows df) in
  g ≠ []
  ∧ Overall.total_work_days o = Pd.sum (Emp.work_days <$> g)
  ∧ Overall.total_leave_days o = Pd.sum (Emp.leave_days <$> g)
  ∧ Overall.total_ppt_count o = Pd.nunique (Emp.topic <$> g).
Proof.
  unfold summary.
  intros ([n g'] & -> & [Hk ->]%elem_of_groupby)%list_elem_of_fmap.
  simpl. split_and!; try done. by apply group_nonempty.
Qed.

(** X8.  Every row of the overall table belongs to the entries of its
    name, of which there is at least one.  Its count of distinct topics
    lies between 0 and the number of those entries and is at least 1 as
    soon as one of them has a topic.  When the work days of those entries
    are whole numbers, the row's total is their sum wrapped into the
    int64 range, hence their sum whenever that fits; likewise for the
    leave days. *)
Theorem overall_summary_rows (df : Emp.frame) (o : Overall.row) :
  o ∈ summary df →
  let g := filter (λ r, Emp.name r = Some (Overall.name o)) (Emp.rows df) in
  let work := Pd.total (λ r, Pd.int_of (Emp.work_days r)) g in
  let leave := Pd.total (λ r, Pd.int_of (Emp.leave_days r)) g in
  g ≠ []
  ∧ Overall.total_ppt_count o
    = Z.of_nat (length (Pd.unique (omap Emp.topic g)))
  ∧ 0 ≤ Overall.total_ppt_count o ≤ Z.of_nat (length g)
  ∧ (∀ r t, r ∈ g → Emp.topic r = Some t → 1 ≤ Overall.total_ppt_count o)
  ∧ (Forall (λ r, Pd.is_int64 (Emp.work_days r)) g →
     Overall.total_work_days o = Pd.Int64 (Pd.wrap work)
     ∧ (Pd.in_int64 work → Overall.total_work_days o = Pd.Int64 work))
  ∧ (Forall (λ r, Pd.is_int64 (Emp.leave_days r)) g →
     Overall.total_leave_days o = Pd.Int64 (Pd.wrap leave)
     ∧ (Pd.in_int64 leave → Overall.total_leave_days o = Pd.Int64 leave)).
Proof.
  intros Ho g work leave.
  destruct (summary_row df o Ho) as (Hne & Hwd & Hld & Hppt).
  fold g in Hne, Hwd, Hld, Hppt. split_and!; try done.
  - rewrite Hppt. unfold Pd.nunique, Pd.present. by rewrite omap_id_fmap.
  - rewrite Hppt. apply nunique_count_length.
  - destruct (nunique_count_length (Emp.topic <$> g)) as [? Hc].
    rewrite length_fmap in Hc. rewrite Hppt. lia.
  - intros r t Hr Ht. rewrite Hppt. apply (nunique_pos _ t).
    rewrite <-Ht. by apply list_elem_of_fmap_2.
  - intros Hint. rewrite Hwd, sum_total by done. split; [done|].
    intros Hfit. by rewrite wrap_in_range.
  - intros Hint. rewrite Hld, sum_total by done. split; [done|].
    intros Hfit. by rewrite wrap_in_range.
Qed.

(** X8 on two entries of Alice with 2^63 - 1 work days each: the total
    wraps to -2. *)
Lemma overall_summary_rows_witness :
  ∃ o, o ∈ summary Sample.large_work_days
       ∧ Overall.total_work_days o = Pd.Int64 (-2)
       ∧ Overall.total_leave_days o = Pd.Int64 0.
Proof.
  assert (∃ o, o ∈ summary Sample.large_work_days
               ∧ Overall.name o = "Alice"%string) as (o & Ho & Hn)
    by (eexists; split; [vm_compute; left|done]).
  exists o. split; [done|].
  destruct (overall_summary_rows Sample.large_work_days o Ho)
    as (_ & _ & _ & _ & Hwork & Hleave).
  rewrite Hn in Hwork, Hleave. split.
  - destruct Hwork as [-> _]; [|by vm_compute].
    apply (bool_decide_unpack _). by vm_compute.
  - destruct Hleave as [-> _]; [|by vm_compute].
    apply (bool_decide_unpack _). by vm_compute.
Defined.

(** X9.  On an int64 column the overall table accounts for every entry
    that has a name, once: the totals of its rows are int64, and in int64
    arithmetic (modulo 2^64) they add up to the sum of the column over
    those entries; entries without a name are in no row.  When no cell is
    negative and the sum of the column fits an int64, nothing wraps and
    the totals add up to exactly that sum.  This holds for the work days
    and for the leave days. *)
Theorem summary_totals (df : Emp.frame) :
  let named := filter (λ r, is_Some (Emp.name r)) (Emp.rows df) in
  let adds_up (col : Emp.row → Pd.number) (totals : list Pd.number) :=
    Forall (λ r, Pd.is_int64 (col r)) (Emp.rows df) →
    Forall Pd.is_int64 totals
    ∧ Pd.wrap (Pd.total Pd.int_of totals)
      = Pd.wrap (Pd.total (λ r, Pd.int_of (col r)) named)
    ∧ (Forall (λ r, 0 ≤ Pd.int_of (col r)) (Emp.rows df) →
       Pd.in_int64 (Pd.total (λ r, Pd.int_of (col r)) named) →
       Pd.total Pd.int_of totals
       = Pd.total (λ r, Pd.int_of (col r)) named) in
  adds_up Emp.work_days (Overall.total_work_days <$> summary df)
  ∧ adds_up Emp.leave_days (Overall.total_leave_days <$> summary df).
Proof.
  intros named adds_up. unfold adds_up, summary.
  rewrite <-!list_fmap_compose. split; intros Hint.
  - rewrite (list_fmap_ext _ (λ kg, Pd.sum (Emp.work_days <$> kg.2)))
      by (by intros i [k g] _).
    by apply (groupby_totals Emp.name String.le Emp.work_days).
  - rewrite (list_fmap_ext _ (λ kg, Pd.sum (Emp.leave_days <$> kg.2)))
      by (by intros i [k g] _).
    by apply (groupby_totals Emp.name String.le Emp.leave_days).
Qed.

(** X9 on the two entries of Alice with 2^63 - 1 work days each, and on
    the leave days of the same table, which are all 0. *)
Lemma summary_totals_witness :
  Pd.wrap (Pd.total Pd.int_of
             (Overall.total_work_days <$> summary Sample.large_work_days))
  = -2
  ∧ Pd.total Pd.int_of
      (Overall.total_leave_days <$> summary Sample.large_work_days)
    = 0.
Proof.
  destruct (summary_totals Sample.large_work_days) as [Hwork Hleave].
  split.
  - destruct Hwork as (_ & -> & _); [|by vm_compute].
    apply (bool_decide_unpack _). by vm_compute.
  - destruct Hleave as (_ & _ & Hexact).
    + apply (bool_decide_unpack _). by vm_compute.
    + rewrite Hexact; [by vm_compute| |].
      * apply (bool_decide_unpack _). by vm_compute.
      * unfold Pd.in_int64. by vm_compute.
Defined.

(** X10.  When every entry has a week number, the overall row of a name
    sums up the weekly rows of that name: on an int64 column the weekly
    totals are int64 and the overall total is their sum in int64
    arithmetic, and the overall count of distinct topics is at most the
    sum of the weekly counts. *)
Theorem overall_is_sum_of_weekly (df : Emp.frame) (o : Overall.row) :
  (∀ r, r ∈ Emp.rows df → is_Some (Emp.week_number r)) →
  o ∈ summary df →
  let weeks := filter (λ w, Weekly.name w = Overall.name o)
                 (weekly_summary df) in
  (Forall (λ r, Pd.is_int64 (Emp.work_days r)) (Emp.rows df) →
   Forall Pd.is_int64 (Weekly.total_work_days <$> weeks)
   ∧ Overall.total_work_days o
     = Pd.Int64 (Pd.wrap (Pd.total Pd.int_of
                            (Weekly.total_work_days <$> weeks))))
  ∧ (Forall (λ r, Pd.is_int64 (Emp.leave_days r)) (Emp.rows df) →
     Forall Pd.is_int64 (Weekly.total_leave_days <$> weeks)
     ∧ Overall.total_leave_days o
       = Pd.Int64 (Pd.wrap (Pd.total Pd.int_of
                              (Weekly.total_leave_days <$> weeks))))
  ∧ Overall.total_ppt_count o ≤ foldr Z.add 0 (Weekly.ppt_count <$> weeks).
Proof.
  intros Hweek Ho weeks.
  destruct (summary_row df o Ho) as (_ & Hwd & Hld & Hppt).
  set (n := Overall.name o) in *.
  set (ks := filter (λ k : string * Z, k.1 = n)
               (Pd.group_keys name_week_le name_week (Emp.rows df))).
  assert (NoDup ks) as Hnd by apply NoDup_filter, NoDup_group_keys.
  assert (filter (λ r, name_week r ∈ Some <$> ks) (Emp.rows df)
          = filter (λ r, Emp.name r = Some n) (Emp.rows df)) as Hrows.
  { apply filter_ext_in. intros r Hr. split.
    - intros ([k wk] & Hk & [Hn _]%list_elem_of_filter)%list_elem_of_fmap.
      unfold name_week in Hk. simpl in Hn. subst k.
      destruct (Emp.name r); simpl in Hk; [|done].
      destruct (Emp.week_number r); simpl in Hk; [|done]. congruence.
    - intros Hn. destruct (Hweek r Hr) as [wk Hwk].
      apply (list_elem_of_fmap_2' _ _ (n, wk)).
      + apply list_elem_of_filter. split; [done|].
        apply elem_of_group_keys. exists r. split; [done|].
        unfold name_week. by rewrite Hn, Hwk.
      + unfold name_week. by rewrite Hn, Hwk. }
  assert (∀ {B} (col : Weekly.row → B),
            col <$> weeks
            = (λ k, col (let '(k, g)
                           := (k, Pd.group name_week k (Emp.rows df)) in
                         {| Weekly.name := k.1;
                            Weekly.week_number := k.2;
                            Weekly.total_work_days :=
                              Pd.sum (Emp.work_days <$> g);
                            Weekly.total_leave_days :=
                              Pd.sum (Emp.leave_days <$> g);
                            Weekly.ppt_count := Pd.count (Emp.topic <$> g);
                            Weekly.weekly_target := 6;
                            Weekly.target_met :=
                              bool_decide (6 ≤ Pd.count (Emp.topic <$> g)) |}))
              <$> ks) as Hweeks.
  { intros B col. unfold weeks, weekly_summary, Pd.groupby.
    by rewrite <-list_fmap_compose, filter_fmap, <-list_fmap_compose. }
  assert (∀ col : Emp.row → Pd.number,
            Forall (λ r, Pd.is_int64 (col r)) (Emp.rows df) →
            Forall Pd.is_int64
              ((λ k, Pd.sum (col <$> Pd.group name_week k (Emp.rows df)))
               <$> ks)) as Hint64.
  { intros col Hint. apply Forall_fmap, Forall_forall. intros k _.
    by apply sum_is_int64, Forall_filter. }
  split_and!.
  - intros Hint. rewrite Hweeks. cbn beta iota zeta.
    cbn [Weekly.total_work_days]. split; [by apply Hint64|].
    rewrite <-sum_int_total by (by apply Hint64).
    rewrite Hwd, <-Hrows. symmetry.
    by apply (sum_groups name_week Emp.work_days).
  - intros Hint. rewrite Hweeks. cbn beta iota zeta.
    cbn [Weekly.total_leave_days]. split; [by apply Hint64|].
    rewrite <-sum_int_total by (by apply Hint64).
    rewrite Hld, <-Hrows. symmetry.
    by apply (sum_groups name_week Emp.leave_days).
  - rewrite Hppt, Hweeks.
    etrans; [|apply Z.eq_le_incl; symmetry;
              etrans; [|apply (total_groups name_week
                          (λ r, if Emp.topic r is Some _ then 1 else 0)
                          ks (Emp.rows df) Hnd)]].
    + rewrite Hrows, <-count_total. apply nunique_count_length.
    + f_equal. apply list_fmap_ext. intros i k _. simpl. apply count_total.
Qed.

(** X10 on two weeks of Alice with 2^63 - 1 work days each: the weekly
    totals are 2^63 - 1 and the overall total is their wrapped sum. *)
Lemma overall_is_sum_of_weekly_witness :
  ∃ o, o ∈ summary Sample.large_work_days
       ∧ Weekly.total_work_days <$> weekly_summary Sample.large_work_days
         = [Pd.Int64 (2 ^ 63 - 1); Pd.Int64 (2 ^ 63 - 1)]
       ∧ Overall.total_work_days o = Pd.Int64 (-2).
Proof.
  assert (∃ o, o ∈ summary Sample.large_work_days
               ∧ Overall.name o = "Alice"%string) as (o & Ho & Hn)
    by (eexists; split; [vm_compute; left|done]).
  exists o. split; [done|]. split; [by vm_compute|].
  destruct (overall_is_sum_of_weekly Sample.large_work_days o)
    as (Hwork & _ & _).
  - intros r Hr. vm_compute in Hr.
    repeat (apply elem_of_cons in Hr as [->|Hr]; [by eexists|]).
    by apply elem_of_nil in Hr.
  - done.
  - destruct Hwork as [_ ->]; [|rewrite Hn; by vm_compute].
    apply (bool_decide_unpack _). by vm_compute.
Defined.

(** X11.  When every entry has a week number, a monthly row counts at
    least one week and at most as many weeks as it has entries, so its
    target is at least 6; its count of distinct topics is at most the
    number of its entries, and the target can only be met with six
    entries per counted week. *)
Theorem monthly_summary_bounds (df : Emp.frame) (m : Monthly.row) :
  (∀ r, r ∈ Emp.rows df → is_Some (Emp.week_number r)) →
  m ∈ monthly_summary df →
  let g := filter (λ r, Emp.name r = Some (Monthly.name m)
                        ∧ Emp.month r = Some (Monthly.month m)
                        ∧ Emp.month_number r = Some (Monthly.month_number m))
             (Emp.rows df) in
  1 ≤ Monthly.unique_weeks m ≤ Z.of_nat (length g)
  ∧ 6 ≤ Monthly.monthly_target m
  ∧ 0 ≤ Monthly.ppt_count m ≤ Z.of_nat (length g)
  ∧ (Monthly.target_met m = true →
     6 * Monthly.unique_weeks m ≤ Z.of_nat (length g)).
Proof.
  intros Hweek Hm g.
  destruct (monthly_summary_row df m Hm)
    as (Hne & _ & _ & Hppt & Hweeks & Htarget & Hmet).
  fold g in Hne, Hppt, Hweeks.
  pose proof (nunique_count_length (Emp.week_number <$> g)) as [Hw1 Hw2].
  pose proof (nunique_count_length (Emp.topic <$> g)) as [Ht1 Ht2].
  rewrite length_fmap in Hw2. rewrite length_fmap in Ht2.
  assert (1 ≤ Monthly.unique_weeks m) as Hpos.
  { destruct g as [|r g'] eqn:Hg; [done|].
    assert (r ∈ Emp.rows df) as Hr.
    { assert (r ∈ g) as Hin by (rewrite Hg; by left).
      by apply list_elem_of_filter in Hin as [_ ?]. }
    destruct (Hweek r Hr) as [wk Hwk]. rewrite Hweeks.
    apply (nunique_pos _ wk). rewrite fmap_cons, Hwk. by left. }
  split_and!; try lia.
  intros Hmet'. rewrite Hmet in Hmet'. apply bool_decide_eq_true in Hmet'.
  lia.
Qed.

(** X11 on the sample. *)
Lemma monthly_summary_bounds_witness :
  ∃ m, m ∈ monthly_summary Sample.bob_then_alice
       ∧ 6 ≤ Monthly.monthly_target m.
Proof.
  assert (∃ m, m ∈ monthly_summary Sample.bob_then_alice) as [m Hm]
    by (eexists; vm_compute; left).
  exists m. split; [done|].
  refine (proj1 (proj2 (monthly_summary_bounds Sample.bob_then_alice m _ Hm))).
  intros r Hr. vm_compute in Hr.
  repeat (apply elem_of_cons in Hr as [->|Hr]; [by eexists|]).
  by apply elem_of_nil in Hr.
Defined.

(** ** Attendance (lines 123-139) *)

(** X12.  On a preprocessed table every attendance row stands for at
    least one day, and the [total_days] of all rows add up to the number
    of entries that have a name: each such entry is counted in exactly one
    row, entries without a name in none. *)
Theorem attendance_counts_entries
    (to_datetime : list value → nat → option Timestamp)
    (isocalendar_week : Timestamp → Z) (month_name : Timestamp → string)
    (month_of : Timestamp → Z) (raw : Raw.frame) (df : Emp.frame) :
  preprocess to_datetime isocalendar_week month_name month_of raw = inr df →
  (∀ a, a ∈ attendance df → 1 ≤ Attendance.total_days a)
  ∧ foldr Z.add 0 (Attendance.total_days <$> attendance df)
    = Z.of_nat (length (filter (λ r, is_Some (Emp.name r)) (Emp.rows df))).
Proof.
  intros Hdf.
  assert (∀ r, r ∈ Emp.rows df →
               is_Some (Emp.start_date r) ∧ is_Some (Emp.month r)) as Hinv.
  { intros r. rewrite (preprocess_rows _ _ _ _ _ _ Hdf).
    intros (r' & -> & [[t Ht] _]%list_elem_of_filter)%list_elem_of_fmap.
    simpl. rewrite Ht. by split. }
  split.
  - intros a Ha.
    destruct (attendance_row df a Ha) as (Hne & Htotal & _).
    rewrite Htotal, count_all_present, length_fmap.
    + destruct (filter _ _); [done|]. simpl. lia.
    + apply Forall_fmap, Forall_forall.
      intros r [_ Hr]%list_elem_of_filter. by apply Hinv.
  - unfold attendance. rewrite <-list_fmap_compose.
    etrans; [|etrans;
      [apply (total_groupby name_month name_month_le
                (λ r, if Emp.start_date r is Some _ then 1 else 0)
                (Emp.rows df))|]].
    + f_equal. apply list_fmap_ext. intros i [k g] _. simpl.
      apply count_total.
    + rewrite (filter_ext_in _ (λ r, is_Some (Emp.name r))).
      * assert (Forall (λ r, is_Some (Emp.start_date r))
                  (filter (λ r, is_Some (Emp.name r)) (Emp.rows df))) as Hall.
        { apply Forall_forall. intros r [_ Hr]%list_elem_of_filter.
          by apply Hinv. }
        induction Hall as [|r l [t Ht] _ IH]; [done|].
        simpl. rewrite Ht, IH. lia.
      * intros r Hr. destruct (Hinv r Hr) as [_ [mo Hmo]].
        unfold name_month. rewrite Hmo.
        destruct (Emp.name r); simpl; split; by eauto.
Qed.

(** X12 on the sample upload. *)
Lemma attendance_counts_entries_witness :
  ∃ df,
    preprocess Sample.to_datetime Sample.isocalendar_week Sample.month_name
      Sample.month_of Sample.with_bad_end_dates = inr df
    ∧ foldr Z.add 0 (Attendance.total_days <$> attendance df) = 2.
Proof.
  destruct (preprocess Sample.to_datetime Sample.isocalendar_week
              Sample.month_name Sample.month_of Sample.with_bad_end_dates)
    as [missing|df] eqn:Hdf; [by vm_compute in Hdf|].
  exists df. split; [done|].
  rewrite (proj2 (attendance_counts_entries _ _ _ _ _ _ Hdf)).
  vm_compute in Hdf. injection Hdf as <-. by vm_compute.
Defined.

(** X13.  The row lookup of the drill-down fails, and then with
    [IndexError], exactly when no row of the table has the selected
    name; with nothing selected it always fails.  When it returns a row,
    that row is in the table and has the selected name. *)
Theorem emp_att_error (attendance : list Attendance.row) (emp : option string) :
  (emp_att attendance emp = Raise IndexError ↔
   ∀ a, a ∈ attendance → emp ≠ Some (Attendance.name a))
  ∧ (∀ e, emp_att attendance emp = Raise e → e = IndexError)
  ∧ (∀ a, emp_att attendance emp = Ok a →
          a ∈ attendance ∧ emp = Some (Attendance.name a))
  ∧ emp_att attendance None = Raise IndexError
  ∧ pie_data [] emp = Raise IndexError.
Proof.
  unfold emp_att. split_and!.
  - destruct (filter _ attendance) as [|a l] eqn:Hf.
    + split; [|done]. intros _ a Ha Hemp.
      assert (a ∈ filter (λ a, emp = Some (Attendance.name a)) attendance)
        as Hin by (by apply list_elem_of_filter).
      rewrite Hf in Hin. by apply elem_of_nil in Hin.
    + split; [done|]. intros Hno.
      assert (a ∈ filter (λ a, emp = Some (Attendance.name a)) attendance)
        as [Ha Hin]%list_elem_of_filter by (rewrite Hf; by left).
      by destruct (Hno a Hin).
  - intros e. destruct (filter _ attendance); [|done]. by intros [= <-].
  - intros a. destruct (filter _ attendance) as [|a' l] eqn:Hf; [done|].
    intros [= ->].
    assert (a ∈ filter (λ a, emp = Some (Attendance.name a)) attendance)
      as [Ha Hin]%list_elem_of_filter by (rewrite Hf; by left).
    done.
  - induction attendance as [|a l IH]; [done|].
    by rewrite filter_cons, decide_False.
  - done.
Qed.

(** X14.  An upload in which no start date parses leaves nothing: the
    preprocessed table and the weekly, monthly, overall and attendance
    tables are all empty, the employee select box has nothing to offer,
    and the attendance drill-down fails with [IndexError] whatever is
    selected. *)
Theorem nothing_parses
    (to_datetime : list value → nat → option Timestamp)
    (isocalendar_week : Timestamp → Z) (month_name : Timestamp → string)
    (month_of : Timestamp → Z) (raw : Raw.frame) (df : Emp.frame) :
  preprocess to_datetime isocalendar_week month_name month_of raw = inr df →
  (∀ i, (i < length (Raw.rows raw))%nat →
        to_datetime (Raw.start_date <$> Raw.rows raw) i = None) →
  Emp.rows df = []
  ∧ weekly_summary df = [] ∧ monthly_summary df = []
  ∧ summary df = [] ∧ attendance df = []
  ∧ emp_options (attendance df) = []
  ∧ ∀ emp, pie_data (attendance df) emp = Raise IndexError.
Proof.
  intros Hdf Hnone.
  assert (Emp.rows df = []) as Hrows.
  { apply length_zero_iff_nil.
    rewrite (preprocess_length _ _ _ _ _ _ Hdf).
    apply length_zero_iff_nil, elem_of_nil_inv.
    intros i [Hi Hin]%list_elem_of_filter. apply elem_of_seq in Hin.
    rewrite Hnone in Hi by lia. by destruct Hi. }
  unfold weekly_summary, monthly_summary, summary, attendance.
  rewrite Hrows. done.
Qed.

(** X14 on an upload whose only start date is text. *)
Lemma nothing_parses_witness :
  let raw := {| Raw.columns := Sample.raw_columns;
                Raw.rows :=
                  [Sample.raw_entry "Dana" "Audit" (PyStr "n/a") (PyInt 1) 1]
             |} in
  ∃ df,
    preprocess Sample.to_datetime Sample.isocalendar_week Sample.month_name
      Sample.month_of raw = inr df
    ∧ attendance df = []
    ∧ pie_data (attendance df) None = Raise IndexError.
Proof.
  intros raw.
  destruct (preprocess Sample.to_datetime Sample.isocalendar_week
              Sample.month_name Sample.month_of raw)
    as [missing|df] eqn:Hdf; [by vm_compute in Hdf|].
  exists df. split; [done|].
  destruct (nothing_parses _ _ _ _ raw df Hdf)
    as (_ & _ & _ & _ & Ha & _ & Hp).
  { intros [|i] Hi; [done|]. simpl in Hi. lia. }
  split; [exact Ha|apply Hp].
Defined.

Lemma StronglySorted_filter {A} (R : relation A) (P : A → Prop)
    `{∀ x, Decision (P x)} (l : list A) :
  StronglySorted R l → StronglySorted R (filter P l).
Proof.
  induction 1 as [|x l Hs IH Hall]; [constructor|].
  rewrite filter_cons. destruct (decide (P x)); [|done].
  constructor; [done|].
  apply Forall_forall. intros y [_ Hy]%list_elem_of_filter.
  rewrite Forall_forall in Hall. by apply Hall.
Qed.

(** The distinct values of a sorted column come out strictly sorted. *)
Lemma unique_sorted `{EqDecision A} (le : relation A) (l : list A) :
  StronglySorted le l → StronglySorted (Pd.strict_of le) (Pd.unique l).
Proof.
  induction 1 as [|x l Hs IH Hall]; simpl; constructor.
  - by apply StronglySorted_filter.
  - apply Forall_forall.
    intros y [Hne Hy]%list_elem_of_filter.
    apply (proj1 (elem_of_unique _ _)) in Hy. split.
    + rewrite Forall_forall in Hall. by apply Hall.
    + by intros ->.
Qed.

(** X15.  The employee select box offers every name that occurs in an
    entry with a month, each once, in ascending order. *)
Theorem emp_options_sorted (df : Emp.frame) :
  StronglySorted (Pd.strict_of String.le) (emp_options (attendance df))
  ∧ ∀ n, n ∈ emp_options (attendance df) ↔
         ∃ r, r ∈ Emp.rows df ∧ Emp.name r = Some n ∧ is_Some (Emp.month r).
Proof.
  unfold emp_options.
  assert (Attendance.name <$> attendance df
          = fst <$> Pd.group_keys name_month_le name_month (Emp.rows df))
    as ->.
  { rewrite <-attendance_keys, <-list_fmap_compose. done. }
  split.
  - apply unique_sorted.
    apply (StronglySorted_fmap _ (Pd.strict_of name_month_le)).
    + intros [n1 m1] [n2 m2] [Hle _]. unfold name_month_le, Pd.lex_le in Hle.
      simpl in *. case_decide; [by subst|done].
    + apply group_keys_sorted; apply _.
  - intros n. rewrite elem_of_unique, list_elem_of_fmap. split.
    + intros ([n' mo] & -> & (r & Hr & Hk)%elem_of_group_keys).
      exists r. unfold name_month in Hk.
      destruct (Emp.name r); simpl in Hk; [|done].
      destruct (Emp.month r); simpl in Hk; [|done].
      simplify_eq/=. by eauto.
    + intros (r & Hr & Hn & [mo Hmo]). exists (n, mo). split; [done|].
      apply elem_of_group_keys. exists r. split; [done|].
      unfold name_month. by rewrite Hn, Hmo.
Qed.

(** ** Video Duration (lines 183-212) *)
Section not_nan.
Variable max_str_digits : nat.

Lemma binary_normalize_has_sign m e :
  ∃ s, has_sign s (binary_normalize prec emax m e false).
Proof.
  destruct m as [|m|m]; simpl.
  - by exists false.
  - exists false. unfold binary_round. destruct (shl_align _ _ _) as [mz ez].
    by apply binary_round_aux_sign.
  - exists true. unfold binary_round. destruct (shl_align _ _ _) as [mz ez].
    by apply binary_round_aux_sign.
Qed.

Lemma has_sign_finite s f : has_sign s f → is_inf f = false → finite f.
Proof. by destruct f. Qed.

Lemma float_of_int_finite n x : float_of_int n = Ok x → finite x.
Proof.
  unfold float_of_int. destruct (is_inf (dyadic n 0)) eqn:Hinf; [done|].
  intros [= <-]. destruct (binary_normalize_has_sign n 0) as [s Hs].
  by apply (has_sign_finite s).
Qed.

Lemma int_truediv_finite a b q : int_truediv a b = Ok q → finite q.
Proof.
  unfold int_truediv. case_decide as Hb; [done|].
  destruct (is_inf (fdiv (exact_int a) (exact_int b))) eqn:Hinf; [done|].
  intros [= <-]. revert Hinf. unfold fdiv.
  destruct a as [|a|a], b as [|b|b]; try done; simpl;
    unfold SFdiv_core_binary;
    match goal with
    | |- context [Z.div_eucl ?m' (Z.pos b)] =>
        assert (0 ≤ m') as Hm' by
          (destruct (_ - _ - _) eqn:E; [lia|apply Z.shiftl_nonneg; lia|lia]);
        pose proof (Z.div_pos m' (Z.pos b) Hm' ltac:(lia)) as Hq;
        unfold Z.div in Hq; destruct (Z.div_eucl m' (Z.pos b)) as [q r]
    end;
    intros Hinf; eapply has_sign_finite; try done;
    by apply binary_round_aux_sign.
Qed.

Lemma fadd_finite_not_nan x y :
  finite x → finite y → Pd.is_nan (fadd x y) = false.
Proof.
  destruct x as [sx|sx| |sx mx ex], y as [sy|sy| |sy my ey]; try done.
  - by destruct sx, sy.
  - intros _ _. unfold fadd. simpl.
    destruct (binary_normalize_has_sign
      (cond_Zopp sx (Z.pos (shl_align mx ex (Z.min ex ey)).1)
       + cond_Zopp sy (Z.pos (shl_align my ey (Z.min ex ey)).1))
      (Z.min ex ey)) as [s Hs].
    by destruct (binary_normalize _ _ _ _ _).
Qed.
End not_nan.

Lemma time_to_minutes_not_nan (max_str_digits : nat) (t v : value) :
  time_to_minutes max_str_digits t = Ok v →
  Pd.is_nan (as_float64 v) = false.
Proof.
  intros Hv.
  destruct (time_to_minutes_returns max_str_digits t)
    as (v' & Hv' & [->|[f ->]]); rewrite Hv in Hv'; simplify_eq; [done|].
  destruct t as [| | |s]; try done.
  apply time_to_minutes_float in Hv
    as (whole & last & x & q & Hx & Hq & -> & _).
  simpl. apply fadd_finite_not_nan.
  - by eapply float_of_int_finite.
  - by eapply int_truediv_finite.
Qed.

Lemma apply_Forall2 {A B} (f : A → result B) col ys :
  Pd.apply f col = Ok ys ↔ Forall2 (λ x y, f x = Ok y) col ys.
Proof.
  revert ys. induction col as [|x col IH]; intros ys; simpl.
  { split; [intros [= <-]; constructor|by inversion 1]. }
  unfold mbind, result_bind, bind. split.
  - destruct (f x) as [y|] eqn:Hy; [|done].
    destruct (Pd.apply f col) as [ys'|]; [|done].
    intros [= <-]. constructor; [done|]. by apply IH.
  - inversion 1 as [|? y ? ys' Hy Hys]; subst. rewrite Hy.
    apply IH in Hys. by rewrite Hys.
Qed.

(** With no NaN in the column the sum runs over every cell. *)
Lemma fsum_not_nan (col : list float) :
  Forall (λ f, Pd.is_nan f = false) col →
  Pd.fsum col
  = (foldl (Pd.kahan_step (S754_zero false) fadd fsub Pd.is_nan)
       (S754_zero false, S754_zero false) col).1.
Proof.
  intros Hall. unfold Pd.fsum, Pd.group_sum. do 2 f_equal.
  induction Hall as [|f col Hf _ IH]; [done|].
  by rewrite filter_cons, decide_True, IH.
Qed.

Lemma total_minutes_not_nan_cols
    (max_str_digits : nat) (col ms : list value) :
  Pd.apply (time_to_minutes max_str_digits) col = Ok ms →
  Forall (λ f, Pd.is_nan f = false) (as_float64 <$> ms).
Proof.
  intros Hms%apply_Forall2. apply Forall_fmap.
  induction Hms as [|t v col ms Hv _ IH]; [done|].
  constructor; [|done].
  by apply (time_to_minutes_not_nan max_str_digits t).
Qed.

(** X16.  Whatever the duration cells hold, none of their
    [total_minutes] is NaN, so the sum over a column of them skips no
    record: it is the compensated sum over all of them, in row order. *)
Theorem total_minutes_not_nan
    (max_str_digits : nat) (col ms : list value) :
  Pd.apply (time_to_minutes max_str_digits) col = Ok ms →
  Forall (λ f, Pd.is_nan f = false) (as_float64 <$> ms)
  ∧ Pd.fsum (as_float64 <$> ms)
    = (foldl (Pd.kahan_step (S754_zero false) fadd fsub Pd.is_nan)
         (S754_zero false, S754_zero false) (as_float64 <$> ms)).1.
Proof.
  intros Hms.
  pose proof (total_minutes_not_nan_cols _ _ _ Hms) as Hall.
  split; [done|]. by apply fsum_not_nan.
Qed.

(** X16 on a column with a minus sign and some text in it. *)
Lemma total_minutes_not_nan_witness :
  ∃ ms, Pd.apply (time_to_minutes 4300) [PyStr "-1:30"; PyStr "soon"] = Ok ms
        ∧ Forall (λ f, Pd.is_nan f = false) (as_float64 <$> ms)
        ∧ Pd.fsum (as_float64 <$> ms) = dyadic (-1) (-1).
Proof.
  destruct (Pd.apply (time_to_minutes 4300) [PyStr "-1:30"; PyStr "soon"])
    as [ms|e] eqn:Hms; [|by vm_compute in Hms].
  exists ms. split; [done|].
  destruct (total_minutes_not_nan 4300 _ ms Hms) as [Hall ->].
  split; [exact Hall|].
  vm_compute in Hms. injection Hms as <-. by vm_compute.
Defined.

(** An hour and a half in three segments: the compensated sum is 90.0,
    where adding up from left to right would stop just below. *)
Example ninety_minutes_compensated :
  ∃ ms,
    Pd.apply (time_to_minutes 4300)
      (Video.video_duration <$> Video.rows Sample.ninety_minutes) = Ok ms
    ∧ Pd.fsum (as_float64 <$> ms) = dyadic 90 0
    ∧ SFltb (foldl fadd (S754_zero false) (as_float64 <$> ms)) (dyadic 90 0)
      = true.
Proof. eexists. split; [vm_compute; reflexivity|]. by vm_compute. Qed.

(** The sum of two parts that are each in range can still leave the
    range: the duration is then infinite. *)
Example time_to_minutes_inf :
  time_to_minutes 4300
    (PyStr ("17" +:+ String.string_of_list_ascii (replicate 307 "0"%char)
            +:+ ":" +:+
            "1" +:+ String.string_of_list_ascii (replicate 310 "0"%char)))
  = Ok (PyFloat (S754_infinity false)).
Proof. by vm_compute. Qed.

Section video_rows.
Variable max_str_digits : nat.

(** The minutes that land in the group of [k] are those of the records
    of [k], in row order. *)
Lemma group_zip (rows : list Video.row) (ms : list value) (k : string) :
  Forall2 (λ r v, time_to_minutes max_str_digits (Video.video_duration r)
                  = Ok v) rows ms →
  ∃ ms',
    Pd.apply (time_to_minutes max_str_digits)
      (Video.video_duration
       <$> filter (λ r, Video.name r = Some k) rows) = Ok ms'
    ∧ (Pd.group fst k (zip (Video.name <$> rows) (as_float64 <$> ms))).*2
      = as_float64 <$> ms'.
Proof.
  unfold Pd.group.
  induction 1 as [|r v rows ms Hv _ (ms' & Hms' & IH)].
  { by exists []. }
  rewrite !fmap_cons. cbn [zip zip_with]. rewrite !filter_cons. simpl.
  destruct (decide (Video.name r = Some k)) as [Hk|Hk].
  - exists (v :: ms'). split.
    + rewrite fmap_cons. simpl. unfold mbind, result_bind, bind.
      by rewrite Hv, Hms'.
    + rewrite fmap_cons. simpl. f_equal. exact IH.
  - by exists ms'.
Qed.

Lemma group_keys_zip {A} (rows : list Video.row) (vals : list A) :
  length vals = length rows →
  Pd.group_keys String.le fst (zip (Video.name <$> rows) vals)
  = Pd.group_keys String.le Video.name rows.
Proof.
  intros Hlen. unfold Pd.group_keys. do 2 f_equal.
  rewrite omap_fst_zip, omap_id_fmap; [done|]. by rewrite length_fmap.
Qed.
End video_rows.

(** X17.  Every row of the video table belongs to the records of its
    SME, of which there is at least one: the parser goes through on their
    durations, [total_minutes] is the compensated sum of the results in
    row order, the target is 90 and it is met exactly when
    [90 <= total_minutes]. *)
Theorem video_summary_rows
    (max_str_digits : nat) (video_df : Video.frame)
    (t : list Video.summary) (s : Video.summary) :
  video_summary max_str_digits video_df = Ok t →
  s ∈ t →
  let records := filter (λ r, Video.name r = Some (Video.s_name s))
                   (Video.rows video_df) in
  records ≠ []
  ∧ ∃ ms,
      Pd.apply (time_to_minutes max_str_digits)
        (Video.video_duration <$> records) = Ok ms
      ∧ Video.total_minutes s = Pd.fsum (as_float64 <$> ms)
      ∧ Video.target_minutes s = dyadic 90 0
      ∧ Video.target_met s = fleb (dyadic 90 0) (Video.total_minutes s).
Proof.
  unfold video_summary.
  destruct (Pd.apply _ (Video.video_duration <$> Video.rows video_df))
    as [all|e] eqn:Hall; [|done].
  unfold mbind, result_bind, bind. intros Ht. injection Ht as <-.
  intros ([k g] & -> & Hkg)%list_elem_of_fmap.
  cbn [Video.s_name Video.total_minutes Video.target_minutes
       Video.target_met].
  assert (length all = length (Video.rows video_df)) as Hlen.
  { apply apply_length in Hall. by rewrite length_fmap in Hall. }
  assert (k ∈ Pd.group_keys String.le Video.name (Video.rows video_df)) as Hk.
  { rewrite <-(group_keys_zip _ (as_float64 <$> all))
      by (by rewrite length_fmap).
    rewrite <-groupby_keys. apply list_elem_of_fmap. by exists (k, g). }
  apply elem_of_groupby in Hkg as [_ ->].
  apply apply_Forall2, Forall2_fmap_l in Hall.
  destruct (group_zip max_str_digits _ _ k Hall) as (ms & Hms & Hg).
  split.
  - apply elem_of_group_keys in Hk. by apply (group_nonempty Video.name).
  - exists ms. split_and!; [done| |done..]. by rewrite Hg.
Qed.

(** X17 on Carol's hour and a half in three segments: the total is 90.0
    and the target is met. *)
Lemma video_summary_rows_witness :
  let s := {| Video.s_name := "Carol";
              Video.total_minutes := dyadic 90 0;
              Video.target_minutes := dyadic 90 0;
              Video.target_met := true |} in
  ∃ ms,
    video_summary 4300 Sample.ninety_minutes = Ok [s]
    ∧ Pd.apply (time_to_minutes 4300)
        (Video.video_duration <$> Video.rows Sample.ninety_minutes) = Ok ms
    ∧ Video.total_minutes s = Pd.fsum (as_float64 <$> ms)
    ∧ Video.target_met s = fleb (dyadic 90 0) (Video.total_minutes s).
Proof.
  intros s.
  assert (video_summary 4300 Sample.ninety_minutes = Ok [s]) as Ht
    by (by vm_compute).
  destruct (video_summary_rows 4300 _ [s] s Ht)
    as (_ & ms & Hms & Htotal & _ & Hmet); [by left|].
  exists ms. split; [exact Ht|]. split; [exact Hms|].
  split; [exact Htotal|exact Hmet].
Defined.

Lemma unique_NoDup `{EqDecision A} (l : list A) :
  NoDup l → Pd.unique l = l.
Proof.
  induction 1 as [|x l Hx Hnd IH]; simpl; [done|]. rewrite IH.
  apply (f_equal (cons x)). clear IH Hnd.
  induction l as [|y l IH]; [done|].
  apply not_elem_of_cons in Hx as [Hxy Hx].
  by rewrite filter_cons, decide_True, IH by done.
Qed.

(** X18.  The SME select box offers the names of the video table as they
    stand, each being there once; for an offered SME the row lookup
    returns the row of that SME, and the table has no other row of that
    name.  With nothing to select the lookup fails with [IndexError]. *)
Theorem emp_dur_unique
    (max_str_digits : nat) (video_df : Video.frame)
    (t : list Video.summary) :
  video_summary max_str_digits video_df = Ok t →
  sme_options t = Video.s_name <$> t
  ∧ (∀ emp, emp ∈ sme_options t →
       ∃ v, emp_dur t (Some emp) = Ok v
            ∧ v ∈ t ∧ Video.s_name v = emp
            ∧ ∀ v', v' ∈ t → Video.s_name v' = emp → v' = v)
  ∧ (t = [] → ∀ emp, emp_dur t emp = Raise IndexError).
Proof.
  intros Ht.
  assert (NoDup (Video.s_name <$> t)) as Hnd.
  { destruct (video_summary_keys max_str_digits video_df) as (t' & Ht' & Hk).
    rewrite Ht in Ht'. injection Ht' as <-. rewrite Hk.
    apply NoDup_group_keys. }
  split_and!.
  - unfold sme_options. by apply unique_NoDup.
  - intros emp. unfold sme_options. rewrite elem_of_unique.
    intros (v0 & -> & Hv0)%list_elem_of_fmap. unfold emp_dur.
    destruct (filter _ t) as [|v l] eqn:Hf.
    + assert (v0 ∈ filter (λ v, Some (Video.s_name v0) = Some (Video.s_name v)) t)
        as Hin by (by apply list_elem_of_filter).
      rewrite Hf in Hin. by apply elem_of_nil in Hin.
    + assert (v ∈ filter (λ v, Some (Video.s_name v0) = Some (Video.s_name v)) t)
        as [[= Hv] Hin]%list_elem_of_filter by (rewrite Hf; by left).
      exists v. split_and!; [done..|].
      intros v' Hv' Hn. apply (NoDup_fmap_eq Video.s_name t); try done.
      congruence.
  - by intros -> emp.
Qed.

(** X18 on Carol's two segments. *)
Lemma emp_dur_unique_witness :
  ∃ t, video_summary 4300 (Sample.two_segments "Carol") = Ok t
       ∧ sme_options t = Video.s_name <$> t.
Proof.
  destruct (video_summary 4300 (Sample.two_segments "Carol"))
    as [t|e] eqn:Ht; [|by vm_compute in Ht].
  exists t. split; [done|].
  exact (proj1 (emp_dur_unique 4300 _ t Ht)).
Defined.

(** ** The shape of a duration (lines 185-190) *)
Section split_facts.
Implicit Types (s a b : string) (sep : ascii).

Lemma split_no_sep sep s : sep ∉ chars s → split sep s = [s].
Proof.
  induction s as [|c s IH]; [done|]. unfold chars. simpl.
  intros [Hc Hs]%not_elem_of_cons.
  rewrite decide_False by done. by rewrite IH.
Qed.

Lemma split_app sep a b :
  sep ∉ chars a → split sep (a +:+ String sep b) = a :: split sep b.
Proof.
  induction a as [|c a IH]; unfold chars; simpl.
  - intros _. by rewrite decide_True.
  - intros [Hc Ha]%not_elem_of_cons.
    rewrite decide_False by done. by rewrite IH.
Qed.

(** There is one part more than there are separators. *)
Lemma length_split sep s :
  length (split sep s) = S (length (filter (λ c, c = sep) (chars s))).
Proof.
  induction s as [|c s IH]; [done|]. unfold chars in *. simpl.
  rewrite filter_cons. destruct (decide (c = sep)) as [->|Hc]; simpl.
  - by rewrite IH.
  - destruct (split sep s); simpl in *; [done|exact IH].
Qed.

Lemma int_zero max : int max "0" = Ok 0.
Proof. by vm_compute. Qed.
End split_facts.

(** X19.  A two-part duration is read as minutes and seconds: with a
    zero hour put in front it is the same three-part duration, whatever
    the two parts are. *)
Theorem two_parts_are_minutes_seconds (max_str_digits : nat) (p1 p2 : string) :
  ":"%char ∉ chars p1 → ":"%char ∉ chars p2 →
  time_to_minutes max_str_digits (PyStr (p1 +:+ ":" +:+ p2))
  = time_to_minutes max_str_digits (PyStr ("0:" +:+ p1 +:+ ":" +:+ p2)).
Proof.
  intros H1 H2. unfold time_to_minutes.
  change ("0:" +:+ p1 +:+ ":" +:+ p2)
    with ("0" +:+ String ":" (p1 +:+ String ":" p2)).
  change (p1 +:+ ":" +:+ p2) with (p1 +:+ String ":" p2).
  rewrite (split_app ":" "0")
    by (apply (bool_decide_unpack _); by vm_compute).
  rewrite !(split_app ":" p1), !(split_no_sep ":" p2) by done.
  rewrite int_zero.
  unfold try_except, mbind, result_bind, bind, int_add_float,
    mbind, result_bind, bind.
  destruct (int max_str_digits p1) as [a|]; [|done].
  destruct (int max_str_digits p2) as [b|]; [|done].
  by change (0 * 60 + a) with a.
Qed.

(** X19 on "1:30" and "0:1:30". *)
Lemma two_parts_are_minutes_seconds_witness :
  time_to_minutes 4300 (PyStr "1:30") = time_to_minutes 4300 (PyStr "0:1:30").
Proof.
  apply (two_parts_are_minutes_seconds 4300 "1" "30");
    apply (bool_decide_unpack _); by vm_compute.
Defined.

(** X20.  A string that does not have exactly one or two colons is 0
    minutes: a plain number of minutes, too, and anything with three
    colons or more. *)
Theorem colons_decide (max_str_digits : nat) (s : string) :
  let colons := length (filter (λ c, c = ":"%char) (chars s)) in
  colons ≠ 1%nat → colons ≠ 2%nat →
  time_to_minutes max_str_digits (PyStr s) = Ok (PyInt 0).
Proof.
  intros colons H1 H2.
  apply time_to_minutes_shape; rewrite length_split; fold colons; lia.
Qed.

(** X20 on a plain "90". *)
Lemma colons_decide_witness : time_to_minutes 4300 (PyStr "90") = Ok (PyInt 0).
Proof. by apply (colons_decide 4300 "90"). Defined.

(** ** The menu (lines 22-221) *)

Lemma group_keys_nil {R K} `{EqDecision K} (le : relation K)
    `{!RelDecision le} (key : R → option K) (rows : list R) :
  Pd.group_keys le key rows = [] ↔ Forall (λ r, key r = None) rows.
Proof.
  split.
  - intros Hnil. apply Forall_forall. intros r Hr.
    destruct (key r) as [k|] eqn:Hk; [|done].
    assert (k ∈ Pd.group_keys le key rows) as Hin
      by (apply elem_of_group_keys; by exists r).
    rewrite Hnil in Hin. by apply elem_of_nil in Hin.
  - intros Hall. apply elem_of_nil_inv.
    intros k (r & Hr & Hk)%elem_of_group_keys.
    rewrite Forall_forall in Hall. rewrite (Hall r Hr) in Hk. done.
Qed.

(** The attendance table of a preprocessed upload is empty exactly when
    no entry has a name. *)
Lemma attendance_nil (df : Emp.frame) :
  Forall (λ r, is_Some (Emp.month r)) (Emp.rows df) →
  attendance df = [] ↔ Forall (λ r, Emp.name r = None) (Emp.rows df).
Proof.
  intros Hmonth.
  assert (attendance df = [] ↔ Attendance.key <$> attendance df = []) as ->.
  { split; [by intros ->|apply fmap_nil_inv]. }
  rewrite attendance_keys, group_keys_nil. rewrite !Forall_forall.
  rewrite Forall_forall in Hmonth.
  split; intros Hall r Hr; specialize (Hall r Hr);
    destruct (Hmonth r Hr) as [m Hm]; unfold name_month in *;
    rewrite Hm in *; by destruct (Emp.name r).
Qed.

Section drill_down.
Variable max_str_digits : nat.
Variable selectbox : list string → option string.
Hypothesis selectbox_ok : selectbox_ok selectbox.

Lemma selectbox_Some (options : list string) :
  options ≠ [] → ∃ option, selectbox options = Some option ∧ option ∈ options.
Proof.
  intros Hne. specialize (selectbox_ok options).
  destruct (selectbox options) as [o|]; [by exists o|done].
Qed.

(** With a row in the table the drill-down of the selected employee
    goes through. *)
Lemma pie_data_selected (t : list Attendance.row) :
  t ≠ [] → ∃ pie, pie_data t (selectbox (emp_options t)) = Ok pie.
Proof.
  intros Hne.
  destruct (selectbox_Some (emp_options t)) as (emp & -> & Hemp).
  { unfold emp_options. by destruct t. }
  destruct (emp_options_first t emp Hemp) as (pre & a & post & Ht & Ha & Hpre).
  unfold pie_data. rewrite (emp_att_first t emp pre a post) by done.
  by eexists.
Qed.

Lemma emp_dur_selected (t : list Video.summary) :
  t ≠ [] → ∃ v, emp_dur t (selectbox (sme_options t)) = Ok v.
Proof.
  intros Hne.
  destruct (selectbox_Some (sme_options t)) as (emp & -> & Hemp).
  { unfold sme_options. by destruct t. }
  unfold sme_options in Hemp.
  apply (proj1 (elem_of_unique _ _)) in Hemp.
  apply list_elem_of_fmap in Hemp as (v0 & -> & Hv0).
  unfold emp_dur.
  destruct (filter _ t) as [|v l] eqn:Hf; [|by exists v].
  assert (v0 ∈ filter (λ v, Some (Video.s_name v0) = Some (Video.s_name v)) t)
    as Hin by (by apply list_elem_of_filter).
  rewrite Hf in Hin. by apply elem_of_nil in Hin.
Qed.

(** The attendance page: the drill-down fails on an empty table and on
    no other. *)
Lemma render_attendance (df : Emp.frame) (video : option Video.frame) :
  Forall (λ r, is_Some (Emp.month r)) (Emp.rows df) →
  (Forall (λ r, Emp.name r = None) (Emp.rows df) →
   render max_str_digits selectbox AttendanceSummary df video
   = Raise IndexError)
  ∧ (¬ Forall (λ r, Emp.name r = None) (Emp.rows df) →
     ∃ pie, render max_str_digits selectbox AttendanceSummary df video
            = Ok (AttendancePage (attendance df) pie)).
Proof.
  intros Hmonth. rewrite <-(attendance_nil df Hmonth). simpl. split.
  - by intros ->.
  - intros Hne. destruct (pie_data_selected _ Hne) as [pie ->].
    by exists pie.
Qed.

(** The video page, likewise. *)
Lemma render_video (df : Emp.frame) (video_df : Video.frame) :
  "name"%string ∈ Video.columns video_df →
  "video_duration"%string ∈ Video.columns video_df →
  (Forall (λ r, Video.name r = None) (Video.rows video_df) →
   render max_str_digits selectbox VideoDuration df (Some video_df)
   = Raise IndexError)
  ∧ (¬ Forall (λ r, Video.name r = None) (Video.rows video_df) →
     ∃ t v, render max_str_digits selectbox VideoDuration df (Some video_df)
            = Ok (VideoPage t v)).
Proof.
  intros Hn Hd. simpl. rewrite decide_True by done.
  destruct (video_summary_keys max_str_digits video_df) as (t & -> & Hk).
  rewrite <-(group_keys_nil String.le), <-Hk.
  unfold mbind, result_bind, bind. split.
  - intros ->%fmap_nil_inv. done.
  - intros Hne. destruct (emp_dur_selected t) as [v ->]; [by intros ->|].
    by exists t, v.
Qed.
End drill_down.

Local Ltac break :=
  repeat match goal with
         | H : ∃ _, _ |- _ => destruct H
         | H : _ ∧ _ |- _ => destruct H
         | H : _ ∨ _ |- _ => destruct H
         end.

(** X21.  A run of the script over uploads with pairwise distinct
    column names, with the select boxes on one of their options: the
    only exception of the modelled steps is the [IndexError] of a
    drill-down, and it is raised exactly on the attendance page when no
    entry that is left has a name, and on the video page when no record
    has one.  Without an employee upload nothing is shown, whatever the
    menu choice and also when a video file is there; an employee upload
    that lacks a required column ends in the report of the missing
    columns for every menu choice; and the three notices of the buffer
    and video pages appear exactly under their conditions. *)
Theorem main_outcomes
    (to_datetime : list value → nat → option Timestamp)
    (isocalendar_week : Timestamp → Z) (month_name : Timestamp → string)
    (month_of : Timestamp → Z) (max_str_digits : nat)
    (selectbox : list string → option string)
    (uploaded_employee_file : option Raw.frame)
    (uploaded_video_file : option Video.frame) (choice : menu) :
  selectbox_ok selectbox →
  (∀ raw, uploaded_employee_file = Some raw → NoDup (Raw.columns raw)) →
  (∀ video_df, uploaded_video_file = Some video_df →
               NoDup (Video.columns video_df)) →
  let preprocess' :=
    preprocess to_datetime isocalendar_week month_name month_of in
  let run :=
    main to_datetime isocalendar_week month_name month_of max_str_digits
      selectbox uploaded_employee_file uploaded_video_file choice in
  (∀ e, run = Raise e → e = IndexError)
  ∧ (run = Raise IndexError ↔
       ∃ raw df, uploaded_employee_file = Some raw
         ∧ preprocess' raw = inr df
         ∧ (choice = AttendanceSummary
            ∧ Forall (λ r, Emp.name r = None) (Emp.rows df)
            ∨ choice = VideoDuration
              ∧ ∃ video_df, uploaded_video_file = Some video_df
                  ∧ "name"%string ∈ Video.columns video_df
                  ∧ "video_duration"%string ∈ Video.columns video_df
                  ∧ Forall (λ r, Video.name r = None)
                      (Video.rows video_df)))
  ∧ (run = Ok NothingUploaded ↔ uploaded_employee_file = None)
  ∧ (∀ missing, run = Ok (MissingColumns missing) ↔
       ∃ raw, uploaded_employee_file = Some raw
              ∧ preprocess' raw = inl missing)
  ∧ (run = Ok BufferColumnsNotFound ↔
       ∃ raw df, uploaded_employee_file = Some raw
                 ∧ preprocess' raw = inr df ∧ choice = BufferSummary
                 ∧ ¬ Forall (λ col, col ∈ Emp.columns df) buffer_cols)
  ∧ (run = Ok UploadVideoFile ↔
       ∃ raw df, uploaded_employee_file = Some raw
                 ∧ preprocess' raw = inr df ∧ choice = VideoDuration
                 ∧ uploaded_video_file = None)
  ∧ (run = Ok VideoColumnsMissing ↔
       ∃ raw df video_df,
         uploaded_employee_file = Some raw ∧ preprocess' raw = inr df
         ∧ choice = VideoDuration ∧ uploaded_video_file = Some video_df
         ∧ ¬ ("name"%string ∈ Video.columns video_df
              ∧ "video_duration"%string ∈ Video.columns video_df)).
Proof.
  intros Hok _ _ preprocess' run. unfold run, main.
  destruct uploaded_employee_file as [raw|].
  2: { split_and!; try intros missing; try split; intros; break;
         simplify_eq; done. }
  fold (preprocess' raw). destruct (preprocess' raw) as [missing|df] eqn:Hdf.
  { split_and!; try intros missing'; try split; intros; break;
      simplify_eq; try done; try congruence.
    by exists raw. }
  assert (Forall (λ r, is_Some (Emp.month r)) (Emp.rows df)) as Hmonth.
  { apply Forall_forall. intros r.
    rewrite (preprocess_rows _ _ _ _ _ _ Hdf).
    intros (r' & -> & [[t Ht] _]%list_elem_of_filter)%list_elem_of_fmap.
    simpl. by rewrite Ht. }
  set (R := render max_str_digits selectbox choice df uploaded_video_file).
  assert ((∀ e, R = Raise e → e = IndexError)
          ∧ (R = Raise IndexError ↔
               choice = AttendanceSummary
               ∧ Forall (λ r, Emp.name r = None) (Emp.rows df)
               ∨ choice = VideoDuration
                 ∧ ∃ video_df, uploaded_video_file = Some video_df
                     ∧ "name"%string ∈ Video.columns video_df
                     ∧ "video_duration"%string ∈ Video.columns video_df
                     ∧ Forall (λ r, Video.name r = None)
                         (Video.rows video_df))
          ∧ R ≠ Ok NothingUploaded
          ∧ (∀ missing, R ≠ Ok (MissingColumns missing))
          ∧ (R = Ok BufferColumnsNotFound ↔
               choice = BufferSummary
               ∧ ¬ Forall (λ col, col ∈ Emp.columns df) buffer_cols)
          ∧ (R = Ok UploadVideoFile ↔
               choice = VideoDuration ∧ uploaded_video_file = None)
          ∧ (R = Ok VideoColumnsMissing ↔
               ∃ video_df, choice = VideoDuration
                 ∧ uploaded_video_file = Some video_df
                 ∧ ¬ ("name"%string ∈ Video.columns video_df
                      ∧ "video_duration"%string ∈ Video.columns video_df)))
    as (Hexn & Hraise & Hnu & Hnm & Hb & Hu & Hv).
  { subst R. destruct choice.
    1-3: simpl; split_and!; try done; try split; intros; break;
         simplify_eq; done.
    - destruct (render_attendance max_str_digits selectbox Hok df
                  uploaded_video_file Hmonth) as [Hempty Hrow].
      destruct (decide (Forall (λ r, Emp.name r = None) (Emp.rows df)))
        as [Hnone|Hsome].
      + rewrite (Hempty Hnone).
        split_and!; try done; try split; intros; break; simplify_eq;
          try done. by left.
      + destruct (Hrow Hsome) as [pie ->].
        split_and!; try done; try split; intros; break; simplify_eq; done.
    - simpl. unfold buffer_summary. case_decide as Hcols.
      + split_and!; try done; try split; intros; break; simplify_eq;
          try done; tauto.
      + split_and!; try done; try split; intros; break; simplify_eq;
          try done.
    - destruct uploaded_video_file as [video_df|].
      2: { simpl. split_and!; try done; try split; intros; break;
             simplify_eq; done. }
      destruct (decide ("name"%string ∈ Video.columns video_df
                        ∧ "video_duration"%string ∈ Video.columns video_df))
        as [[Hn Hd]|Hcols].
      + destruct (render_video max_str_digits selectbox Hok df video_df
                    Hn Hd) as [Hempty Hrow].
        destruct (decide (Forall (λ r, Video.name r = None)
                            (Video.rows video_df))) as [Hnone|Hsome].
        * rewrite (Hempty Hnone).
          split_and!; try done; try split; intros; break; simplify_eq;
            try done; try tauto.
          right. split; [done|]. by exists video_df.
        * destruct (Hrow Hsome) as (t & v & ->).
          split_and!; try done; try split; intros; break; simplify_eq;
            try done; tauto.
      + simpl. rewrite decide_False by done.
        split_and!; try done; try split; intros; break; simplify_eq;
          try done; try tauto.
        by exists video_df. }
  split_and!.
  - exact Hexn.
  - rewrite Hraise. split.
    + intros H. by exists raw, df.
    + intros (raw' & df' & [= <-] & Hm & H).
      rewrite Hdf in Hm. by injection Hm as <-.
  - split; [by intros ?|done].
  - intros missing. split; [by intros ?%Hnm|].
    intros (raw' & [= <-] & Hm). congruence.
  - rewrite Hb. split.
    + intros [-> Hc]. by exists raw, df.
    + intros (raw' & df' & [= <-] & Hm & -> & Hc).
      rewrite Hdf in Hm. by injection Hm as <-.
  - rewrite Hu. split.
    + intros [-> ->]. by exists raw, df.
    + intros (raw' & df' & [= <-] & Hm & -> & ->). done.
  - rewrite Hv. split.
    + intros (v & -> & -> & Hc). by exists raw, df, v.
    + intros (raw' & df' & v & [= <-] & Hm & -> & -> & Hc). by exists v.
Qed.

(** X21 on an upload whose only start date is text, on the attendance
    page: the table is empty and the drill-down raises. *)
Lemma main_outcomes_witness :
  let raw := {| Raw.columns := Sample.raw_columns;
                Raw.rows :=
                  [Sample.raw_entry "Dana" "Audit" (PyStr "n/a") (PyInt 1) 1]
             |} in
  main Sample.to_datetime Sample.isocalendar_week Sample.month_name
    Sample.month_of 4300 Sample.selectbox (Some raw) None AttendanceSummary
  = Raise IndexError.
Proof.
  intros raw.
  apply (main_outcomes Sample.to_datetime Sample.isocalendar_week
           Sample.month_name Sample.month_of 4300 Sample.selectbox
           (Some raw) None AttendanceSummary).
  - intros [|o options]; [done|]. simpl. by left.
  - intros raw' [= <-]. apply (bool_decide_unpack _). by vm_compute.
  - done.
  - eexists raw, _. split; [done|]. split; [by vm_compute|].
    left. split; [done|]. by vm_compute.
Defined.

(** ** PPT, Illustration & AE Buffer (lines 152-158) *)

(** X22.  When the buffer table is shown, each of its rows lists the four
    buffer columns in their order, and for each of them that is an int64
    column the sums of the rows are int64 and add up, in int64 arithmetic
    (modulo 2^64), to the sum of that column over the entries that have a
    name; exactly so when no cell is negative and the sum of the column
    fits an int64. *)
Theorem buffer_summary_totals (df : Emp.frame) (t : list Buffer.row) :
  buffer_summary df = Some t →
  (∀ b, b ∈ t → (Buffer.sums b).*1 = buffer_cols)
  ∧ ∀ i col, buffer_cols !! i = Some col →
      Forall (λ r, Pd.is_int64 (Emp.cell col r)) (Emp.rows df) →
      let sums := (λ b, default (Pd.Int64 0) (snd <$> Buffer.sums b !! i))
                  <$> t in
      let column := Pd.total (λ r, Pd.int_of (Emp.cell col r))
                      (filter (λ r, is_Some (Emp.name r)) (Emp.rows df)) in
      Forall Pd.is_int64 sums
      ∧ Pd.wrap (Pd.total Pd.int_of sums) = Pd.wrap column
      ∧ (Forall (λ r, 0 ≤ Pd.int_of (Emp.cell col r)) (Emp.rows df) →
         Pd.in_int64 column → Pd.total Pd.int_of sums = column).
Proof.
  unfold buffer_summary. case_decide; [|done].
  intros Ht. apply (inj Some) in Ht. subst t. split.
  - intros b ([n g] & -> & _)%list_elem_of_fmap. cbn [Buffer.sums].
    rewrite <-list_fmap_compose. apply list_fmap_id.
  - intros i col Hi Hint. cbv zeta. rewrite <-list_fmap_compose.
    rewrite (list_fmap_ext _ (λ kg, Pd.sum (Emp.cell col <$> kg.2))).
    + by apply (groupby_totals Emp.name String.le (Emp.cell col)).
    + intros j [n g] _.
      cbn [compose Buffer.sums snd]. by rewrite list_lookup_fmap, Hi.
Qed.

(** X22 on the sample with the buffer columns: Alice's two counts of
    the first column wrap to -2^63 + 1, and with Bob's 1 the rows add up
    to -2^63 + 2, the sum of the column. *)
Lemma buffer_summary_totals_witness :
  ∃ t, buffer_summary Sample.with_buffers = Some t
       ∧ (∀ b, b ∈ t → (Buffer.sums b).*1 = buffer_cols)
       ∧ Pd.wrap (Pd.total Pd.int_of
                    ((λ b, default (Pd.Int64 0)
                             (snd <$> Buffer.sums b !! 0%nat)) <$> t))
         = - 2 ^ 63 + 2.
Proof.
  destruct (buffer_summary Sample.with_buffers) as [t|] eqn:Ht;
    [|by vm_compute in Ht].
  exists t. split; [done|].
  destruct (buffer_summary_totals _ t Ht) as [Hcols Hsum].
  split; [exact Hcols|].
  destruct (Hsum 0%nat "ppt's_buffer"%string eq_refl) as (_ & -> & _);
    [|by vm_compute].
  apply (bool_decide_unpack _). by vm_compute.
Defined.
